(** * boltz-client: swap creation, refunds, status handling, websocket and
      RPC lock, embedded from the Go sources.

    Source files embedded here:
    - [rpcserver/router.go]: [createSwap], [createReverseSwap],
      [newPreimage], [newKeys], [handleError], [unlock], [requestAllowed]
      and the two gRPC interceptors;
    - the nursery file (package [nursery]): [refundSwap], [findLockupVout],
      [handleSwapStatus];
    - the websocket file (package [boltz]): [BoltzWebsocket.Connect],
      [Subscribe], [Close].

    Calls that leave the process (exchange, Lightning node, wallet,
    database, crypto and parsing libraries) are fields of records that the
    functions receive, exactly as the Go methods reach them through their
    receiver.  Every function that logs, writes to the database or talks to
    a collaborator runs in the monad [M]: it threads the mutable [World]
    (database tables, the [locked] flag) and collects the [Event]s it
    produced, in program order. *)

From Stdlib Require Import ZArith List String Ascii Bool Lia.
From Stdlib.Strings Require Import Byte.
From stdpp Require Import base gmap strings list pretty.

Set Default Proof Using "Type".

(* ===================================================================== *)
(** * Go values *)
(* ===================================================================== *)

Module Go.

(** A Go [error] is kept as the text of [err.Error()]. *)
Definition error : Type := string.

(** [(T, error)] results: [Ok v] is [v, nil], [Error e] is [_, err]. *)
Abbreviation res A := (result A error).

Definition bytes : Type := list byte.

(** [uint32(x)] for an integer [x] of a wider (or signed) type. *)
Definition uint32 (x : Z) : Z := (x mod 2 ^ 32)%Z.
Definition uint64 (x : Z) : Z := (x mod 2 ^ 64)%Z.
Definition int64 (x : Z) : Z := ((x + 2 ^ 63) mod 2 ^ 64 - 2 ^ 63)%Z.

(** [bytes.Equal]. *)
Fixpoint bytes_Equal (a b : bytes) : bool :=
  match a, b with
  | [], [] => true
  | x :: a', y :: b' => Byte.eqb x y && bytes_Equal a' b'
  | _, _ => false
  end.

(** [strings.HasPrefix] and [strings.Contains]. *)
Fixpoint strings_HasPrefix (s prefix : string) {struct prefix} : bool :=
  match prefix, s with
  | EmptyString, _ => true
  | String c p, String d s' => Ascii.eqb c d && strings_HasPrefix s' p
  | String _ _, EmptyString => false
  end.

Fixpoint strings_Contains (s substr : string) : bool :=
  strings_HasPrefix s substr ||
  match s with
  | EmptyString => false
  | String _ s' => strings_Contains s' substr
  end.

(** [hex.EncodeToString]. *)
Definition hex_digit (n : N) : ascii :=
  match n with
  | 0%N => "0" | 1%N => "1" | 2%N => "2" | 3%N => "3" | 4%N => "4"
  | 5%N => "5" | 6%N => "6" | 7%N => "7" | 8%N => "8" | 9%N => "9"
  | 10%N => "a" | 11%N => "b" | 12%N => "c" | 13%N => "d" | 14%N => "e"
  | _ => "f"
  end%char.

Fixpoint hex_EncodeToString (b : bytes) : string :=
  match b with
  | [] => EmptyString
  | x :: b' =>
      let n := Byte.to_N x in
      String (hex_digit (n / 16)) (String (hex_digit (n mod 16)) (hex_EncodeToString b'))
  end.

(** A returned [error] that may be nil, as a result without a value. *)
Definition of_error (e : option error) : res unit :=
  match e with Some err => Error err | None => Ok tt end.

(** [strconv.Itoa], [strconv.FormatInt(_, 10)], [strconv.FormatUint(_, 10)]. *)
Definition strconv_Itoa (x : Z) : string := pretty x.

(** [strings.HasSuffix] and [strings.TrimSuffix]. *)
Fixpoint strings_HasSuffix (s suffix : string) : bool :=
  String.eqb s suffix ||
  match s with
  | EmptyString => false
  | String _ s' => strings_HasSuffix s' suffix
  end.

Definition strings_TrimSuffix (s suffix : string) : string :=
  if strings_HasSuffix s suffix
  then String.substring 0 (String.length s - String.length suffix) s
  else s.

End Go.
Export Go.

(* ===================================================================== *)
(** * Data model (packages [boltz], [database], [boltzrpc], [wire]) *)
(* ===================================================================== *)

(** Values of library types that the code only hands on are kept in their
    serialised form. *)
Definition PrivateKey : Type := bytes.
Definition PublicKey : Type := bytes.
Definition SwapTree : Type := bytes.
Definition ChanId : Type := Z.
(** A [float64]/[float32] is only passed along; it is kept as its bits. *)
Definition float : Type := Z.

Inductive Currency := CurrencyBtc | CurrencyLiquid | CurrencyRootstock.

Definition Currency_eqb (a b : Currency) : bool :=
  match a, b with
  | CurrencyBtc, CurrencyBtc | CurrencyLiquid, CurrencyLiquid
  | CurrencyRootstock, CurrencyRootstock => true
  | _, _ => false
  end.

Definition Currency_String (c : Currency) : string :=
  match c with
  | CurrencyBtc => "BTC" | CurrencyLiquid => "L-BTC" | CurrencyRootstock => "RBTC"
  end.

Record Pair := { From : Currency; To : Currency }.

(** Modelled from the spec: the enum [boltz.SwapUpdateEvent], its [String]
    method and [boltz.ParseEvent] belong to package [boltz], which is not
    among the sources.  The constructors are the closed status vocabulary of
    the spec (4.C, event inputs) together with [SwapRefunded], which
    [refundSwap] names. *)
Inductive SwapUpdateEvent :=
| SwapCreated | TransactionMempool | TransactionConfirmed | TransactionClaimed
| TransactionLockupFailed | InvoiceSet | InvoicePaid | InvoicePending
| InvoiceSettled | InvoiceFailedToPay | SwapExpired | SwapRefunded
| UnknownEvent.

Definition SwapUpdateEvent_String (e : SwapUpdateEvent) : string :=
  match e with
  | SwapCreated => "swap.created"
  | TransactionMempool => "transaction.mempool"
  | TransactionConfirmed => "transaction.confirmed"
  | TransactionClaimed => "transaction.claimed"
  | TransactionLockupFailed => "transaction.lockupFailed"
  | InvoiceSet => "invoice.set"
  | InvoicePaid => "invoice.paid"
  | InvoicePending => "invoice.pending"
  | InvoiceSettled => "invoice.settled"
  | InvoiceFailedToPay => "invoice.failedToPay"
  | SwapExpired => "swap.expired"
  | SwapRefunded => "swap.refunded"
  | UnknownEvent => ""
  end.

Definition all_events : list SwapUpdateEvent :=
  [SwapCreated; TransactionMempool; TransactionConfirmed; TransactionClaimed;
   TransactionLockupFailed; InvoiceSet; InvoicePaid; InvoicePending;
   InvoiceSettled; InvoiceFailedToPay; SwapExpired; SwapRefunded].

Definition ParseEvent (status : string) : SwapUpdateEvent :=
  match List.find (fun e => String.eqb (SwapUpdateEvent_String e) status) all_events with
  | Some e => e
  | None => UnknownEvent
  end.

Inductive SwapState :=
| SwapState_PENDING | SwapState_SUCCESSFUL | SwapState_ERROR
| SwapState_SERVER_ERROR | SwapState_REFUNDED.

(** [database.Swap], with the fields the sources read or write.
    [TimoutBlockHeight] is a Go [int] in the nursery ([strconv.Itoa] is
    applied to it); [router.go] fills it from a [uint32]. *)
Record Swap := {
  Id : string;
  SwapPair : Pair;
  State : SwapState;
  SwapError : string;
  Status : SwapUpdateEvent;
  PrivateKey_ : PrivateKey;
  Preimage : bytes;
  Invoice : string;
  Address : string;
  ExpectedAmount : Z;
  TimoutBlockHeight : Z;
  SwapTree_ : SwapTree;
  RedeemScript : bytes;
  LockupTransactionId : string;
  RefundTransactionId : string;
  RefundAddress : string;
  IsAuto : bool;
  ServiceFeePercent : float;
  Wallet : string;
  ClaimPubKey : option PublicKey;
  BlindingKey : option PrivateKey
}.

(** [database.ReverseSwap]. *)
Record ReverseSwap := {
  rId : string;
  rIsAuto : bool;
  rPair : Pair;
  rState : SwapState;
  rError : string;
  rStatus : SwapUpdateEvent;
  rAcceptZeroConf : bool;
  rPrivateKey : PrivateKey;
  rSwapTree : SwapTree;
  rRefundPubKey : PublicKey;
  rPreimage : bytes;
  rInvoice : string;
  rClaimAddress : string;
  rOnchainAmount : Z;
  rTimeoutBlockHeight : Z;
  rLockupTransactionId : string;
  rClaimTransactionId : string;
  rServiceFeePercent : float;
  rExternalPay : bool;
  rChanIds : list ChanId;
  rBlindingKey : option PrivateKey
}.

(** [wire.OutPoint], [wire.TxIn], [wire.TxOut], [wire.MsgTx], [btcutil.Tx]. *)
Record OutPoint := { OutPoint_Hash : string; OutPoint_Index : Z }.
Record TxIn := { PreviousOutPoint : OutPoint; Witness : list bytes; Sequence : Z }.
Record TxOut := { Value : Z; PkScript : bytes }.
Record MsgTx := { TxIn_ : list TxIn; TxOut_ : list TxOut; LockTime : Z }.
Record Tx := { Tx_MsgTx : MsgTx; Tx_Hash : string }.

(** [btcutil.Address]: the code only calls [EncodeAddress] on it. *)
Record BtcAddress := { EncodeAddress : string }.

(** [zpay32.Invoice] and [lnrpc.Invoice]. *)
Record Invoice_ := { PaymentHash : bytes }.
Inductive InvoiceState := Invoice_OPEN | Invoice_SETTLED | Invoice_CANCELED | Invoice_ACCEPTED.
Record LnrpcInvoice := { Invoice_State : InvoiceState }.

Definition InvoiceState_eqb (a b : InvoiceState) : bool :=
  match a, b with
  | Invoice_OPEN, Invoice_OPEN | Invoice_SETTLED, Invoice_SETTLED
  | Invoice_CANCELED, Invoice_CANCELED | Invoice_ACCEPTED, Invoice_ACCEPTED => true
  | _, _ => false
  end.

(** Requests and responses of the exchange API (package [boltz]). *)
Record BoltzCreateSwapRequest := {
  bFrom : Currency;
  bTo : Currency;
  bPairHash : string;
  bRefundPublicKey : bytes;
  bInvoice : string;
  bPreimageHash : bytes;
  bReferralId : string
}.

Record BoltzCreateSwapResponse := {
  bId : string;
  bAddress : string;
  bExpectedAmount : Z;
  bTimeoutBlockHeight : Z;
  bSwapTree : bytes;
  bClaimPublicKey : bytes;
  bBlindingKey : bytes;
  bBip21 : string
}.

Record BoltzCreateReverseSwapRequest := {
  brFrom : Currency;
  brTo : Currency;
  brPairHash : string;
  brInvoiceAmount : Z;
  brPreimageHash : bytes;
  brClaimPublicKey : bytes;
  brReferralId : string
}.

Record BoltzCreateReverseSwapResponse := {
  brId : string;
  brInvoice : string;
  brSwapTree : bytes;
  brRefundPublicKey : bytes;
  brLockupAddress : string;
  brTimeoutBlockHeight : Z;
  brOnchainAmount : Z;
  brBlindingKey : bytes
}.

(* ===================================================================== *)
(** * Effects: the world, the events, the monad *)
(* ===================================================================== *)

Inductive Level := Silly | Debug | Info | Warning | ErrorLevel.

(** What a run leaves behind outside its return value, beyond the database
    tables: log lines, and calls to collaborators with the arguments (and,
    for the verifications, the outcome) that the caller saw.  An event
    stands for a call that creates or changes something at the collaborator
    (a swap at the exchange, a broadcast, an invoice or an address of the
    node, a payment, a row of the database, a signal to another goroutine)
    or whose outcome a statement speaks about.  A query (the pairs and the
    status of a swap at the exchange, block heights, fee estimates, the
    wallets, the invoices of the node) leaves no event: its answer is the
    field of the collaborator's record. *)
Inductive Event :=
| Log (level : Level) (msg : string)
| TreeCheck (isReverse : bool) (timeoutBlockHeight : Z) (preimageHash : bytes)
            (outcome : option error)
| TreeCheckAddress (address : string) (outcome : option error)
| DbCreateSwap (swap : Swap)
| DbCreateReverseSwap (reverseSwap : ReverseSwap)
| DbUpdateSwapStatus (id : string) (status : SwapUpdateEvent)
| DbUpdateReverseSwapState (id : string) (state : SwapState) (err : string)
| ExchangeCreateSwap (request : BoltzCreateSwapRequest)
| ExchangeCreateReverseSwap (request : BoltzCreateReverseSwapRequest)
| ExchangeBroadcast (transactionHex : string)
| LightningCreateInvoice (amount : Z) (memo : string)
| LightningNewAddress
| WalletSend (address : string) (amount : Z) (fee : float)
| OnchainAddWallet (name : string)
| SwapperLoadConfig
| NurseryInit
| NurseryRegisterSwap (id : string)
| NurseryRegisterReverseSwap (id : string)
| NurseryPayReverseSwap (id : string)
| RefundConstructed (lockupVout : Z) (destination : BtcAddress) (refundTransaction : MsgTx)
| ListenerStop (id : string).

(** The mutable state the embedded functions share: the two swap tables of
    the database, keyed by swap id, and [routedBoltzServer.locked]. *)
Record World := {
  swaps : gmap string Swap;
  reverseSwaps : gmap string ReverseSwap;
  locked : bool
}.

Definition set_swaps (f : gmap string Swap -> gmap string Swap) (w : World) : World :=
  {| swaps := f (swaps w); reverseSwaps := reverseSwaps w; locked := locked w |}.
Definition set_reverseSwaps (f : gmap string ReverseSwap -> gmap string ReverseSwap)
    (w : World) : World :=
  {| swaps := swaps w; reverseSwaps := f (reverseSwaps w); locked := locked w |}.
Definition set_locked (b : bool) (w : World) : World :=
  {| swaps := swaps w; reverseSwaps := reverseSwaps w; locked := b |}.

(** A computation returns a value or an error, the new world and the events
    it produced. *)
Definition M (A : Type) : Type := World -> res A * World * list Event.

Definition ret {A} (a : A) : M A := fun w => (Ok a, w, []).
Definition fail {A} (e : error) : M A := fun w => (Error e, w, []).
Definition emit (ev : Event) : M unit := fun w => (Ok tt, w, [ev]).
Definition lift {A} (r : res A) : M A := fun w => (r, w, []).
Definition get_world : M World := fun w => (Ok w, w, []).

(** The three components of a run. *)
Definition result_of {A} (run : res A * World * list Event) : res A := fst (fst run).
Definition world_of {A} (run : res A * World * list Event) : World := snd (fst run).
Definition events_of {A} (run : res A * World * list Event) : list Event := snd run.

(** [x, err := m; if err != nil { h(err) } ; k x]: run [m]; on an error the
    whole computation is what the handler [h] does (log and return, or
    return the error), otherwise go on with [k]. *)
Definition on_error {A B} (m : M A) (h : error -> M B) (k : A -> M B) : M B :=
  fun w =>
    match m w with
    | (Ok a, w1, t1) => let '(r, w2, t2) := k a w1 in (r, w2, t1 ++ t2)
    | (Error e, w1, t1) => let '(r, w2, t2) := h e w1 in (r, w2, t1 ++ t2)
    end.

(** [if err != nil { return err }]: the error is handed up as it is. *)
Definition bind {A B} (m : M A) (k : A -> M B) : M B := on_error m fail k.

Declare Scope go_scope.
Delimit Scope go_scope with go.
Notation "x <- m ;; k" := (bind m (fun x => k))
  (at level 100, m at next level, right associativity) : go_scope.
Notation "m ;; k" := (bind m (fun _ => k))
  (at level 100, right associativity) : go_scope.
Notation "x <- m 'or' h ;; k" := (on_error m h (fun x => k))
  (at level 100, m at next level, h at next level, right associativity) : go_scope.
Open Scope go_scope.

(** Package [logger]. *)
Definition logger_Silly (msg : string) : M unit := emit (Log Silly msg).
Definition logger_Debug (msg : string) : M unit := emit (Log Debug msg).
Definition logger_Info (msg : string) : M unit := emit (Log Info msg).
Definition logger_Warning (msg : string) : M unit := emit (Log Warning msg).
Definition logger_Error (msg : string) : M unit := emit (Log ErrorLevel msg).

(** Modelled from the spec: package [database] is not among the sources.
    Section 6.5 of the spec gives the tables [swaps] and [reverseSwaps],
    "each swap row keyed by id"; whether the storage accepts a write is up
    to [write_fails].  A refused write leaves the table as it was.
    [UpdateSwapStatus] takes the swap by pointer and [RegisterSwap] reads
    [swap.Status] afterwards, so the in-memory swap carries the new status. *)
Record Database := {
  write_fails : Event -> option error
}.

(** Assignments to one field of a swap ([swap.Status = status] and the like). *)
Definition with_Status (swap : Swap) (v : SwapUpdateEvent) : Swap :=
  {| Id := Id swap; SwapPair := SwapPair swap; State := State swap; SwapError
  := SwapError swap; Status := v; PrivateKey_ := PrivateKey_ swap; Preimage :=
  Preimage swap; Invoice := Invoice swap; Address := Address swap;
  ExpectedAmount := ExpectedAmount swap; TimoutBlockHeight :=
  TimoutBlockHeight swap; SwapTree_ := SwapTree_ swap; RedeemScript :=
  RedeemScript swap; LockupTransactionId := LockupTransactionId swap;
  RefundTransactionId := RefundTransactionId swap; RefundAddress :=
  RefundAddress swap; IsAuto := IsAuto swap; ServiceFeePercent :=
  ServiceFeePercent swap; Wallet := Wallet swap; ClaimPubKey := ClaimPubKey
  swap; BlindingKey := BlindingKey swap |}.

Definition with_Wallet (swap : Swap) (v : string) : Swap :=
  {| Id := Id swap; SwapPair := SwapPair swap; State := State swap; SwapError
  := SwapError swap; Status := Status swap; PrivateKey_ := PrivateKey_ swap;
  Preimage := Preimage swap; Invoice := Invoice swap; Address := Address swap;
  ExpectedAmount := ExpectedAmount swap; TimoutBlockHeight :=
  TimoutBlockHeight swap; SwapTree_ := SwapTree_ swap; RedeemScript :=
  RedeemScript swap; LockupTransactionId := LockupTransactionId swap;
  RefundTransactionId := RefundTransactionId swap; RefundAddress :=
  RefundAddress swap; IsAuto := IsAuto swap; ServiceFeePercent :=
  ServiceFeePercent swap; Wallet := v; ClaimPubKey := ClaimPubKey swap;
  BlindingKey := BlindingKey swap |}.

Definition with_ClaimPubKey (swap : Swap) (v : option PublicKey) : Swap :=
  {| Id := Id swap; SwapPair := SwapPair swap; State := State swap; SwapError
  := SwapError swap; Status := Status swap; PrivateKey_ := PrivateKey_ swap;
  Preimage := Preimage swap; Invoice := Invoice swap; Address := Address swap;
  ExpectedAmount := ExpectedAmount swap; TimoutBlockHeight :=
  TimoutBlockHeight swap; SwapTree_ := SwapTree_ swap; RedeemScript :=
  RedeemScript swap; LockupTransactionId := LockupTransactionId swap;
  RefundTransactionId := RefundTransactionId swap; RefundAddress :=
  RefundAddress swap; IsAuto := IsAuto swap; ServiceFeePercent :=
  ServiceFeePercent swap; Wallet := Wallet swap; ClaimPubKey := v; BlindingKey
  := BlindingKey swap |}.

Definition with_BlindingKey (swap : Swap) (v : option PrivateKey) : Swap :=
  {| Id := Id swap; SwapPair := SwapPair swap; State := State swap; SwapError
  := SwapError swap; Status := Status swap; PrivateKey_ := PrivateKey_ swap;
  Preimage := Preimage swap; Invoice := Invoice swap; Address := Address swap;
  ExpectedAmount := ExpectedAmount swap; TimoutBlockHeight :=
  TimoutBlockHeight swap; SwapTree_ := SwapTree_ swap; RedeemScript :=
  RedeemScript swap; LockupTransactionId := LockupTransactionId swap;
  RefundTransactionId := RefundTransactionId swap; RefundAddress :=
  RefundAddress swap; IsAuto := IsAuto swap; ServiceFeePercent :=
  ServiceFeePercent swap; Wallet := Wallet swap; ClaimPubKey := ClaimPubKey
  swap; BlindingKey := v |}.

Definition with_SwapTree (swap : Swap) (v : SwapTree) : Swap :=
  {| Id := Id swap; SwapPair := SwapPair swap; State := State swap; SwapError
  := SwapError swap; Status := Status swap; PrivateKey_ := PrivateKey_ swap;
  Preimage := Preimage swap; Invoice := Invoice swap; Address := Address swap;
  ExpectedAmount := ExpectedAmount swap; TimoutBlockHeight :=
  TimoutBlockHeight swap; SwapTree_ := v; RedeemScript := RedeemScript swap;
  LockupTransactionId := LockupTransactionId swap; RefundTransactionId :=
  RefundTransactionId swap; RefundAddress := RefundAddress swap; IsAuto :=
  IsAuto swap; ServiceFeePercent := ServiceFeePercent swap; Wallet := Wallet
  swap; ClaimPubKey := ClaimPubKey swap; BlindingKey := BlindingKey swap |}.

Definition with_rChanIds (r : ReverseSwap) (v : list ChanId) : ReverseSwap :=
  {| rId := rId r; rIsAuto := rIsAuto r; rPair := rPair r; rState := rState r;
  rError := rError r; rStatus := rStatus r; rAcceptZeroConf := rAcceptZeroConf
  r; rPrivateKey := rPrivateKey r; rSwapTree := rSwapTree r; rRefundPubKey :=
  rRefundPubKey r; rPreimage := rPreimage r; rInvoice := rInvoice r;
  rClaimAddress := rClaimAddress r; rOnchainAmount := rOnchainAmount r;
  rTimeoutBlockHeight := rTimeoutBlockHeight r; rLockupTransactionId :=
  rLockupTransactionId r; rClaimTransactionId := rClaimTransactionId r;
  rServiceFeePercent := rServiceFeePercent r; rExternalPay := rExternalPay r;
  rChanIds := v; rBlindingKey := rBlindingKey r |}.

Definition with_rBlindingKey (r : ReverseSwap) (v : option PrivateKey) : ReverseSwap :=
  {| rId := rId r; rIsAuto := rIsAuto r; rPair := rPair r; rState := rState r;
  rError := rError r; rStatus := rStatus r; rAcceptZeroConf := rAcceptZeroConf
  r; rPrivateKey := rPrivateKey r; rSwapTree := rSwapTree r; rRefundPubKey :=
  rRefundPubKey r; rPreimage := rPreimage r; rInvoice := rInvoice r;
  rClaimAddress := rClaimAddress r; rOnchainAmount := rOnchainAmount r;
  rTimeoutBlockHeight := rTimeoutBlockHeight r; rLockupTransactionId :=
  rLockupTransactionId r; rClaimTransactionId := rClaimTransactionId r;
  rServiceFeePercent := rServiceFeePercent r; rExternalPay := rExternalPay r;
  rChanIds := rChanIds r; rBlindingKey := v |}.

Definition with_rSwapTree (r : ReverseSwap) (v : SwapTree) : ReverseSwap :=
  {| rId := rId r; rIsAuto := rIsAuto r; rPair := rPair r; rState := rState r;
  rError := rError r; rStatus := rStatus r; rAcceptZeroConf := rAcceptZeroConf
  r; rPrivateKey := rPrivateKey r; rSwapTree := v; rRefundPubKey :=
  rRefundPubKey r; rPreimage := rPreimage r; rInvoice := rInvoice r;
  rClaimAddress := rClaimAddress r; rOnchainAmount := rOnchainAmount r;
  rTimeoutBlockHeight := rTimeoutBlockHeight r; rLockupTransactionId :=
  rLockupTransactionId r; rClaimTransactionId := rClaimTransactionId r;
  rServiceFeePercent := rServiceFeePercent r; rExternalPay := rExternalPay r;
  rChanIds := rChanIds r; rBlindingKey := rBlindingKey r |}.

Definition with_rState (r : ReverseSwap) (state : SwapState) (err : string) : ReverseSwap :=
  {| rId := rId r; rIsAuto := rIsAuto r; rPair := rPair r; rState := state;
     rError := err; rStatus := rStatus r; rAcceptZeroConf := rAcceptZeroConf r;
     rPrivateKey := rPrivateKey r; rSwapTree := rSwapTree r;
     rRefundPubKey := rRefundPubKey r; rPreimage := rPreimage r;
     rInvoice := rInvoice r; rClaimAddress := rClaimAddress r;
     rOnchainAmount := rOnchainAmount r;
     rTimeoutBlockHeight := rTimeoutBlockHeight r;
     rLockupTransactionId := rLockupTransactionId r;
     rClaimTransactionId := rClaimTransactionId r;
     rServiceFeePercent := rServiceFeePercent r; rExternalPay := rExternalPay r;
     rChanIds := rChanIds r; rBlindingKey := rBlindingKey r |}.

(** One write: the event is recorded, then the storage either refuses it or
    applies [apply] to the world. *)
Definition db_write (database : Database) (ev : Event) (apply : World -> World) : M unit :=
  fun w =>
    match write_fails database ev with
    | Some e => (Error e, w, [ev])
    | None => (Ok tt, apply w, [ev])
    end.

Definition database_CreateSwap (database : Database) (swap : Swap) : M unit :=
  db_write database (DbCreateSwap swap) (set_swaps (insert (Id swap) swap)).

Definition database_CreateReverseSwap (database : Database) (r : ReverseSwap) : M unit :=
  db_write database (DbCreateReverseSwap r) (set_reverseSwaps (insert (rId r) r)).

Definition database_UpdateSwapStatus (database : Database) (swap : Swap)
    (status : SwapUpdateEvent) : M (Swap * option error) :=
  fun w =>
    let ev := DbUpdateSwapStatus (Id swap) status in
    let swap' := with_Status swap status in
    match write_fails database ev with
    | Some e => (Ok (swap', Some e), w, [ev])
    | None =>
        (Ok (swap', None),
         set_swaps (alter (fun row => with_Status row status) (Id swap)) w, [ev])
    end.

Definition database_UpdateReverseSwapState (database : Database) (r : ReverseSwap)
    (state : SwapState) (err : string) : M unit :=
  db_write database (DbUpdateReverseSwapState (rId r) state err)
    (set_reverseSwaps (alter (fun row => with_rState row state err) (rId r))).

(* ===================================================================== *)
(** * Third-party libraries *)
(* ===================================================================== *)

(** Functions of btcd, btcutil, lnd's zpay32, the Go standard library and
    package [boltz] that the embedded code calls.  They are not part of the
    sources; the code is embedded for whatever they compute. *)
Record Libs := {
  btcutil_DecodeAddress : string -> string -> res BtcAddress;
  hex_DecodeString : string -> res bytes;
  btcutil_NewTxFromBytes : bytes -> res Tx;
  txscript_ExtractPkScriptAddrs : bytes -> string -> res (list BtcAddress);
  txscript_PayToAddrScript : BtcAddress -> bytes;
  MsgTx_TxHash : MsgTx -> string;
  boltz_SerializeTransaction : MsgTx -> res string;
  (** fee estimation and script-path signing of a refund (spec 4.B, steps 3
      and 4): output value, witness and input sequence, or an error *)
  refund_value_witness_sequence :
    Tx -> Z -> PrivateKey -> bytes -> BtcAddress -> Z -> res (Z * list bytes * Z);
  zpay32_Decode : string -> string -> res Invoice_;
  sha256_Sum256 : bytes -> bytes;
  (** [crypto/rand]: an error, or a source of random bytes *)
  rand_Reader : res (nat -> byte);
  btcec_NewPrivateKey : res PrivateKey;
  btcec_PubKey : PrivateKey -> PublicKey;
  btcec_SerializeCompressed : PublicKey -> bytes;
  btcec_ParsePubKey : bytes -> res PublicKey;
  btcec_PrivKeyFromBytes : bytes -> PrivateKey;
  lightning_NewChanIdFromString : string -> res ChanId;
  (** package [boltz]: swap trees and addresses (spec 4.A) *)
  SerializedTree_Deserialize : bytes -> SwapTree;
  Swap_InitTree : Swap -> res SwapTree;
  ReverseSwap_InitTree : ReverseSwap -> res SwapTree;
  SwapTree_Check : SwapTree -> bool -> Z -> bytes -> option error;
  SwapTree_CheckAddress : SwapTree -> string -> string -> option PublicKey -> option error;
  boltz_ValidateAddress : string -> string -> Currency -> option error;
  boltz_BlocksToHours : Z -> Currency -> float;
  (** package [utils], the serializers and [fmt] *)
  utils_ParsePair : option Pair -> Pair;
  utils_GetSwapMemo : string -> string;
  utils_Percentage : float -> float;
  float32_of_float64 : float -> float;
  fmt_float : float -> string;
  Swap_Serialize_json : Swap -> string;
  ReverseSwap_Serialize_json : ReverseSwap -> string
}.

(** Modelled from the spec: [boltz.ConstructRefundTransaction] belongs to
    package [boltz], which is not among the sources.  Spec 4.B, Construct:
    "single-input, single-output transaction; set nLockTime =
    timeoutBlockHeight for refund"; the input spends the lockup output index
    that was located (step 1) and the output pays the destination address.
    The arguments are those of the call in [refundSwap]. *)
Definition ConstructRefundTransaction (libs : Libs) (lockupTransaction : Tx)
    (lockupVout : Z) (privateKey : PrivateKey) (redeemScript : bytes)
    (address : BtcAddress) (timeoutBlockHeight : Z) : res MsgTx :=
  match refund_value_witness_sequence libs lockupTransaction lockupVout privateKey
          redeemScript address timeoutBlockHeight with
  | Error e => Error e
  | Ok (value, witness, sequence) =>
      Ok {| TxIn_ := [ {| PreviousOutPoint :=
                            {| OutPoint_Hash := Tx_Hash lockupTransaction;
                               OutPoint_Index := lockupVout |};
                          Witness := witness;
                          Sequence := sequence |} ];
            TxOut_ := [ {| Value := value;
                           PkScript := txscript_PayToAddrScript libs address |} ];
            LockTime := timeoutBlockHeight |}
  end.

(* ===================================================================== *)
(** * Package [nursery] *)
(* ===================================================================== *)

Module nursery.

(** The LND client and the exchange client as the nursery uses them. *)
Record LND := {
  lnd_NewAddress : res string;
  lnd_LookupInvoice : bytes -> res LnrpcInvoice
}.

Record GetSwapTransactionResponse := { TransactionHex : string }.

Record Boltz := {
  boltz_GetSwapTransaction : string -> res GetSwapTransactionResponse;
  boltz_BroadcastTransaction : string -> res string
}.

Record Nursery := {
  libs : Libs;
  chainParams : string;
  lnd : LND;
  boltz : Boltz;
  database : Database
}.

Definition NewAddress (l : LND) : M string :=
  emit LightningNewAddress ;; lift (lnd_NewAddress l).

Definition BroadcastTransaction (b : Boltz) (transactionHex : string) : M string :=
  emit (ExchangeBroadcast transactionHex) ;; lift (boltz_BroadcastTransaction b transactionHex).

(** [findLockupVout]: the [for vout, output := range outputs] loop, with
    [vout] the running index. *)
Fixpoint findLockupVout_range (nursery : Nursery) (addressToFind : string)
    (vout : nat) (outputs : list TxOut) : res Z :=
  match outputs with
  | [] => Error "could not find lockup vout"
  | output :: rest =>
      match txscript_ExtractPkScriptAddrs (libs nursery) (PkScript output)
              (chainParams nursery) with
      | Error _ =>
          (* Just ignore outputs we can't decode *)
          findLockupVout_range nursery addressToFind (S vout) rest
      | Ok outputAddresses =>
          if existsb (fun outputAddress =>
                        String.eqb (EncodeAddress outputAddress) addressToFind)
               outputAddresses
          then Ok (uint32 (Z.of_nat vout))
          else findLockupVout_range nursery addressToFind (S vout) rest
      end
  end.

Definition findLockupVout (nursery : Nursery) (addressToFind : string)
    (outputs : list TxOut) : res Z :=
  findLockupVout_range nursery addressToFind 0 outputs.

Definition handleSwapStatus (nursery : Nursery) (swap : Swap) (status : string) : M Swap :=
  let parsedStatus := ParseEvent status in
  let update : M Swap :=
    r <- database_UpdateSwapStatus (database nursery) swap parsedStatus ;;
    match snd r with
    | Some err =>
        logger_Error ("Could not update status of Swap " +:+ Id swap +:+ ": " +:+ err)
    | None => ret tt
    end ;;
    ret (fst r) in
  match parsedStatus with
  | TransactionClaimed =>
      (* Verify that the invoice was actually paid *)
      decodedInvoice <- lift (zpay32_Decode (libs nursery) (Invoice swap) (chainParams nursery))
        or (fun err => logger_Warning ("Could not decode invoice: " +:+ err) ;; ret swap) ;;
      invoiceInfo <- lift (lnd_LookupInvoice (lnd nursery) (PaymentHash decodedInvoice))
        or (fun err =>
              logger_Warning ("Could not get invoice information from LND: " +:+ err) ;;
              ret swap) ;;
      if negb (InvoiceState_eqb (Invoice_State invoiceInfo) Invoice_SETTLED) then
        logger_Warning ("Swap " +:+ Id swap +:+ " was not actually settled. Refunding at block "
                        +:+ strconv_Itoa (TimoutBlockHeight swap)) ;;
        ret swap
      else
        logger_Info ("Swap " +:+ Id swap +:+ " succeeded") ;;
        update
  | _ => update
  end.

Definition refundSwap (nursery : Nursery) (swap : Swap) : M unit :=
  addressString <- NewAddress (lnd nursery)
    or (fun err => logger_Error ("Could not get new address from LND: " +:+ err)) ;;
  address <- lift (btcutil_DecodeAddress (libs nursery) addressString (chainParams nursery))
    or (fun err => logger_Error ("Could not decode destination address from LND: " +:+ err)) ;;
  logger_Info ("Refunding Swap " +:+ Id swap +:+ " to: " +:+ addressString) ;;
  swapTransactionResponse <- lift (boltz_GetSwapTransaction (boltz nursery) (Id swap))
    or (fun err => logger_Error ("Could not get lockup transaction from Boltz: " +:+ err)) ;;
  lockupTransactionRaw <-
    lift (hex_DecodeString (libs nursery) (TransactionHex swapTransactionResponse))
    or (fun err => logger_Error ("Could not decode lockup transaction from Boltz: " +:+ err)) ;;
  lockupTransaction <- lift (btcutil_NewTxFromBytes (libs nursery) lockupTransactionRaw)
    or (fun err => logger_Error ("Could not parse lockup transaction from Boltz: " +:+ err)) ;;
  logger_Info ("Got lockup transaction of Swap " +:+ Id swap +:+ " from Boltz: "
               +:+ Tx_Hash lockupTransaction) ;;
  lockupVout <- lift (findLockupVout nursery (Address swap)
                        (TxOut_ (Tx_MsgTx lockupTransaction)))
    or (fun _ => logger_Error ("Could not find lockup vout of Swap " +:+ Id swap)) ;;
  refundTransaction <-
    lift (ConstructRefundTransaction (libs nursery) lockupTransaction lockupVout
            (PrivateKey_ swap) (RedeemScript swap) address
            (uint32 (TimoutBlockHeight swap)))
    or (fun err => logger_Error ("Could not construct refund transaction: " +:+ err)) ;;
  (* the transaction that was built, with the index and destination it
     was built from, is put on record here *)
  emit (RefundConstructed lockupVout address refundTransaction) ;;
  logger_Info ("Constructed refund transaction for Swap " +:+ Id swap +:+ ": "
               +:+ MsgTx_TxHash (libs nursery) refundTransaction) ;;
  refundTransactionHex <- lift (boltz_SerializeTransaction (libs nursery) refundTransaction)
    or (fun err => logger_Error ("Could not serialize refund transaction: " +:+ err)) ;;
  _ <- BroadcastTransaction (boltz nursery) refundTransactionHex
    or (fun err => logger_Error ("Could not broadcast refund transaction: " +:+ err)) ;;
  logger_Info ("Broadcast refund transaction of Swap " +:+ Id swap +:+ " with Boltz API") ;;
  _ <- handleSwapStatus nursery swap (SwapUpdateEvent_String SwapRefunded) ;;
  ret tt.

(** ** Recovery, the swap listeners and the block listener *)

#[global] Instance SwapUpdateEvent_eq_dec : EqDecision SwapUpdateEvent.
Proof. solve_decision. Defined.

(** Further calls of the nursery on its exchange client and its database,
    the JSON decoder of a status event, and [boltz.CompletedStatus]. *)
Record Recovery := {
  boltz_SwapStatus : string -> res string;
  database_QueryPendingSwaps : res (list Swap);
  database_QueryRefundableSwaps : Z -> res (list Swap);
  json_Unmarshal_status : string -> res string;
  CompletedStatus : list string
}.

(** [RegisterSwap]: the log line, and the goroutine it starts, whose body
    is [listen] below. *)
Definition RegisterSwap (swap : Swap) : M unit :=
  logger_Info ("Listening to events of Swap " +:+ Id swap) ;;
  emit (NurseryRegisterSwap (Id swap)).

(** What the [select] of a listener receives: an event of the status
    stream, or the signal on its stop channel. *)
Inductive ListenerStep :=
| StreamEvent (data : string)
| StopListening.

Inductive ListenerOutcome :=
| Stopped      (* the goroutine has returned *)
| Listening.   (* the goroutine waits in its [select] *)

(** The [for { select { ... } }] of the goroutine of [RegisterSwap]. *)
Fixpoint listen (nursery : Nursery) (r : Recovery) (swap : Swap) (steps : list ListenerStep)
    : M (ListenerOutcome * Swap) :=
  match steps with
  | [] => ret (Listening, swap)
  | StopListening :: _ =>
      logger_Info ("Stopping event listener of Swap " +:+ Id swap) ;;
      ret (Stopped, swap)
  | StreamEvent data :: rest =>
      match json_Unmarshal_status r data with
      | Ok status =>
          logger_Info ("Swap " +:+ Id swap +:+ " status update: " +:+ status) ;;
          swap <- handleSwapStatus nursery swap status ;;
          (* The event listening can stop after the Swap has succeeded *)
          if bool_decide (Status swap = TransactionClaimed) then ret (Stopped, swap)
          else listen nursery r swap rest
      | Error err =>
          logger_Error ("Could not parse update event of Swap " +:+ Id swap +:+ ": " +:+ err) ;;
          listen nursery r swap rest
      end
  end.



(** How a pass of the block listener ends: it has gone through all the
    swaps, or it waits for ever in the send on the stop channel of the
    listener of the swap [id]. *)
Inductive PassOutcome :=
| PassDone (eventListeners : gmap string nat)
| PassBlocked (id : string) (eventListeners : gmap string nat).

(** The [for _, swapToRefund := range swapsToRefund] loop of the block
    listener.  [eventListeners] is the package-level map from swap ids to
    the stop channels of their listeners; a channel is its handle.  The
    channels are unbuffered, so the send [stopListening <- true] passes
    only when the goroutine of the listener takes the signal in its
    [select] ([StopListening] above); [receiving] tells of a channel
    whether its listener still does.  A listener that has returned (it
    does after [transaction.claimed], and leaves its entry in the map)
    never takes the signal, and the send blocks for ever. *)
Fixpoint refund_range (nursery : Nursery) (receiving : nat -> bool)
    (eventListeners : gmap string nat) (swapsToRefund : list Swap) : M PassOutcome :=
  match swapsToRefund with
  | [] => ret (PassDone eventListeners)
  | swapToRefund :: rest =>
      match eventListeners !! Id swapToRefund with
      | Some stopListening =>
          if receiving stopListening then
            emit (ListenerStop (Id swapToRefund)) ;;
            let eventListeners := delete (Id swapToRefund) eventListeners in
            refundSwap nursery swapToRefund ;;
            refund_range nursery receiving eventListeners rest
          else ret (PassBlocked (Id swapToRefund) eventListeners)
      | None =>
          refundSwap nursery swapToRefund ;;
          refund_range nursery receiving eventListeners rest
      end
  end.

(** One pass of the [for] of [startBlockListener], for a block at
    [height] (a [uint32]). *)
Definition onBlock (nursery : Nursery) (r : Recovery) (receiving : nat -> bool)
    (eventListeners : gmap string nat) (height : Z) : M PassOutcome :=
  swapsToRefund <- lift (database_QueryRefundableSwaps r height)
    or (fun err =>
          logger_Error ("Could not query refundable Swaps: " +:+ err) ;;
          ret (PassDone eventListeners)) ;;
  if (0 <? length swapsToRefund)%nat then
    logger_Info ("Found " +:+ strconv_Itoa (Z.of_nat (length swapsToRefund))
                 +:+ " Swaps to refund at height " +:+ strconv_Itoa (uint64 height)) ;;
    refund_range nursery receiving eventListeners swapsToRefund
  else ret (PassDone eventListeners).

End nursery.

(* ===================================================================== *)
(** * Package [rpcserver] *)
(* ===================================================================== *)

#[global] Instance Currency_eq_dec : EqDecision Currency.
Proof. solve_decision. Defined.

#[global] Instance Currency_countable : Countable Currency.
Proof.
  refine (inj_countable'
            (fun c => match c with
                      | CurrencyBtc => 0 | CurrencyLiquid => 1 | CurrencyRootstock => 2
                      end)
            (fun n => match n with
                      | 0 => CurrencyBtc | 1 => CurrencyLiquid | _ => CurrencyRootstock
                      end) _).
  intros []; reflexivity.
Defined.

Module rpcserver.

Definition referralId : string := "boltz-client".

(** ** Messages *)

(** [boltzrpc.CreateSwapRequest]; optional protobuf fields are [option]s
    and the [Get...] accessors give the zero value for an absent field. *)
Record CreateSwapRequest := {
  Amount : Z;
  ReqPair : option Pair;
  SendFromInternal : bool;
  ReqRefundAddress : option string;
  ReqInvoice : option string;
  ReqWallet : option string
}.
Definition GetInvoice (r : CreateSwapRequest) : string := default "" (ReqInvoice r).
Definition GetRefundAddress (r : CreateSwapRequest) : string := default "" (ReqRefundAddress r).
Definition GetWallet (r : CreateSwapRequest) : string := default "" (ReqWallet r).

Record CreateSwapResponse := {
  RespId : string;
  RespAddress : string;
  RespExpectedAmount : Z;
  Bip21 : string;
  RespTimeoutBlockHeight : Z;
  TimeoutHours : float;
  TxId : string
}.

Record CreateReverseSwapRequest := {
  rqAmount : Z;
  rqAddress : string;
  rqAcceptZeroConf : bool;
  rqPair : option Pair;
  rqChanIds : list string;
  rqWallet : option string;
  rqReturnImmediately : option bool;
  rqExternalPay : option bool
}.

Record CreateReverseSwapResponse := {
  rsId : string;
  rsLockupAddress : string;
  rsRoutingFeeMilliSat : option Z;
  rsClaimTransactionId : option string;
  rsInvoice : option string
}.

(** [boltzrpc.SubmarinePair] / [boltzrpc.ReversePair]: hash and fee rate. *)
Record PairInfo := { Hash : string; FeesPercentage : float }.

(** ** Collaborators of the server *)

Record Boltz := {
  boltz_GetSubmarinePairs : res (gmap Currency (gmap Currency PairInfo));
  boltz_GetReversePairs : res (gmap Currency (gmap Currency PairInfo));
  boltz_CreateSwap : BoltzCreateSwapRequest -> res BoltzCreateSwapResponse;
  boltz_CreateReverseSwap : BoltzCreateReverseSwapRequest -> res BoltzCreateReverseSwapResponse;
  serializeSubmarinePair : Pair -> PairInfo -> PairInfo;
  serializeReversePair : Pair -> PairInfo -> PairInfo
}.

Record AddInvoiceResponse := { PaymentRequest : string; InvPaymentHash : bytes }.

(** [lightning.LightningNode]; the server holds [nil] in standalone mode. *)
Record LightningNode := {
  lightning_CreateInvoice : Z -> string -> res AddInvoiceResponse
}.

(** [onchain.Wallet] and [onchain.Onchain]. *)
Record OnchainWallet := {
  wallet_Name : string;
  wallet_NewAddress : res string;
  wallet_SendToAddress : string -> Z -> float -> res string
}.

Record Onchain := {
  onchain_GetWallet : string -> option Currency -> bool -> res OnchainWallet;
  onchain_GetBlockHeight : Currency -> res Z;
  onchain_EstimateFee : Currency -> Z -> res float
}.

(** One value received from [nursery.SwapUpdates]. *)
Record SwapUpdate := {
  upState : SwapState;
  upError : string;
  upClaimTransactionId : string;
  upRoutingFeeMsat : option Z
}.

(** The nursery as the server calls it.  [nursery_SwapUpdates] is the
    sequence of values the update channel delivers before it is closed. *)
Record Nursery := {
  nursery_Init : option error;
  nursery_RegisterSwap : Swap -> option error;
  nursery_RegisterReverseSwap : ReverseSwap -> option error;
  nursery_PayReverseSwap : ReverseSwap -> option error;
  nursery_SwapUpdates : string -> list SwapUpdate
}.

(** [wallet.Credentials], with what [unlock] needs of package [wallet]
    and of the autoswapper. *)
Record Credentials := { credName : string; Encrypted : bool }.

Record Wallets := {
  database_QueryWalletCredentials : res (list Credentials);
  Credentials_Decrypt : Credentials -> string -> res Credentials;
  wallet_Login : Credentials -> res OnchainWallet;
  swapper_LoadConfig : option error
}.

(** [routedBoltzServer]; its mutable field [locked] is in the [World]. *)
Record routedBoltzServer := {
  libs : Libs;
  network : string;
  onchain : Onchain;
  lightning : option LightningNode;
  boltz : Boltz;
  nursery : Nursery;
  database : Database;
  wallets : Wallets
}.

(** ** Helpers of [router.go] *)

(** [handleError] for a non-nil error: warn and give the error back. *)
Definition handleError (err : error) : M error :=
  logger_Warning ("RPC request failed: " +:+ err) ;;
  ret err.

(** [return nil, handleError(err)]. *)
Definition return_handleError {A} (err : error) : M A :=
  e <- handleError err ;;
  fail e.

(** A nil-pointer dereference; it ends the request. *)
Definition panic {A} : M A := fail "panic: nil pointer dereference".

Definition newKeys (l : Libs) : res (PrivateKey * PublicKey) :=
  match btcec_NewPrivateKey l with
  | Error err => Error err
  | Ok privateKey =>
      let publicKey := btcec_PubKey l privateKey in
      Ok (privateKey, publicKey)
  end.

(** [newPreimage]: [make([]byte, 32)] filled by [rand.Read], and its
    [sha256.Sum256]. *)
Definition newPreimage (l : Libs) : res (bytes * bytes) :=
  match rand_Reader l with
  | Error err => Error err
  | Ok random =>
      let preimage := List.map random (seq 0 32) in
      let preimageHash := sha256_Sum256 l preimage in
      Ok (preimage, preimageHash)
  end.

(** [%v] of a [boltz.Pair], a struct of two [Currency] strings. *)
Definition fmt_Pair (pair : Pair) : string :=
  "{" +:+ Currency_String (From pair) +:+ " " +:+ Currency_String (To pair) +:+ "}".

Definition findPair (pair : Pair) (nested : gmap Currency (gmap Currency PairInfo))
    : res PairInfo :=
  match nested !! From pair with
  | None => Error ("could not find pair from " +:+ fmt_Pair pair)
  | Some from =>
      match from !! To pair with
      | None => Error ("could not find pair to " +:+ fmt_Pair pair)
      | Some result => Ok result
      end
  end.

Definition GetSubmarinePair (server : routedBoltzServer) (request : option Pair) : M PairInfo :=
  pairsResponse <- lift (boltz_GetSubmarinePairs (boltz server)) or return_handleError ;;
  let pair := utils_ParsePair (libs server) request in
  submarinePair <- lift (findPair pair pairsResponse) or return_handleError ;;
  ret (serializeSubmarinePair (boltz server) pair submarinePair).

Definition GetReversePair (server : routedBoltzServer) (request : option Pair) : M PairInfo :=
  pairsResponse <- lift (boltz_GetReversePairs (boltz server)) ;;
  let pair := utils_ParsePair (libs server) request in
  reversePair <- lift (findPair pair pairsResponse) ;;
  ret (serializeReversePair (boltz server) pair reversePair).

(** Calls to collaborators that act outside the process leave an event. *)
Definition CreateInvoice (ln : LightningNode) (amount : Z) (memo : string)
    : M AddInvoiceResponse :=
  emit (LightningCreateInvoice amount memo) ;;
  lift (lightning_CreateInvoice ln amount memo).

Definition boltz_CreateSwap_call (b : Boltz) (request : BoltzCreateSwapRequest)
    : M BoltzCreateSwapResponse :=
  emit (ExchangeCreateSwap request) ;;
  lift (boltz_CreateSwap b request).

Definition boltz_CreateReverseSwap_call (b : Boltz) (request : BoltzCreateReverseSwapRequest)
    : M BoltzCreateReverseSwapResponse :=
  emit (ExchangeCreateReverseSwap request) ;;
  lift (boltz_CreateReverseSwap b request).

Definition Check (l : Libs) (tree : SwapTree) (isReverse : bool) (timeoutBlockHeight : Z)
    (preimageHash : bytes) : M unit :=
  let outcome := SwapTree_Check l tree isReverse timeoutBlockHeight preimageHash in
  emit (TreeCheck isReverse timeoutBlockHeight preimageHash outcome) ;;
  lift (of_error outcome).

Definition CheckAddress (l : Libs) (tree : SwapTree) (address network : string)
    (blindingPubKey : option PublicKey) : M unit :=
  let outcome := SwapTree_CheckAddress l tree address network blindingPubKey in
  emit (TreeCheckAddress address outcome) ;;
  lift (of_error outcome).

Definition SendToAddress (wallet : OnchainWallet) (address : string) (amount : Z)
    (fee : float) : M string :=
  emit (WalletSend address amount fee) ;;
  lift (wallet_SendToAddress wallet address amount fee).

Definition RegisterSwap (n : Nursery) (swap : Swap) : M unit :=
  emit (NurseryRegisterSwap (Id swap)) ;;
  lift (of_error (nursery_RegisterSwap n swap)).

Definition RegisterReverseSwap (n : Nursery) (r : ReverseSwap) : M unit :=
  emit (NurseryRegisterReverseSwap (rId r)) ;;
  lift (of_error (nursery_RegisterReverseSwap n r)).

Definition PayReverseSwap (n : Nursery) (r : ReverseSwap) : M unit :=
  emit (NurseryPayReverseSwap (rId r)) ;;
  lift (of_error (nursery_PayReverseSwap n r)).

(** [swap.BlindingPubKey()]: nil without a blinding key. *)
Definition BlindingPubKey (l : Libs) (swap : Swap) : option PublicKey :=
  btcec_PubKey l <$> BlindingKey swap.

(** ** [createSwap] *)

Definition with_bInvoice (r : BoltzCreateSwapRequest) (v : string) : BoltzCreateSwapRequest :=
  {| bFrom := bFrom r; bTo := bTo r; bPairHash := bPairHash r;
     bRefundPublicKey := bRefundPublicKey r; bInvoice := v;
     bPreimageHash := bPreimageHash r; bReferralId := bReferralId r |}.

Definition with_bPreimageHash (r : BoltzCreateSwapRequest) (v : bytes) : BoltzCreateSwapRequest :=
  {| bFrom := bFrom r; bTo := bTo r; bPairHash := bPairHash r;
     bRefundPublicKey := bRefundPublicKey r; bInvoice := bInvoice r;
     bPreimageHash := v; bReferralId := bReferralId r |}.

Definition with_TxId (r : CreateSwapResponse) (v : string) : CreateSwapResponse :=
  {| RespId := RespId r; RespAddress := RespAddress r;
     RespExpectedAmount := RespExpectedAmount r; Bip21 := Bip21 r;
     RespTimeoutBlockHeight := RespTimeoutBlockHeight r;
     TimeoutHours := TimeoutHours r; TxId := v |}.

(** Lines 313 to 343: the invoice or the preimage of the swap.  The result
    is [(preimage, preimageHash, createSwap)] as the three variables stand
    after the [if] chain. *)
Definition createSwap_preimage (server : routedBoltzServer) (request : CreateSwapRequest)
    (pair : Pair) (createSwap : BoltzCreateSwapRequest)
    : M (bytes * bytes * BoltzCreateSwapRequest) :=
  if negb (String.eqb (GetInvoice request) "") then
    invoice <- lift (zpay32_Decode (libs server) (GetInvoice request) (network server))
      or (fun err => return_handleError ("invalid invoice: " +:+ err)) ;;
    ret ([], PaymentHash invoice, with_bInvoice createSwap (GetInvoice request))
  else
    match lightning server with
    | None => return_handleError "invoice is required in standalone mode"
    | Some ln =>
        if negb (Amount request =? 0)%Z then
          invoice <- CreateInvoice ln (Amount request)
                       (utils_GetSwapMemo (libs server) (Currency_String (From pair)))
            or return_handleError ;;
          ret ([], InvPaymentHash invoice, with_bInvoice createSwap (PaymentRequest invoice))
        else
          if SendFromInternal request then
            return_handleError "cannot auto send if amount is 0"
          else
            p <- lift (newPreimage (libs server)) or return_handleError ;;
            let '(preimage, preimageHash) := p in
            logger_Info ("Creating Swap with preimage hash: "
                         +:+ hex_EncodeToString preimageHash) ;;
            ret (preimage, preimageHash, with_bPreimageHash createSwap preimageHash)
    end.

Definition createSwap (server : routedBoltzServer) (isAuto : bool)
    (request : CreateSwapRequest) : M CreateSwapResponse :=
  logger_Info ("Creating Swap for " +:+ strconv_Itoa (Amount request) +:+ " satoshis") ;;
  keys <- lift (newKeys (libs server)) or return_handleError ;;
  let '(privateKey, publicKey) := keys in
  let pair := utils_ParsePair (libs server) (ReqPair request) in
  submarinePair <- GetSubmarinePair server (ReqPair request) ;;
  let createSwap :=
    {| bFrom := From pair; bTo := To pair; bPairHash := Hash submarinePair;
       bRefundPublicKey := btcec_SerializeCompressed (libs server) publicKey;
       bInvoice := ""; bPreimageHash := []; bReferralId := referralId |} in
  p <- createSwap_preimage server request pair createSwap ;;
  let '(preimage, preimageHash, createSwap) := p in
  wallet <-
    match onchain_GetWallet (onchain server) (GetWallet request) (Some (From pair)) false with
    | Ok wallet => ret (Some wallet)
    | Error err => if SendFromInternal request then return_handleError err else ret None
    end ;;
  response <- boltz_CreateSwap_call (boltz server) createSwap
    or (fun err => return_handleError ("boltz error: " +:+ err)) ;;
  let swap :=
    {| Id := bId response; SwapPair := pair; State := SwapState_PENDING; SwapError := "";
       Status := SwapCreated; PrivateKey_ := privateKey; Preimage := preimage;
       Invoice := bInvoice createSwap; Address := bAddress response;
       ExpectedAmount := bExpectedAmount response;
       TimoutBlockHeight := bTimeoutBlockHeight response;
       SwapTree_ := SerializedTree_Deserialize (libs server) (bSwapTree response);
       RedeemScript := []; LockupTransactionId := ""; RefundTransactionId := "";
       RefundAddress := GetRefundAddress request; IsAuto := isAuto;
       ServiceFeePercent := utils_Percentage (libs server) (FeesPercentage submarinePair);
       Wallet := ""; ClaimPubKey := None; BlindingKey := None |} in
  swap <-
    (if SendFromInternal request then
       match wallet with
       | Some wallet => ret (with_Wallet swap (wallet_Name wallet))
       | None => panic
       end
     else ret swap) ;;
  claimPubKey <- lift (btcec_ParsePubKey (libs server) (bClaimPublicKey response))
    or return_handleError ;;
  let swap := with_ClaimPubKey swap (Some claimPubKey) in
  (* [err] is nil at the check inside this branch *)
  let swap :=
    if Currency_eqb (From pair) CurrencyLiquid then
      with_BlindingKey swap (Some (btcec_PrivKeyFromBytes (libs server) (bBlindingKey response)))
    else swap in
  tree <- lift (Swap_InitTree (libs server) swap) or return_handleError ;;
  let swap := with_SwapTree swap tree in
  _ <- Check (libs server) (SwapTree_ swap) false (TimoutBlockHeight swap) preimageHash
    or return_handleError ;;
  _ <- CheckAddress (libs server) (SwapTree_ swap) (bAddress response) (network server)
         (BlindingPubKey (libs server) swap)
    or return_handleError ;;
  logger_Info ("Verified redeem script and address of Swap " +:+ Id swap) ;;
  _ <- database_CreateSwap (database server) swap or return_handleError ;;
  blockHeight <- lift (onchain_GetBlockHeight (onchain server) (From pair))
    or return_handleError ;;
  let timeoutHours :=
    boltz_BlocksToHours (libs server)
      (uint32 (bTimeoutBlockHeight response - blockHeight)) (From pair) in
  let swapResponse :=
    {| RespId := Id swap; RespAddress := bAddress response;
       RespExpectedAmount := int64 (bExpectedAmount response);
       Bip21 := bBip21 response;
       RespTimeoutBlockHeight := bTimeoutBlockHeight response;
       TimeoutHours := float32_of_float64 (libs server) timeoutHours;
       TxId := "" |} in
  swapResponse <-
    (if SendFromInternal request then
       feeSatPerVbyte <- lift (onchain_EstimateFee (onchain server) (From pair) 2)
         or return_handleError ;;
       logger_Info ("Paying swap " +:+ Id swap +:+ " with fee of "
                    +:+ fmt_float (libs server) feeSatPerVbyte +:+ " sat/vbyte") ;;
       match wallet with
       | None => panic
       | Some wallet =>
           txId <- SendToAddress wallet (bAddress response) (bExpectedAmount response)
                     feeSatPerVbyte
             or return_handleError ;;
           ret (with_TxId swapResponse txId)
       end
     else ret swapResponse) ;;
  logger_Info ("Created new Swap " +:+ Id swap +:+ ": "
               +:+ Swap_Serialize_json (libs server) swap) ;;
  _ <- RegisterSwap (nursery server) swap or return_handleError ;;
  ret swapResponse.

(** ** [createReverseSwap] *)

(** The [for _, chanId := range request.ChanIds] loop: the ids parsed so
    far are appended to [reverseSwap.ChanIds]; the error is the one that
    [handleError] then receives. *)
Fixpoint parseChanIds (l : Libs) (chanIds : list string) (acc : list ChanId)
    : res (list ChanId) :=
  match chanIds with
  | [] => Ok acc
  | chanId :: rest =>
      match lightning_NewChanIdFromString l chanId with
      | Error err => Error ("invalid channel id: " +:+ err)
      | Ok parsed => parseChanIds l rest (acc ++ [parsed])
      end
  end.

Definition with_claim (r : CreateReverseSwapResponse) (claimTransactionId : string)
    (routingFee : option Z) : CreateReverseSwapResponse :=
  {| rsId := rsId r; rsLockupAddress := rsLockupAddress r;
     rsRoutingFeeMilliSat := routingFee;
     rsClaimTransactionId := Some claimTransactionId; rsInvoice := rsInvoice r |}.

Definition with_rsInvoice (r : CreateReverseSwapResponse) (invoice : string)
    : CreateReverseSwapResponse :=
  {| rsId := rsId r; rsLockupAddress := rsLockupAddress r;
     rsRoutingFeeMilliSat := rsRoutingFeeMilliSat r;
     rsClaimTransactionId := rsClaimTransactionId r; rsInvoice := Some invoice |}.

Definition SwapState_eqb (a b : SwapState) : bool :=
  match a, b with
  | SwapState_PENDING, SwapState_PENDING | SwapState_SUCCESSFUL, SwapState_SUCCESSFUL
  | SwapState_ERROR, SwapState_ERROR | SwapState_SERVER_ERROR, SwapState_SERVER_ERROR
  | SwapState_REFUNDED, SwapState_REFUNDED => true
  | _, _ => false
  end.

(** The [for update := range updates] loop at the end of
    [createReverseSwap]; the error is the one that [handleError] then
    receives. *)
Fixpoint awaitUpdates (updates : list SwapUpdate) (rpcResponse : CreateReverseSwapResponse)
    : res CreateReverseSwapResponse :=
  match updates with
  | [] => Ok rpcResponse
  | info :: rest =>
      let rpcResponse :=
        if SwapState_eqb (upState info) SwapState_SUCCESSFUL
        then with_claim rpcResponse (upClaimTransactionId info) (upRoutingFeeMsat info)
        else rpcResponse in
      if SwapState_eqb (upState info) SwapState_ERROR
         || SwapState_eqb (upState info) SwapState_SERVER_ERROR
      then Error ("reverse swap failed: " +:+ upError info)
      else awaitUpdates rest rpcResponse
  end.

Definition createReverseSwap (server : routedBoltzServer) (isAuto : bool)
    (request : CreateReverseSwapRequest) : M CreateReverseSwapResponse :=
  logger_Info ("Creating Reverse Swap for " +:+ strconv_Itoa (rqAmount request)
               +:+ " satoshis") ;;
  let externalPay := default false (rqExternalPay request) in
  externalPay <-
    match lightning server with
    | None =>
        match rqExternalPay request with
        | None => ret true
        | Some _ =>
            if negb externalPay then
              return_handleError
                "can not create reverse swap without external pay in standalone mode"
            else ret externalPay
        end
    | Some _ => ret externalPay
    end ;;
  let returnImmediately := default false (rqReturnImmediately request) in
  returnImmediately <-
    (if externalPay : bool then
       (* only error if it was explicitly set to false, implicitly set to
          true otherwise *)
       match rqReturnImmediately request with
       | Some false =>
           return_handleError "can not wait for swap transaction when using external pay"
       | _ => ret true
       end
     else ret returnImmediately) ;;
  let claimAddress := rqAddress request in
  let pair := utils_ParsePair (libs server) (rqPair request) in
  claimAddress <-
    (if negb (String.eqb claimAddress "") then
       match boltz_ValidateAddress (libs server) (network server) claimAddress (To pair) with
       | Some err =>
           return_handleError ("Invalid claim address " +:+ claimAddress +:+ ": " +:+ err)
       | None => ret claimAddress
       end
     else
       wallet <- lift (onchain_GetWallet (onchain server)
                         (default "" (rqWallet request)) (Some (To pair)) true)
         or return_handleError ;;
       claimAddress <- lift (wallet_NewAddress wallet) or return_handleError ;;
       logger_Info ("Got claim address from wallet " +:+ wallet_Name wallet +:+ ": "
                    +:+ claimAddress) ;;
       ret claimAddress) ;;
  p <- lift (newPreimage (libs server)) or return_handleError ;;
  let '(preimage, preimageHash) := p in
  logger_Info ("Generated preimage " +:+ hex_EncodeToString preimage) ;;
  keys <- lift (newKeys (libs server)) or return_handleError ;;
  let '(privateKey, publicKey) := keys in
  reversePair <- GetReversePair server (rqPair request) or return_handleError ;;
  response <- boltz_CreateReverseSwap_call (boltz server)
      {| brFrom := From pair; brTo := To pair; brPairHash := Hash reversePair;
         brInvoiceAmount := uint64 (rqAmount request); brPreimageHash := preimageHash;
         brClaimPublicKey := btcec_SerializeCompressed (libs server) publicKey;
         brReferralId := referralId |}
    or return_handleError ;;
  key <- lift (btcec_ParsePubKey (libs server) (brRefundPublicKey response))
    or return_handleError ;;
  let reverseSwap :=
    {| rId := brId response; rIsAuto := isAuto; rPair := pair;
       rState := SwapState_PENDING; rError := ""; rStatus := SwapCreated;
       rAcceptZeroConf := rqAcceptZeroConf request; rPrivateKey := privateKey;
       rSwapTree := SerializedTree_Deserialize (libs server) (brSwapTree response);
       rRefundPubKey := key; rPreimage := preimage; rInvoice := brInvoice response;
       rClaimAddress := claimAddress; rOnchainAmount := brOnchainAmount response;
       rTimeoutBlockHeight := brTimeoutBlockHeight response;
       rLockupTransactionId := ""; rClaimTransactionId := "";
       rServiceFeePercent := utils_Percentage (libs server) (FeesPercentage reversePair);
       rExternalPay := externalPay; rChanIds := []; rBlindingKey := None |} in
  chanIds <- lift (parseChanIds (libs server) (rqChanIds request) (rChanIds reverseSwap))
    or return_handleError ;;
  let reverseSwap := with_rChanIds reverseSwap chanIds in
  let blinding :=
    if Currency_eqb (To (rPair reverseSwap)) CurrencyLiquid then
      let blindingKey := btcec_PrivKeyFromBytes (libs server) (brBlindingKey response) in
      (with_rBlindingKey reverseSwap (Some blindingKey),
       Some (btcec_PubKey (libs server) blindingKey))
    else (reverseSwap, None) in
  let '(reverseSwap, blindingPubKey) := blinding in
  tree <- lift (ReverseSwap_InitTree (libs server) reverseSwap) or return_handleError ;;
  let reverseSwap := with_rSwapTree reverseSwap tree in
  _ <- Check (libs server) (rSwapTree reverseSwap) true (rTimeoutBlockHeight reverseSwap)
         preimageHash
    or return_handleError ;;
  _ <- CheckAddress (libs server) (rSwapTree reverseSwap) (brLockupAddress response)
         (network server) blindingPubKey
    or return_handleError ;;
  invoice <- lift (zpay32_Decode (libs server) (rInvoice reverseSwap) (network server))
    or return_handleError ;;
  if negb (bytes_Equal preimageHash (PaymentHash invoice)) then
    return_handleError "invalid invoice preimage hash"
  else
  logger_Info ("Verified redeem script and invoice of Reverse Swap " +:+ rId reverseSwap) ;;
  _ <- database_CreateReverseSwap (database server) reverseSwap or return_handleError ;;
  _ <- RegisterReverseSwap (nursery server) reverseSwap or return_handleError ;;
  logger_Info ("Created new Reverse Swap " +:+ rId reverseSwap +:+ ": "
               +:+ ReverseSwap_Serialize_json (libs server) reverseSwap) ;;
  let rpcResponse :=
    {| rsId := rId reverseSwap; rsLockupAddress := brLockupAddress response;
       rsRoutingFeeMilliSat := None; rsClaimTransactionId := None; rsInvoice := None |} in
  rpcResponse <-
    (if externalPay : bool then ret (with_rsInvoice rpcResponse (rInvoice reverseSwap))
     else
       _ <- PayReverseSwap (nursery server) reverseSwap
         or (fun err =>
               _ <- database_UpdateReverseSwapState (database server) reverseSwap
                      SwapState_ERROR err
                 or return_handleError ;;
               return_handleError err) ;;
       ret rpcResponse) ;;
  if negb returnImmediately && rqAcceptZeroConf request then
    rpcResponse <-
      lift (awaitUpdates (nursery_SwapUpdates (nursery server) (rId reverseSwap)) rpcResponse)
      or return_handleError ;;
    ret rpcResponse
  else ret rpcResponse.

(** ** Locking: [unlock], [requestAllowed] and the interceptors *)

(** The loop of [decryptWalletCredentials]; the error is the one of
    [creds.Decrypt]. *)
Fixpoint decrypt_range (ws : Wallets) (password : string) (credentials : list Credentials)
    (decrypted : list Credentials) : res (list Credentials) :=
  match credentials with
  | [] => Ok decrypted
  | creds :: rest =>
      if Encrypted creds then
        match Credentials_Decrypt ws creds password with
        | Error err => Error err
        | Ok creds => decrypt_range ws password rest (decrypted ++ [creds])
        end
      else decrypt_range ws password rest (decrypted ++ [creds])
  end.

Definition decryptWalletCredentials (server : routedBoltzServer) (password : string)
    : M (list Credentials) :=
  credentials <- lift (database_QueryWalletCredentials (wallets server)) ;;
  decrypted <- lift (decrypt_range (wallets server) password credentials [])
    or (fun err =>
          logger_Debug ("failed to decrypted wallet credentials: " +:+ err) ;;
          fail "rpc error: code = InvalidArgument desc = wrong password") ;;
  ret decrypted.

(** The login loop of [unlock]. *)
Fixpoint login_range (ws : Wallets) (credentials : list Credentials) : M unit :=
  match credentials with
  | [] => ret tt
  | creds :: rest =>
      wallet <- lift (wallet_Login ws creds)
        or (fun err => fail ("could not login to wallet: " +:+ err)) ;;
      emit (OnchainAddWallet (wallet_Name wallet)) ;;
      login_range ws rest
  end.

Definition unlock (server : routedBoltzServer) (password : string) : M unit :=
  w <- get_world ;;
  if negb (locked w) then fail "boltzd already unlocked!"
  else
  credentials <- decryptWalletCredentials server password ;;
  login_range (wallets server) credentials ;;
  emit SwapperLoadConfig ;;
  match swapper_LoadConfig (wallets server) with
  | Some err => logger_Warning ("Could not load autoswap config: " +:+ err)
  | None => ret tt
  end ;;
  emit NurseryInit ;;
  lift (of_error (nursery_Init (nursery server))) ;;
  (fun w => (Ok tt, set_locked false w, [])).

(** The [Unlock] RPC: [handleError(server.unlock(request.Password))]. *)
Definition Unlock (server : routedBoltzServer) (password : string) : M unit :=
  _ <- unlock server password or return_handleError ;;
  ret tt.

Definition quote : string := String (Ascii.ascii_of_nat 34) EmptyString.

Definition errLocked : error :=
  "boltzd is locked, use " +:+ quote +:+ "unlock" +:+ quote +:+ " to enable full RPC access".

Definition requestAllowed (server : routedBoltzServer) (fullMethod : string) : M unit :=
  w <- get_world ;;
  if locked w && negb (strings_Contains fullMethod "Unlock") then
    return_handleError errLocked
  else ret tt.

(** [grpc.UnaryServerInfo] / [grpc.StreamServerInfo]. *)
Record ServerInfo := { FullMethod : string }.

Definition UnaryServerInterceptor {Req Resp : Type} (server : routedBoltzServer)
    (req : Req) (info : ServerInfo) (handler : Req -> M Resp) : M Resp :=
  requestAllowed server (FullMethod info) ;;
  handler req.

Definition StreamServerInterceptor {Srv Stream : Type} (server : routedBoltzServer)
    (srv : Srv) (ss : Stream) (info : ServerInfo) (handler : Srv -> Stream -> M unit)
    : M unit :=
  requestAllowed server (FullMethod info) ;;
  handler srv ss.

(** ** [Deposit] *)

Record DepositResponse := {
  depId : string;
  depAddress : string;
  depTimeoutBlockHeight : Z
}.

Definition Deposit (server : routedBoltzServer) : M DepositResponse :=
  response <- createSwap server false
      {| Amount := 0; ReqPair := Some {| From := CurrencyBtc; To := CurrencyBtc |};
         SendFromInternal := false; ReqRefundAddress := None; ReqInvoice := None;
         ReqWallet := None |}
    or return_handleError ;;
  ret {| depId := RespId response; depAddress := RespAddress response;
         depTimeoutBlockHeight := RespTimeoutBlockHeight response |}.

(** ** Wallet passwords and names *)

(** [VerifyWalletPassword]: [Correct: err == nil], and never an error. *)
Definition VerifyWalletPassword (server : routedBoltzServer) (password : string) : M bool :=
  fun w =>
    let '(r, w1, t) := decryptWalletCredentials server password w in
    (Ok (match r with Ok _ => true | Error _ => false end), w1, t).

(** The character class [a-zA-Z\d] of the pattern in [checkName]. *)
Definition is_letter_or_digit (c : ascii) : bool :=
  let n := nat_of_ascii c in
  ((97 <=? n) && (n <=? 122) || (65 <=? n) && (n <=? 90) || (48 <=? n) && (n <=? 57))%nat.

(** [regexp.MatchString("[^a-zA-Z\\d]", name)]: the pattern is valid, so
    the error is nil, and it matches when some character of [name] is
    outside the class.  A character outside ASCII is encoded in bytes from
    128 upwards, none of which is in the class. *)
Fixpoint regexp_MatchString_other (name : string) : bool :=
  match name with
  | EmptyString => false
  | String c rest => negb (is_letter_or_digit c) || regexp_MatchString_other rest
  end.

Definition checkName (name : string) : option error :=
  if regexp_MatchString_other name
  then Some "wallet name must only contain alphabetic characters and numbers"
  else None.

End rpcserver.

(* ===================================================================== *)
(** * Package [boltz]: the status websocket *)
(* ===================================================================== *)

Module websocket.

(** [time.Duration] counts nanoseconds. *)
Definition Second : Z := 1000000000.
Definition reconnectInterval : Z := 15 * Second.

Record SwapUpdate := { updId : string; updStatus : string }.

Record wsResponse := {
  wsEvent : string;
  wsError : string;
  wsChannel : string;
  wsArgs : list string
}.

Inductive Message :=
| PongMessage
| TextMessage (data : string).

Record Url := { Scheme : string; Path : string; Rest : string }.

(** Libraries under the websocket: [net/url], [encoding/json],
    [mapstructure], and writes on a gorilla connection. *)
Record Net := {
  url_Parse : string -> res Url;
  Url_String : Url -> string;
  json_Marshal_subscribe : list string -> res string;
  json_Unmarshal : string -> res wsResponse;
  mapstructure_Decode : string -> SwapUpdate * option error;
  conn_WriteMessage : nat -> Message -> option error;
  conn_Close : nat -> option error
}.

(** [BoltzWebsocket]: [conn] is the connection handle or nil. *)
Record BoltzWebsocket := {
  apiUrl : string;
  conn : option nat;
  closed : bool
}.

Inductive WsEvent :=
| WsLog (level : Level) (msg : string)
| Sleep (duration : Z)
| Dial (url : string)
| GoReader (c : nat)
| WriteMessage (c : nat) (m : Message)
| UpdatesSend (update : SwapUpdate)
| SubscriptionsSend
| UpdatesClose.

Definition with_conn (ws : BoltzWebsocket) (c : option nat) : BoltzWebsocket :=
  {| apiUrl := apiUrl ws; conn := c; closed := closed ws |}.

(** [Close]. *)
Definition Close (net : Net) (ws : BoltzWebsocket) : res unit * BoltzWebsocket :=
  let ws := {| apiUrl := apiUrl ws; conn := conn ws; closed := true |} in
  match conn ws with
  | None => (Error "panic: nil pointer dereference", ws)
  | Some c => (of_error (conn_Close net c), ws)
  end.

(** [Connect], up to the [go func()]: [dialed] is what the dialer answers
    if it is asked.  The goroutine it starts for the new connection is the
    event [GoReader]; its body is [reader] below. *)
Definition Connect (net : Net) (ws : BoltzWebsocket) (dialed : res nat)
    : res unit * BoltzWebsocket * list WsEvent :=
  if closed ws then (Error "websocket is closed", ws, [])
  else
    match url_Parse net (apiUrl ws) with
    | Error err => (Error err, ws, [])
    | Ok wsUrl =>
        let wsUrl := {| Scheme := Scheme wsUrl; Path := Path wsUrl +:+ "/v2/ws";
                        Rest := Rest wsUrl |} in
        let wsUrl :=
          if String.eqb (Scheme wsUrl) "https"
          then {| Scheme := "wss"; Path := Path wsUrl; Rest := Rest wsUrl |}
          else if String.eqb (Scheme wsUrl) "http"
          then {| Scheme := "ws"; Path := Path wsUrl; Rest := Rest wsUrl |}
          else wsUrl in
        match dialed with
        | Error err =>
            (Error ("could not connect to boltz ws at " +:+ Url_String net wsUrl +:+ ": " +:+ err),
             with_conn ws None, [Dial (Url_String net wsUrl)])
        | Ok c =>
            (Ok tt, with_conn ws (Some c),
             [Dial (Url_String net wsUrl);
              WsLog Info ("Connected to Boltz ws at " +:+ Url_String net wsUrl);
              GoReader c])
        end
    end.

(** What [conn.ReadMessage] returns: an error, or the type and the bytes of
    a message. *)
Inductive MessageType := PingMessageType | TextMessageType | OtherMessageType.

Inductive Read :=
| ReadError (err : string)
| ReadOk (msgType : MessageType) (message : string).

(** A step of the surroundings while the goroutine reads: the client calls
    [Close], or [ReadMessage] returns. *)
Inductive Step :=
| ClientClose
| Incoming (r : Read).

(** One pass of the reconnect loop: whether the client calls [Close] while
    the goroutine sleeps, and what the dialer answers if it is asked. *)
Record Round := { closes : bool; dialed : res nat }.

Inductive Outcome :=
| Returned        (* the goroutine has returned *)
| LostConnection  (* the read loop was left by [break] *)
| Running.        (* the goroutine waits for its next step *)

(** The [for _, arg := range response.Args] loop. *)
Definition sendUpdates (net : Net) (args : list string) : list WsEvent :=
  flat_map (fun arg =>
              let '(update, err) := mapstructure_Decode net arg in
              match err with
              | Some err => [WsLog ErrorLevel ("invalid boltz response: " +:+ err)]
              | None => []
              end ++ [UpdatesSend update]) args.

(** The body of the first [for] of the goroutine after a message was read. *)
Definition handleMessage (net : Net) (c : nat) (msgType : MessageType) (message : string)
    : list WsEvent :=
  WsLog Silly ("Received websocket message: " +:+ message) ::
  match msgType with
  | PingMessageType =>
      WriteMessage c PongMessage ::
      match conn_WriteMessage net c PongMessage with
      | Some err => [WsLog ErrorLevel ("could not send pong: " +:+ err)]
      | None => []
      end
  | TextMessageType =>
      match json_Unmarshal net message with
      | Error err => [WsLog ErrorLevel ("could not parse websocket response: " +:+ err)]
      | Ok response =>
          if negb (String.eqb (wsError response) "") then
            [WsLog ErrorLevel ("boltz websocket error: " +:+ wsError response)]
          else if String.eqb (wsEvent response) "update" then
            if String.eqb (wsChannel response) "swap.update" then
              sendUpdates net (wsArgs response)
            else [WsLog Warning ("unknown update channel: " +:+ wsChannel response)]
          else if String.eqb (wsEvent response) "subscribe" then [SubscriptionsSend]
          else [WsLog Warning ("unknown event: " +:+ wsEvent response)]
      end
  | OtherMessageType => []
  end.

(** The first [for] of the goroutine: read until [ReadMessage] fails. *)
Fixpoint readLoop (net : Net) (ws : BoltzWebsocket) (c : nat) (steps : list Step)
    : Outcome * BoltzWebsocket * list WsEvent :=
  match steps with
  | [] => (Running, ws, [])
  | ClientClose :: rest => readLoop net (snd (Close net ws)) c rest
  | Incoming (ReadError err) :: _ =>
      if closed ws then (Returned, ws, [UpdatesClose])
      else (LostConnection, ws, [WsLog ErrorLevel ("could not receive message: " +:+ err)])
  | Incoming (ReadOk msgType message) :: rest =>
      let '(o, ws', evs) := readLoop net ws c rest in
      (o, ws', handleMessage net c msgType message ++ evs)
  end.

(** The second [for] of the goroutine: sleep, [Connect], return when it
    succeeded. *)
Fixpoint reconnectLoop (net : Net) (ws : BoltzWebsocket) (rounds : list Round)
    : Outcome * BoltzWebsocket * list WsEvent :=
  match rounds with
  | [] => (Running, ws, [])
  | round :: rest =>
      let ws := if closes round then snd (Close net ws) else ws in
      let '(err, ws, evs) := Connect net ws (dialed round) in
      let evs := WsLog ErrorLevel ("lost connection to boltz ws, reconnecting in "
                                  +:+ strconv_Itoa reconnectInterval)
                 :: Sleep reconnectInterval :: evs in
      match err with
      | Ok _ => (Returned, ws, evs)
      | Error _ =>
          let '(o, ws, evs') := reconnectLoop net ws rest in
          (o, ws, evs ++ evs')
      end
  end.

(** The goroutine that [Connect] starts for connection [c]. *)
Definition reader (net : Net) (ws : BoltzWebsocket) (c : nat) (steps : list Step)
    (rounds : list Round) : Outcome * BoltzWebsocket * list WsEvent :=
  let '(o, ws, evs) := readLoop net ws c steps in
  match o with
  | LostConnection =>
      let '(o, ws, evs') := reconnectLoop net ws rounds in
      (o, ws, evs ++ evs')
  | _ => (o, ws, evs)
  end.

(** [SendJson] of the subscribe request. *)
Definition SendJson_subscribe (net : Net) (ws : BoltzWebsocket) (swapIds : list string)
    : res unit * list WsEvent :=
  match json_Marshal_subscribe net swapIds with
  | Error err => (Error err, [])
  | Ok send =>
      match conn ws with
      | None => (Error "panic: nil pointer dereference", [])
      | Some c =>
          (of_error (conn_WriteMessage net c (TextMessage send)),
           [WriteMessage c (TextMessage send)])
      end
  end.

(** The [select] of [Subscribe]: [arrival] is the time (in nanoseconds
    after the select is entered) at which the reader offers a value on
    [subscriptions], if it ever does; when both cases are ready at the same
    instant Go picks one of them, [tie] says whether it is the receive. *)
Record Race := { arrival : option Z; tie : bool }.

Definition received_before (race : Race) (timeout : Z) : bool :=
  match arrival race with
  | None => false
  | Some t =>
      if (t <? timeout)%Z then true
      else if (timeout <? t)%Z then false
      else tie race
  end.

Definition Subscribe (net : Net) (ws : BoltzWebsocket) (swapIds : list string)
    (race : Race) : res unit * list WsEvent :=
  if (length swapIds =? 0)%nat then (Ok tt, [])
  else
    match SendJson_subscribe net ws swapIds with
    | (Error err, evs) => (Error err, evs)
    | (Ok _, evs) =>
        if received_before race (5 * Second)
        then (Ok tt, evs)
        else (Error "no answer from boltz", evs)
    end.

End websocket.


(* ===================================================================== *)
(** * Package [mempool]: the client of the block explorer *)
(* ===================================================================== *)

Module mempool.

Record Client := { api : string; apiv1 : string }.

Definition InitClient (endpoint : string) : Client :=
  let endpointStripped := strings_TrimSuffix endpoint "/" in
  let endpointV1 := endpointStripped in
  let endpointV1 :=
    if negb (strings_HasSuffix endpointV1 "/v1") then endpointV1 +:+ "/v1" else endpointV1 in
  {| api := endpointStripped; apiv1 := endpointV1 |}.

End mempool.

(* ===================================================================== *)
(** * Package [macaroons]: the interceptors *)
(* ===================================================================== *)

Module macaroons.

(** The service with what [validateRequest] reaches: the table
    [RPCServerPermissions] of the package, [hex.DecodeString] and
    [ValidateMacaroon].  The permissions of a method are only handed on. *)
Record Service {Permissions : Type} := {
  RPCServerPermissions : gmap string Permissions;
  hex_DecodeString : string -> res bytes;
  ValidateMacaroon : bytes -> Permissions -> option error
}.
Arguments Service : clear implicits.

(** [metadata.FromIncomingContext]: the metadata of the context, if it has
    any; reading an absent key of [metadata.MD] gives the empty slice. *)
Definition Context : Type := option (gmap string (list string)).

Definition validateRequest {Permissions} (service : Service Permissions) (ctx : Context)
    (fullMethod : string) : option error :=
  match RPCServerPermissions service !! fullMethod with
  | None => Some ("could not find permissions requires for method: " +:+ fullMethod)
  | Some requiredPermissions =>
      match ctx with
      | None => Some "could not get metadata from context"
      | Some md =>
          let macaroon := default [] (md !! "macaroon") in
          if negb (length macaroon =? 1)%nat then
            Some ("expected 1 macaroon, got " +:+ strconv_Itoa (Z.of_nat (length macaroon)))
          else
            match macaroon !! 0%nat with
            | None => Some "panic: index out of range"
            | Some mac =>
                match hex_DecodeString service mac with
                | Error err => Some err
                | Ok macBytes => ValidateMacaroon service macBytes requiredPermissions
                end
            end
      end
  end.

Definition UnaryServerInterceptor {Permissions Req Resp : Type}
    (service : Service Permissions) (ctx : Context) (req : Req) (info : rpcserver.ServerInfo)
    (handler : Context -> Req -> M Resp) : M Resp :=
  match validateRequest service ctx (rpcserver.FullMethod info) with
  | Some err => fail err
  | None => handler ctx req
  end.

Definition StreamServerInterceptor {Permissions Srv Stream : Type}
    (service : Service Permissions) (srv : Srv) (ss : Stream) (ss_Context : Stream -> Context)
    (info : rpcserver.ServerInfo) (handler : Srv -> Stream -> M unit) : M unit :=
  match validateRequest service (ss_Context ss) (rpcserver.FullMethod info) with
  | Some err => fail err
  | None => handler srv ss
  end.

End macaroons.


(* ===================================================================== *)
(** * Reading a run *)
(* ===================================================================== *)

Definition is_error {A} (r : res A) : bool :=
  match r with Error _ => true | Ok _ => false end.

(** Kinds of events. *)
Definition is_db_write (ev : Event) : bool :=
  match ev with
  | DbCreateSwap _ | DbCreateReverseSwap _ | DbUpdateSwapStatus _ _
  | DbUpdateReverseSwapState _ _ _ => true
  | _ => false
  end.

Definition is_failed_check (ev : Event) : bool :=
  match ev with
  | TreeCheck _ _ _ (Some _) | TreeCheckAddress _ (Some _) => true
  | _ => false
  end.

Definition is_passed_tree_check (isReverse : bool) (ev : Event) : bool :=
  match ev with
  | TreeCheck r _ _ None => Bool.eqb r isReverse
  | _ => false
  end.

Definition is_passed_address_check (ev : Event) : bool :=
  match ev with
  | TreeCheckAddress _ None => true
  | _ => false
  end.

Definition is_DbCreateSwap (ev : Event) : bool :=
  match ev with DbCreateSwap _ => true | _ => false end.

Definition is_DbCreateReverseSwap (ev : Event) : bool :=
  match ev with DbCreateReverseSwap _ => true | _ => false end.

Definition is_ExchangeCreateReverseSwap (ev : Event) : bool :=
  match ev with ExchangeCreateReverseSwap _ => true | _ => false end.

Definition is_RefundConstructed (ev : Event) : bool :=
  match ev with RefundConstructed _ _ _ => true | _ => false end.

(** The events of a run up to the first one that [stop] accepts. *)
Fixpoint events_before (stop : Event -> bool) (evs : list Event) : list Event :=
  match evs with
  | [] => []
  | ev :: rest => if stop ev then [] else ev :: events_before stop rest
  end.

(** No event of the run touched the database. *)
Definition no_db_write (evs : list Event) : Prop :=
  forall ev, In ev evs -> is_db_write ev = false.

(** What the statements below need of a run, in a form that evaluates on
    every path. *)
Definition all_or_nothing {A} (isReverse : bool) (is_create : Event -> bool) (w : World)
    (run : res A * World * list Event) : Prop :=
  (existsb is_failed_check (events_of run) = true ->
     is_error (result_of run) = true /\ existsb is_db_write (events_of run) = false)
  /\ (existsb is_db_write (events_of run) = false -> world_of run = w)
  /\ (existsb is_db_write (events_of run) = true ->
        existsb (is_passed_tree_check isReverse)
          (events_before is_db_write (events_of run)) = true
        /\ existsb is_passed_address_check
             (events_before is_db_write (events_of run)) = true
        /\ existsb is_create (events_of run) = true).

(* ===================================================================== *)
(** * Vocabulary of the statements *)
(* ===================================================================== *)

(** Where the preimage and the preimage hash of a new submarine swap come
    from (lines 313 to 343 of [createSwap]): [preimage_origin server request
    preimage preimageHash invoice sentHash] relates the stored preimage, the
    hash that the tree is checked against, and the invoice and the preimage
    hash of the request to the exchange. *)
Inductive preimage_origin (server : rpcserver.routedBoltzServer)
    (request : rpcserver.CreateSwapRequest) : bytes -> bytes -> string -> bytes -> Prop :=
| FromSuppliedInvoice invoice :
    negb (String.eqb (rpcserver.GetInvoice request) "") = true ->
    zpay32_Decode (rpcserver.libs server) (rpcserver.GetInvoice request)
      (rpcserver.network server) = Ok invoice ->
    preimage_origin server request [] (PaymentHash invoice) (rpcserver.GetInvoice request) []
| FromCreatedInvoice ln memo invoice :
    negb (String.eqb (rpcserver.GetInvoice request) "") = false ->
    rpcserver.lightning server = Some ln ->
    negb (rpcserver.Amount request =? 0)%Z = true ->
    rpcserver.lightning_CreateInvoice ln (rpcserver.Amount request) memo = Ok invoice ->
    preimage_origin server request [] (rpcserver.InvPaymentHash invoice)
      (rpcserver.PaymentRequest invoice) []
| FromFreshPreimage ln preimage preimageHash :
    negb (String.eqb (rpcserver.GetInvoice request) "") = false ->
    rpcserver.lightning server = Some ln ->
    negb (rpcserver.Amount request =? 0)%Z = false ->
    rpcserver.newPreimage (rpcserver.libs server) = Ok (preimage, preimageHash) ->
    preimage_origin server request preimage preimageHash "" preimageHash.

(** The swap was created around an invoice: one the caller supplied, or one
    created on the attached node; no preimage is stored or sent. *)
Definition invoice_case (server : rpcserver.routedBoltzServer)
    (request : rpcserver.CreateSwapRequest) (swap : Swap)
    (req : BoltzCreateSwapRequest) (checkedHash : bytes) : Prop :=
  Preimage swap = [] /\ bPreimageHash req = [] /\ Invoice swap = bInvoice req /\
  ((exists invoice,
      rpcserver.GetInvoice request <> "" /\
      bInvoice req = rpcserver.GetInvoice request /\
      zpay32_Decode (rpcserver.libs server) (rpcserver.GetInvoice request)
        (rpcserver.network server) = Ok invoice /\
      checkedHash = PaymentHash invoice)
   \/
   (exists ln memo invoice,
      rpcserver.GetInvoice request = "" /\
      rpcserver.lightning server = Some ln /\
      rpcserver.Amount request <> 0%Z /\
      rpcserver.lightning_CreateInvoice ln (rpcserver.Amount request) memo = Ok invoice /\
      bInvoice req = rpcserver.PaymentRequest invoice /\
      checkedHash = rpcserver.InvPaymentHash invoice)).

(** The swap was created around a fresh preimage: 32 random bytes, stored
    with the swap, whose SHA-256 is sent to the exchange. *)
Definition preimage_case (server : rpcserver.routedBoltzServer)
    (request : rpcserver.CreateSwapRequest) (swap : Swap)
    (req : BoltzCreateSwapRequest) (checkedHash : bytes) : Prop :=
  length (Preimage swap) = 32 /\
  (exists random, rand_Reader (rpcserver.libs server) = Ok random /\
                  Preimage swap = List.map random (seq 0 32)) /\
  bPreimageHash req = sha256_Sum256 (rpcserver.libs server) (Preimage swap) /\
  checkedHash = bPreimageHash req /\
  bInvoice req = "" /\ Invoice swap = "" /\
  rpcserver.GetInvoice request = "" /\ rpcserver.Amount request = 0%Z.

(** An output of the lockup transaction whose script decodes to the
    address looked for. *)
Definition pays_to (n : nursery.Nursery) (addressToFind : string) (output : TxOut) : Prop :=
  exists outputAddresses outputAddress,
    txscript_ExtractPkScriptAddrs (nursery.libs n) (PkScript output) (nursery.chainParams n)
      = Ok outputAddresses /\
    In outputAddress outputAddresses /\
    EncodeAddress outputAddress = addressToFind.

(** [i] is the index of the first such output. *)
Definition first_lockup_output (n : nursery.Nursery) (addressToFind : string)
    (outputs : list TxOut) (i : nat) : Prop :=
  (exists output, outputs !! i = Some output /\ pays_to n addressToFind output) /\
  (forall j output, (j < i)%nat -> outputs !! j = Some output -> ~ pays_to n addressToFind output).

(** The Lightning node reports the invoice of the swap as settled. *)
Definition invoice_settled (n : nursery.Nursery) (swap : Swap) : Prop :=
  exists decodedInvoice invoiceInfo,
    zpay32_Decode (nursery.libs n) (Invoice swap) (nursery.chainParams n) = Ok decodedInvoice /\
    nursery.lnd_LookupInvoice (nursery.lnd n) (PaymentHash decodedInvoice) = Ok invoiceInfo /\
    Invoice_State invoiceInfo = Invoice_SETTLED.

(** Counting in the trace of the websocket goroutine. *)
Definition is_Sleep (ev : websocket.WsEvent) : bool :=
  match ev with websocket.Sleep _ => true | _ => false end.

Definition is_Dial (ev : websocket.WsEvent) : bool :=
  match ev with websocket.Dial _ => true | _ => false end.

Definition is_lost_connection_log (ev : websocket.WsEvent) : bool :=
  match ev with websocket.WsLog ErrorLevel _ => true | _ => false end.

Definition count_events (f : websocket.WsEvent -> bool) (evs : list websocket.WsEvent) : nat :=
  length (List.filter f evs).

(* ===================================================================== *)
(** * Sample collaborators *)
(* ===================================================================== *)

Open Scope Z_scope.

(** A lockup transaction with an output that cannot be decoded, a change
    output and the output at the lockup address. *)
Definition sample_lockup : Tx :=
  {| Tx_MsgTx :=
       {| TxIn_ := [];
          TxOut_ := [ {| Value := 1000; PkScript := [] |};
                      {| Value := 50000; PkScript := list_byte_of_string "bcrt1qchange" |};
                      {| Value := 100200; PkScript := list_byte_of_string "bcrt1plockup" |} ];
          LockTime := 0 |};
     Tx_Hash := "c0ffee" |}.

Definition sample_libs : Libs :=
  {| btcutil_DecodeAddress := fun addr _ => Ok {| EncodeAddress := addr |};
     hex_DecodeString := fun s => Ok (list_byte_of_string s);
     btcutil_NewTxFromBytes := fun _ => Ok sample_lockup;
     txscript_ExtractPkScriptAddrs :=
       fun script _ =>
         match script with
         | [] => Error "non-standard script"
         | _ => Ok [ {| EncodeAddress := string_of_list_byte script |} ]
         end;
     txscript_PayToAddrScript := fun a => list_byte_of_string (EncodeAddress a);
     MsgTx_TxHash := fun _ => "beef";
     boltz_SerializeTransaction := fun _ => Ok "0200beef";
     refund_value_witness_sequence := fun _ _ _ _ _ _ => Ok (100000%Z, [], 0%Z);
     zpay32_Decode := fun invoice _ => Ok {| PaymentHash := list_byte_of_string invoice |};
     sha256_Sum256 := fun b => rev b;
     rand_Reader := Ok (fun i => match i with 0%nat => x01 | 1%nat => x02 | _ => x2a end);
     btcec_NewPrivateKey := Ok [x07];
     btcec_PubKey := fun k => x02 :: k;
     btcec_SerializeCompressed := fun k => k;
     btcec_ParsePubKey := fun b => Ok b;
     btcec_PrivKeyFromBytes := fun b => b;
     lightning_NewChanIdFromString := fun _ => Ok 1%Z;
     SerializedTree_Deserialize := fun b => b;
     Swap_InitTree := fun swap => Ok (SwapTree_ swap);
     ReverseSwap_InitTree := fun r => Ok (rSwapTree r);
     SwapTree_Check := fun _ _ _ _ => None;
     SwapTree_CheckAddress :=
       fun _ address _ _ =>
         if String.eqb address "bcrt1plockup" then None else Some "invalid address";
     boltz_ValidateAddress := fun _ _ _ => None;
     boltz_BlocksToHours := fun blocks _ => (blocks / 6)%Z;
     utils_ParsePair := fun p => default {| From := CurrencyBtc; To := CurrencyBtc |} p;
     utils_GetSwapMemo := fun c => "Submarine Swap from " +:+ c;
     utils_Percentage := fun f => f;
     float32_of_float64 := fun f => f;
     fmt_float := fun f => pretty f;
     Swap_Serialize_json := fun swap => Id swap;
     ReverseSwap_Serialize_json := fun r => rId r |}.

Definition sample_database : Database := {| write_fails := fun _ => None |}.

Definition sample_world : World :=
  {| swaps := ∅; reverseSwaps := ∅; locked := false |}.

Definition sample_nursery : nursery.Nursery :=
  {| nursery.libs := sample_libs;
     nursery.chainParams := "regtest";
     nursery.lnd :=
       {| nursery.lnd_NewAddress := Ok "bcrt1qfresh";
          nursery.lnd_LookupInvoice := fun _ => Ok {| Invoice_State := Invoice_SETTLED |} |};
     nursery.boltz :=
       {| nursery.boltz_GetSwapTransaction := fun _ => Ok {| nursery.TransactionHex := "0200" |};
          nursery.boltz_BroadcastTransaction := fun _ => Ok "beef" |};
     nursery.database := sample_database |}.

Definition sample_swap (timeout : Z) : Swap :=
  {| Id := "swap1"; SwapPair := {| From := CurrencyBtc; To := CurrencyBtc |};
     State := SwapState_PENDING; SwapError := ""; Status := TransactionMempool;
     PrivateKey_ := [x07]; Preimage := []; Invoice := "lnbcrt1invoice";
     Address := "bcrt1plockup"; ExpectedAmount := 100200; TimoutBlockHeight := timeout;
     SwapTree_ := []; RedeemScript := [x51]; LockupTransactionId := "c0ffee";
     RefundTransactionId := ""; RefundAddress := "bcrt1qstored"; IsAuto := false;
     ServiceFeePercent := 0; Wallet := ""; ClaimPubKey := None; BlindingKey := None |}.

Definition sample_pairs : gmap Currency (gmap Currency rpcserver.PairInfo) :=
  {[ CurrencyBtc := {[ CurrencyBtc := {| rpcserver.Hash := "pairhash";
                                         rpcserver.FeesPercentage := 0%Z |} ]} ]}.

(** A server with a Lightning node; the exchange answers every request
    with the lockup address [address] and the invoice [invoice]. *)
Definition sample_server (address invoice : string) : rpcserver.routedBoltzServer :=
  {| rpcserver.libs := sample_libs;
     rpcserver.network := "regtest";
     rpcserver.onchain :=
       {| rpcserver.onchain_GetWallet := fun _ _ _ => Error "wallet not found";
          rpcserver.onchain_GetBlockHeight := fun _ => Ok 799000%Z;
          rpcserver.onchain_EstimateFee := fun _ _ => Ok 2%Z |};
     rpcserver.lightning :=
       Some {| rpcserver.lightning_CreateInvoice :=
                 fun _ _ => Ok {| rpcserver.PaymentRequest := "lnbcrt1created";
                                  rpcserver.InvPaymentHash := [x09] |} |};
     rpcserver.boltz :=
       {| rpcserver.boltz_GetSubmarinePairs := Ok sample_pairs;
          rpcserver.boltz_GetReversePairs := Ok sample_pairs;
          rpcserver.boltz_CreateSwap :=
            fun _ => Ok {| bId := "swap1"; bAddress := address;
                           bExpectedAmount := 100200; bTimeoutBlockHeight := 800000;
                           bSwapTree := [x51]; bClaimPublicKey := [x03];
                           bBlindingKey := []; bBip21 := "bitcoin:" +:+ address |};
          rpcserver.boltz_CreateReverseSwap :=
            fun _ => Ok {| brId := "reverse1"; brInvoice := invoice; brSwapTree := [x51];
                           brRefundPublicKey := [x03]; brLockupAddress := address;
                           brTimeoutBlockHeight := 800000; brOnchainAmount := 99000;
                           brBlindingKey := [] |};
          rpcserver.serializeSubmarinePair := fun _ p => p;
          rpcserver.serializeReversePair := fun _ p => p |};
     rpcserver.nursery :=
       {| rpcserver.nursery_Init := None;
          rpcserver.nursery_RegisterSwap := fun _ => None;
          rpcserver.nursery_RegisterReverseSwap := fun _ => None;
          rpcserver.nursery_PayReverseSwap := fun _ => None;
          rpcserver.nursery_SwapUpdates := fun _ => [] |};
     rpcserver.database := sample_database;
     rpcserver.wallets :=
       {| rpcserver.database_QueryWalletCredentials := Ok [];
          rpcserver.Credentials_Decrypt := fun c _ => Ok c;
          rpcserver.wallet_Login := fun _ => Error "no wallet";
          rpcserver.swapper_LoadConfig := None |} |}.

Definition sample_request : rpcserver.CreateSwapRequest :=
  {| rpcserver.Amount := 0; rpcserver.ReqPair := None; rpcserver.SendFromInternal := false;
     rpcserver.ReqRefundAddress := None; rpcserver.ReqInvoice := None;
     rpcserver.ReqWallet := None |}.

Definition sample_reverse_request : rpcserver.CreateReverseSwapRequest :=
  {| rpcserver.rqAmount := 100000; rpcserver.rqAddress := "bcrt1qclaim";
     rpcserver.rqAcceptZeroConf := false; rpcserver.rqPair := None;
     rpcserver.rqChanIds := []; rpcserver.rqWallet := None;
     rpcserver.rqReturnImmediately := None; rpcserver.rqExternalPay := None |}.

Definition sample_net : websocket.Net :=
  {| websocket.url_Parse :=
       fun s => Ok {| websocket.Scheme := "https"; websocket.Path := "";
                      websocket.Rest := s |};
     websocket.Url_String :=
       fun u => websocket.Scheme u +:+ "://" +:+ websocket.Rest u +:+ websocket.Path u;
     websocket.json_Marshal_subscribe := fun ids => Ok (String.concat "," ids);
     websocket.json_Unmarshal := fun _ => Error "unexpected end of JSON input";
     websocket.mapstructure_Decode :=
       fun arg => ({| websocket.updId := arg; websocket.updStatus := "" |}, None);
     websocket.conn_WriteMessage := fun _ _ => None;
     websocket.conn_Close := fun _ => None |}.

Definition sample_websocket : websocket.BoltzWebsocket :=
  {| websocket.apiUrl := "api.boltz.exchange"; websocket.conn := Some 1%nat;
     websocket.closed := false |}.

Close Scope Z_scope.

(* ===================================================================== *)
(** * Further vocabulary and samples *)
(* ===================================================================== *)

(** More kinds of events. *)
Definition is_WalletSend (ev : Event) : bool :=
  match ev with WalletSend _ _ _ => true | _ => false end.

Definition is_ExchangeCreateSwap (ev : Event) : bool :=
  match ev with ExchangeCreateSwap _ => true | _ => false end.

Definition is_LightningCreateInvoice (ev : Event) : bool :=
  match ev with LightningCreateInvoice _ _ => true | _ => false end.

Definition is_NurseryPayReverseSwap (ev : Event) : bool :=
  match ev with NurseryPayReverseSwap _ => true | _ => false end.

Definition is_NurseryRegisterReverseSwap (ev : Event) : bool :=
  match ev with NurseryRegisterReverseSwap _ => true | _ => false end.

Definition is_Log (ev : Event) : bool :=
  match ev with Log _ _ => true | _ => false end.





(** Where the claim address of a new reverse swap comes from: the address
    of the request, which [boltz.ValidateAddress] accepted for the target
    currency, or a new address of the wallet that the request names. *)
Inductive claim_address_origin (server : rpcserver.routedBoltzServer)
    (request : rpcserver.CreateReverseSwapRequest) : string -> Prop :=
| ClaimToRequestAddress :
    negb (String.eqb (rpcserver.rqAddress request) "") = true ->
    boltz_ValidateAddress (rpcserver.libs server) (rpcserver.network server)
      (rpcserver.rqAddress request)
      (To (utils_ParsePair (rpcserver.libs server) (rpcserver.rqPair request))) = None ->
    claim_address_origin server request (rpcserver.rqAddress request)
| ClaimToWalletAddress wallet address :
    negb (String.eqb (rpcserver.rqAddress request) "") = false ->
    rpcserver.onchain_GetWallet (rpcserver.onchain server)
      (default "" (rpcserver.rqWallet request))
      (Some (To (utils_ParsePair (rpcserver.libs server) (rpcserver.rqPair request)))) true
    = Ok wallet ->
    rpcserver.wallet_NewAddress wallet = Ok address ->
    claim_address_origin server request address.

(** An update that ends the wait of [createReverseSwap] with an error. *)
Definition update_failed (info : rpcserver.SwapUpdate) : bool :=
  rpcserver.SwapState_eqb (rpcserver.upState info) SwapState_ERROR
  || rpcserver.SwapState_eqb (rpcserver.upState info) SwapState_SERVER_ERROR.

Definition update_successful (info : rpcserver.SwapUpdate) : bool :=
  rpcserver.SwapState_eqb (rpcserver.upState info) SwapState_SUCCESSFUL.

(** The last successful update of a sequence, if there is one. *)
Definition last_successful (updates : list rpcserver.SwapUpdate) : option rpcserver.SwapUpdate :=
  List.find update_successful (rev updates).

(** A reverse-swap request with a claim address that is to be paid by the
    node, and the sample server with a nursery whose payments fail. *)
Definition with_nursery (server : rpcserver.routedBoltzServer) (n : rpcserver.Nursery)
    : rpcserver.routedBoltzServer :=
  {| rpcserver.libs := rpcserver.libs server; rpcserver.network := rpcserver.network server;
     rpcserver.onchain := rpcserver.onchain server;
     rpcserver.lightning := rpcserver.lightning server;
     rpcserver.boltz := rpcserver.boltz server; rpcserver.nursery := n;
     rpcserver.database := rpcserver.database server;
     rpcserver.wallets := rpcserver.wallets server |}.

Definition sample_failing_nursery : rpcserver.Nursery :=
  {| rpcserver.nursery_Init := None;
     rpcserver.nursery_RegisterSwap := fun _ => None;
     rpcserver.nursery_RegisterReverseSwap := fun _ => None;
     rpcserver.nursery_PayReverseSwap := fun _ => Some "no route";
     rpcserver.nursery_SwapUpdates := fun _ => [] |}.

(** The invoice whose payment hash is the SHA-256 (here: the reverse) of
    the preimage that the sample random source gives. *)
Definition sample_reverse_invoice : string :=
  string_of_list_byte
    (rev (List.map (fun i => match i with 0%nat => x01 | 1%nat => x02 | _ => x2a end)
            (seq 0 32))).



(** The sample server with stored wallet credentials; the wallets decrypt
    with the password "secret" only and log in under their names. *)
Definition with_wallets (server : rpcserver.routedBoltzServer) (ws : rpcserver.Wallets)
    : rpcserver.routedBoltzServer :=
  {| rpcserver.libs := rpcserver.libs server; rpcserver.network := rpcserver.network server;
     rpcserver.onchain := rpcserver.onchain server;
     rpcserver.lightning := rpcserver.lightning server;
     rpcserver.boltz := rpcserver.boltz server; rpcserver.nursery := rpcserver.nursery server;
     rpcserver.database := rpcserver.database server; rpcserver.wallets := ws |}.

Definition sample_wallets (credentials : list rpcserver.Credentials) : rpcserver.Wallets :=
  {| rpcserver.database_QueryWalletCredentials := Ok credentials;
     rpcserver.Credentials_Decrypt :=
       fun c password =>
         if String.eqb password "secret"
         then Ok {| rpcserver.credName := rpcserver.credName c; rpcserver.Encrypted := false |}
         else Error "cipher: message authentication failed";
     rpcserver.wallet_Login :=
       fun c =>
         if rpcserver.Encrypted c then Error "credentials are encrypted"
         else Ok {| rpcserver.wallet_Name := rpcserver.credName c;
                    rpcserver.wallet_NewAddress := Ok "bcrt1qwallet";
                    rpcserver.wallet_SendToAddress := fun _ _ _ => Ok "feed" |};
     rpcserver.swapper_LoadConfig := None |}.


Definition is_ExchangeBroadcast (ev : Event) : bool :=
  match ev with ExchangeBroadcast _ => true | _ => false end.

Definition is_LightningNewAddress (ev : Event) : bool :=
  match ev with LightningNewAddress => true | _ => false end.

Definition is_DbUpdateSwapStatus (ev : Event) : bool :=
  match ev with DbUpdateSwapStatus _ _ => true | _ => false end.

Definition is_ListenerStop (ev : Event) : bool :=
  match ev with ListenerStop _ => true | _ => false end.

(** The test that [handleSwapStatus] makes on a claimed swap. *)
Definition invoice_settledb (n : nursery.Nursery) (swap : Swap) : bool :=
  match zpay32_Decode (nursery.libs n) (Invoice swap) (nursery.chainParams n) with
  | Ok decodedInvoice =>
      match nursery.lnd_LookupInvoice (nursery.lnd n) (PaymentHash decodedInvoice) with
      | Ok invoiceInfo => InvoiceState_eqb (Invoice_State invoiceInfo) Invoice_SETTLED
      | Error _ => false
      end
  | Error _ => false
  end.

(** Sample answers for the recovery: the exchange reports every swap as
    expired, two swaps are pending, one of them is refundable. *)
Definition sample_recovery : nursery.Recovery :=
  {| nursery.boltz_SwapStatus := fun _ => Ok "swap.expired";
     nursery.database_QueryPendingSwaps := Ok [sample_swap 800000];
     nursery.database_QueryRefundableSwaps := fun _ => Ok [sample_swap 800000];
     nursery.json_Unmarshal_status := fun data => Ok data;
     nursery.CompletedStatus := ["transaction.claimed"; "swap.refunded"] |}.

(** The sample nursery with a node that reports every invoice as open. *)
Definition sample_unsettled_nursery : nursery.Nursery :=
  {| nursery.libs := sample_libs;
     nursery.chainParams := "regtest";
     nursery.lnd :=
       {| nursery.lnd_NewAddress := Ok "bcrt1qfresh";
          nursery.lnd_LookupInvoice := fun _ => Ok {| Invoice_State := Invoice_OPEN |} |};
     nursery.boltz := nursery.boltz sample_nursery;
     nursery.database := sample_database |}.



Definition is_UpdatesClose (ev : websocket.WsEvent) : bool :=
  match ev with websocket.UpdatesClose => true | _ => false end.

Definition is_GoReader (ev : websocket.WsEvent) : bool :=
  match ev with websocket.GoReader _ => true | _ => false end.

(** Steps at which [ReadMessage] returns a message. *)
Definition is_message (step : websocket.Step) : bool :=
  match step with
  | websocket.Incoming (websocket.ReadOk _ _) => true
  | _ => false
  end.

Definition is_message_or_close (step : websocket.Step) : bool :=
  match step with
  | websocket.Incoming (websocket.ReadError _) => false
  | _ => true
  end.


Definition is_ClientClose (step : websocket.Step) : bool :=
  match step with websocket.ClientClose => true | _ => false end.

(** Events by which the goroutine ends a connection or starts a new one. *)
Definition is_reconnect_event (ev : websocket.WsEvent) : bool :=
  match ev with
  | websocket.UpdatesClose | websocket.Sleep _ | websocket.Dial _ | websocket.GoReader _ => true
  | _ => false
  end.


(** The database writes of a pass of the block listener: updates of
    refundable swaps to [swap.refunded]. *)
Definition pass_writes_refunds (swapsToRefund : list Swap) (evs : list Event) : Prop :=
  forall ev, In ev evs -> is_db_write ev = true ->
    exists swap, In swap swapsToRefund /\ ev = DbUpdateSwapStatus (Id swap) SwapRefunded.

(** A pass that went through all the refundable swaps: the listener of
    each of them was receiving, was sent the stop signal and is forgotten;
    the other listeners are kept; one refund was attempted per swap. *)
Definition pass_done (receiving : nat -> bool) (eventListeners : gmap string nat)
    (swapsToRefund : list Swap) (eventListeners' : gmap string nat) (evs : list Event)
    : Prop :=
  (forall id,
      eventListeners' !! id
      = if bool_decide (id ∈ List.map Id swapsToRefund) then None else eventListeners !! id)
  /\ length (List.filter is_LightningNewAddress evs) = length swapsToRefund
  /\ (forall id ch, id ∈ List.map Id swapsToRefund -> eventListeners !! id = Some ch ->
        receiving ch = true)
  /\ (forall id, In (ListenerStop id) evs
                 <-> id ∈ List.map Id swapsToRefund /\ is_Some (eventListeners !! id)).

(** A pass that waits for ever in the send to the listener of the swap
    [id]: that listener is in the map and has returned; the swaps before
    it were handled, those after it were not. *)
Definition pass_blocked (receiving : nat -> bool) (eventListeners : gmap string nat)
    (swapsToRefund : list Swap) (id : string) (eventListeners' : gmap string nat)
    (evs : list Event) : Prop :=
  exists before swap after ch,
    swapsToRefund = before ++ swap :: after
    /\ Id swap = id
    /\ (forall id',
          eventListeners' !! id'
          = if bool_decide (id' ∈ List.map Id before) then None else eventListeners !! id')
    /\ eventListeners' !! id = Some ch
    /\ (id ∉ List.map Id before)
    /\ receiving ch = false
    /\ length (List.filter is_LightningNewAddress evs) = length before
    /\ (forall id' ch', id' ∈ List.map Id before -> eventListeners !! id' = Some ch' ->
          receiving ch' = true).

(** The row that [createReverseSwap] writes, against the request it sent
    to the exchange and the answer it got. *)
Definition reverse_row (server : rpcserver.routedBoltzServer) (isAuto : bool)
    (request : rpcserver.CreateReverseSwapRequest) (evs : list Event) (rs : ReverseSwap)
    : Prop :=
  exists publicKey preimageHash req resp invoice,
    rpcserver.newKeys (rpcserver.libs server) = Ok (rPrivateKey rs, publicKey)
    /\ rpcserver.newPreimage (rpcserver.libs server) = Ok (rPreimage rs, preimageHash)
    /\ In (ExchangeCreateReverseSwap req) (events_before is_db_write evs)
    /\ rpcserver.boltz_CreateReverseSwap (rpcserver.boltz server) req = Ok resp
    /\ brClaimPublicKey req = btcec_SerializeCompressed (rpcserver.libs server) publicKey
    /\ brPreimageHash req = preimageHash
    /\ brInvoiceAmount req = uint64 (rpcserver.rqAmount request)
    /\ rId rs = brId resp /\ rInvoice rs = brInvoice resp
    /\ rOnchainAmount rs = brOnchainAmount resp
    /\ rTimeoutBlockHeight rs = brTimeoutBlockHeight resp
    /\ rState rs = SwapState_PENDING /\ rStatus rs = SwapCreated
    /\ rLockupTransactionId rs = "" /\ rClaimTransactionId rs = ""
    /\ rIsAuto rs = isAuto
    /\ rAcceptZeroConf rs = rpcserver.rqAcceptZeroConf request
    /\ zpay32_Decode (rpcserver.libs server) (rInvoice rs) (rpcserver.network server)
       = Ok invoice
    /\ bytes_Equal preimageHash (PaymentHash invoice) = true
    /\ rpcserver.parseChanIds (rpcserver.libs server) (rpcserver.rqChanIds request) []
       = Ok (rChanIds rs)
    /\ claim_address_origin server request (rClaimAddress rs)
    /\ (rpcserver.lightning server = None -> rExternalPay rs = true)
    /\ (forall ln, rpcserver.lightning server = Some ln ->
          rExternalPay rs = default false (rpcserver.rqExternalPay request)).

(** What a run that asked the node to pay went through before, and how it
    ends. *)
Definition reverse_pay (server : rpcserver.routedBoltzServer) (w : World)
    (run : res rpcserver.CreateReverseSwapResponse * World * list Event) (id : string)
    : Prop :=
  exists ln rs,
    rpcserver.lightning server = Some ln
    /\ In (DbCreateReverseSwap rs) (events_before is_NurseryPayReverseSwap (events_of run))
    /\ write_fails (rpcserver.database server) (DbCreateReverseSwap rs) = None
    /\ rId rs = id
    /\ rExternalPay rs = false
    /\ In (NurseryRegisterReverseSwap id)
         (events_before is_NurseryPayReverseSwap (events_of run))
    /\ rpcserver.nursery_RegisterReverseSwap (rpcserver.nursery server) rs = None
    /\ length (List.filter is_NurseryPayReverseSwap (events_of run)) = 1
    /\ match rpcserver.nursery_PayReverseSwap (rpcserver.nursery server) rs with
       | None => world_of run = set_reverseSwaps (insert id rs) w
       | Some err =>
           In (DbUpdateReverseSwapState id SwapState_ERROR err) (events_of run)
           /\ match write_fails (rpcserver.database server)
                      (DbUpdateReverseSwapState id SwapState_ERROR err) with
              | None =>
                  result_of run = Error err
                  /\ world_of run
                     = set_reverseSwaps
                         (alter (fun row => with_rState row SwapState_ERROR err) id)
                         (set_reverseSwaps (insert id rs) w)
              | Some e =>
                  result_of run = Error e
                  /\ world_of run = set_reverseSwaps (insert id rs) w
              end
       end.

(** What a successful run returns. *)
Definition reverse_response (w : World)
    (run : res rpcserver.CreateReverseSwapResponse * World * list Event)
    (response : rpcserver.CreateReverseSwapResponse) : Prop :=
  exists rs,
    In (DbCreateReverseSwap rs) (events_of run)
    /\ world_of run = set_reverseSwaps (insert (rId rs) rs) w
    /\ rpcserver.rsId response = rId rs
    /\ In (TreeCheckAddress (rpcserver.rsLockupAddress response) None) (events_of run)
    /\ In (NurseryRegisterReverseSwap (rId rs)) (events_of run)
    /\ if rExternalPay rs
       then rpcserver.rsInvoice response = Some (rInvoice rs)
            /\ rpcserver.rsClaimTransactionId response = None
            /\ rpcserver.rsRoutingFeeMilliSat response = None
            /\ existsb is_NurseryPayReverseSwap (events_of run) = false
       else rpcserver.rsInvoice response = None
            /\ In (NurseryPayReverseSwap (rId rs)) (events_of run).



(* ===================================================================== *)
(** * Facts about the Go helpers *)
(* ===================================================================== *)

Lemma uint32_small (x : Z) : (0 <= x < 2 ^ 32)%Z -> uint32 x = x.
Proof. intros H. unfold uint32. apply Z.mod_small. exact H. Qed.

Lemma uint32_range (x : Z) : (0 <= uint32 x < 2 ^ 32)%Z.
Proof. unfold uint32. apply Z.mod_pos_bound. lia. Qed.

Lemma bytes_Equal_eq (a b : bytes) : bytes_Equal a b = true <-> a = b.
Proof.
  revert b. induction a as [|x a IH]; intros [|y b]; simpl; split; intros H;
    try reflexivity; try discriminate.
  - apply andb_true_iff in H as [Hxy Hab].
    apply Byte.byte_dec_bl in Hxy. apply IH in Hab. congruence.
  - injection H as -> ->. apply andb_true_iff. split.
    + apply Byte.byte_dec_lb. reflexivity.
    + apply IH. reflexivity.
Qed.

Lemma strings_HasPrefix_spec (s prefix : string) :
  strings_HasPrefix s prefix = true <-> exists rest, s = prefix +:+ rest.
Proof.
  revert s. induction prefix as [|c p IH]; intros s; simpl.
  - split; [intros _; exists s; reflexivity | reflexivity].
  - destruct s as [|d s'].
    + split; [discriminate | intros [rest H]; discriminate].
    + rewrite andb_true_iff, Ascii.eqb_eq, IH. split.
      * intros [-> [rest ->]]. exists rest. reflexivity.
      * intros [rest H]. injection H as -> ->. split; [reflexivity | eauto].
Qed.

(** [strings_Contains s substr] holds exactly when [substr] occurs in [s]. *)
Lemma strings_Contains_spec (s substr : string) :
  strings_Contains s substr = true <-> exists before after, s = before +:+ substr +:+ after.
Proof.
  induction s as [|c s IH]; simpl.
  - rewrite orb_false_r, strings_HasPrefix_spec. split.
    + intros [rest H]. exists EmptyString, rest. exact H.
    + intros [[|d before] [after H]]; [eauto | discriminate].
  - rewrite orb_true_iff, strings_HasPrefix_spec, IH. split.
    + intros [[rest H] | (before & after & ->)].
      * exists EmptyString, rest. exact H.
      * exists (String c before), after. reflexivity.
    + intros [[|d before] [after H]].
      * left. exists after. exact H.
      * right. injection H as -> ->. eauto.
Qed.

Lemma In_existsb {A} (f : A -> bool) (x : A) (l : list A) :
  In x l -> f x = true -> existsb f l = true.
Proof. intros. apply existsb_exists. eauto. Qed.

Lemma existsb_false_In {A} (f : A -> bool) (l : list A) :
  existsb f l = false -> forall x, In x l -> f x = false.
Proof.
  intros H x Hx. destruct (f x) eqn:Hf; [|reflexivity].
  rewrite (In_existsb f x l Hx Hf) in H. discriminate.
Qed.

(* ===================================================================== *)
(** * [findLockupVout] *)
(* ===================================================================== *)

Section FindLockupVout.

Variable n : nursery.Nursery.
Variable addressToFind : string.

(** The test of the loop body is [pays_to]. *)
Lemma pays_to_test (output : TxOut) :
  match txscript_ExtractPkScriptAddrs (nursery.libs n) (PkScript output)
          (nursery.chainParams n) with
  | Ok outputAddresses =>
      existsb (fun a => String.eqb (EncodeAddress a) addressToFind) outputAddresses
  | Error _ => false
  end = true <-> pays_to n addressToFind output.
Proof.
  unfold pays_to.
  destruct (txscript_ExtractPkScriptAddrs _ _ _) as [addrs|e].
  - rewrite existsb_exists. split.
    + intros (a & Ha & Heq). apply String.eqb_eq in Heq. eauto.
    + intros (addrs' & a & [= <-] & Ha & Heq). exists a. split; [exact Ha|].
      apply String.eqb_eq. exact Heq.
  - split; [discriminate | intros (? & ? & ? & _); discriminate].
Qed.

Lemma findLockupVout_range_spec (outputs : list TxOut) (vout : nat) :
  match nursery.findLockupVout_range n addressToFind vout outputs with
  | Ok v => exists i, v = uint32 (Z.of_nat (vout + i))
                      /\ first_lockup_output n addressToFind outputs i
  | Error e => e = "could not find lockup vout"
               /\ forall output, In output outputs -> ~ pays_to n addressToFind output
  end.
Proof.
  revert vout. induction outputs as [|output rest IH]; intros vout; simpl.
  - split; [reflexivity | intros ? []].
  - pose proof (pays_to_test output) as Htest.
    assert (Hskip :
      ~ pays_to n addressToFind output ->
      match nursery.findLockupVout_range n addressToFind (S vout) rest with
      | Ok v => exists i, v = uint32 (Z.of_nat (vout + i))
                          /\ first_lockup_output n addressToFind (output :: rest) i
      | Error e => e = "could not find lockup vout"
                   /\ forall o, output = o \/ In o rest -> ~ pays_to n addressToFind o
      end).
    { intros Hno. specialize (IH (S vout)).
      destruct (nursery.findLockupVout_range n addressToFind (S vout) rest) as [v|e].
      - destruct IH as (i & -> & (Hat & Hbefore)). exists (S i). split.
        + f_equal. lia.
        + split; [exact Hat|]. intros [|j] o Hj Ho.
          * injection Ho as <-. exact Hno.
          * apply (Hbefore j o); [lia | exact Ho].
      - destruct IH as [-> IH]. split; [reflexivity|].
        intros o [<- | Ho]; [exact Hno | exact (IH o Ho)]. }
    destruct (txscript_ExtractPkScriptAddrs _ _ _) as [addrs|e].
    + destruct (existsb _ addrs) eqn:Hex.
      * exists 0%nat. split; [f_equal; lia|]. split.
        -- exists output. split; [reflexivity | apply Htest; reflexivity].
        -- intros j o Hj. lia.
      * apply Hskip. intros Hp. apply Htest in Hp. discriminate.
    + apply Hskip. intros Hp. apply Htest in Hp. discriminate.
Qed.

Lemma first_lockup_output_unique (outputs : list TxOut) (i j : nat) :
  first_lockup_output n addressToFind outputs i ->
  first_lockup_output n addressToFind outputs j -> i = j.
Proof.
  intros [(oi & Hoi & Hpi) Hbi] [(oj & Hoj & Hpj) Hbj].
  destruct (Nat.lt_trichotomy i j) as [Hlt | [Heq | Hgt]]; [|exact Heq|].
  - exfalso. exact (Hbj i oi Hlt Hoi Hpi).
  - exfalso. exact (Hbi j oj Hgt Hoj Hpj).
Qed.

Lemma first_lockup_output_lt (outputs : list TxOut) (i : nat) :
  first_lockup_output n addressToFind outputs i -> (i < length outputs)%nat.
Proof. intros [(o & Ho & _) _]. apply lookup_lt_Some in Ho. exact Ho. Qed.

Lemma findLockupVout_Ok_first (outputs : list TxOut) (v : Z) :
  (Z.of_nat (length outputs) <= 2 ^ 32)%Z ->
  nursery.findLockupVout n addressToFind outputs = Ok v ->
  exists i, v = Z.of_nat i /\ first_lockup_output n addressToFind outputs i.
Proof.
  intros Hlen Hv. unfold nursery.findLockupVout in Hv.
  pose proof (findLockupVout_range_spec outputs 0) as Hspec.
  rewrite Hv in Hspec. destruct Hspec as (i & -> & Hi).
  exists i. split; [|exact Hi].
  apply first_lockup_output_lt in Hi as Hlt. apply uint32_small. lia.
Qed.

End FindLockupVout.

(** C7. [findLockupVout] returns the index of the first output of the
    transaction whose script decodes to an address equal to the lockup
    address; outputs whose script cannot be decoded never match; and it
    returns an error exactly when no output matches.  The index is returned
    as a [uint32]; a transaction has at most 2^32 outputs. *)
Theorem findLockupVout_first_match (n : nursery.Nursery) (addressToFind : string)
    (outputs : list TxOut) :
  (Z.of_nat (length outputs) <= 2 ^ 32)%Z ->
  (forall v, nursery.findLockupVout n addressToFind outputs = Ok v <->
             exists i, v = Z.of_nat i /\ first_lockup_output n addressToFind outputs i)
  /\ ((exists e, nursery.findLockupVout n addressToFind outputs = Error e) <->
      forall output, In output outputs -> ~ pays_to n addressToFind output)
  /\ (forall output e,
        txscript_ExtractPkScriptAddrs (nursery.libs n) (PkScript output)
          (nursery.chainParams n) = Error e ->
        ~ pays_to n addressToFind output).
Proof.
  intros Hlen. unfold nursery.findLockupVout.
  pose proof (findLockupVout_range_spec n addressToFind outputs 0) as Hspec.
  assert (Hsmall : forall i, first_lockup_output n addressToFind outputs i ->
                             uint32 (Z.of_nat i) = Z.of_nat i).
  { intros i Hi. apply first_lockup_output_lt in Hi. apply uint32_small. lia. }
  split; [|split].
  - intros v. split.
    + intros Hv. rewrite Hv in Hspec. destruct Hspec as (i & -> & Hi).
      exists i. split; [apply Hsmall; exact Hi | exact Hi].
    + intros (i & -> & Hi).
      destruct (nursery.findLockupVout_range n addressToFind 0 outputs) as [v|e].
      * destruct Hspec as (j & -> & Hj).
        rewrite (first_lockup_output_unique n addressToFind outputs i j Hi Hj).
        f_equal. apply Hsmall. exact Hj.
      * exfalso. destruct Hspec as [_ Hnone]. destruct Hi as [(o & Ho & Hp) _].
        apply (Hnone o); [|exact Hp].
        apply list_elem_of_In. apply list_elem_of_lookup. eauto.
  - split.
    + intros [e He]. rewrite He in Hspec. exact (proj2 Hspec).
    + intros Hnone.
      destruct (nursery.findLockupVout_range n addressToFind 0 outputs) as [v|e]; [|eauto].
      exfalso. destruct Hspec as (i & _ & [(o & Ho & Hp) _]).
      apply (Hnone o); [|exact Hp].
      apply list_elem_of_In. apply list_elem_of_lookup. eauto.
  - intros output e He (addrs & a & Hok & _). rewrite He in Hok. discriminate.
Qed.

Lemma findLockupVout_first_match_witness :
  nursery.findLockupVout sample_nursery "bcrt1plockup" (TxOut_ (Tx_MsgTx sample_lockup)) = Ok 2%Z
  /\ first_lockup_output sample_nursery "bcrt1plockup" (TxOut_ (Tx_MsgTx sample_lockup)) 2.
Proof.
  assert (Hlen : (Z.of_nat (length (TxOut_ (Tx_MsgTx sample_lockup))) <= 2 ^ 32)%Z)
    by (vm_compute; discriminate).
  destruct (findLockupVout_first_match sample_nursery "bcrt1plockup"
              (TxOut_ (Tx_MsgTx sample_lockup)) Hlen) as [Hfound _].
  split; [reflexivity|].
  destruct (proj1 (Hfound 2%Z) eq_refl) as (i & Hi & Hfirst).
  assert (i = 2%nat) as -> by lia. exact Hfirst.
Defined.


(* ===================================================================== *)
(** * The RPC lock *)
(* ===================================================================== *)

Section Locking.

Import rpcserver.
Variable server : routedBoltzServer.

Lemma requestAllowed_locked (w : World) (fullMethod : string) :
  locked w = true ->
  strings_Contains fullMethod "Unlock" = false ->
  requestAllowed server fullMethod w
  = (Error errLocked, w, [Log Warning ("RPC request failed: " +:+ errLocked)]).
Proof.
  intros Hlocked Hmethod. unfold requestAllowed, bind, on_error, get_world.
  rewrite Hlocked, Hmethod. reflexivity.
Qed.

Lemma requestAllowed_pass (w : World) (fullMethod : string) :
  locked w = false \/ strings_Contains fullMethod "Unlock" = true ->
  requestAllowed server fullMethod w = (Ok tt, w, []).
Proof.
  intros H. unfold requestAllowed, bind, on_error, get_world.
  destruct H as [-> | ->]; [reflexivity|].
  rewrite andb_false_r. reflexivity.
Qed.

Lemma login_range_world (credentials : list Credentials) (w : World) :
  world_of (login_range (wallets server) credentials w) = w.
Proof.
  induction credentials as [|creds rest IH]; [reflexivity|].
  cbn [login_range]. unfold bind, on_error, lift, emit, fail.
  destruct (wallet_Login (wallets server) creds) as [wallet|e]; [|reflexivity].
  specialize IH. destruct (login_range (wallets server) rest w) as [[r w1] t1].
  destruct r; exact IH.
Qed.

(** [unlock] leaves the world as it was, except that it clears [locked]
    when it succeeds; and it succeeds only on a locked server. *)
Lemma unlock_world (password : string) (w : World) :
  world_of (unlock server password w)
  = if is_error (result_of (unlock server password w)) then w else set_locked false w.
Proof.
  unfold unlock, decryptWalletCredentials, bind, on_error, get_world, lift, emit, fail, ret,
    logger_Debug, logger_Warning, emit.
  destruct (locked w); [|reflexivity]. cbn [negb].
  destruct (database_QueryWalletCredentials (wallets server)) as [credentials|e];
    [|reflexivity].
  destruct (decrypt_range (wallets server) password credentials []) as [decrypted|e];
    [|reflexivity].
  pose proof (login_range_world decrypted w) as Hlogin.
  destruct (login_range (wallets server) decrypted w) as [[r w1] t1].
  cbn [world_of fst snd] in Hlogin. subst w1.
  destruct r as [[]|e]; [|reflexivity].
  destruct (swapper_LoadConfig (wallets server)), (nursery_Init (nursery server));
    reflexivity.
Qed.

Lemma unlock_needs_lock (password : string) (w : World) :
  locked w = false ->
  unlock server password w = (Error "boltzd already unlocked!", w, []).
Proof.
  intros H. unfold unlock, bind, on_error, get_world, fail. rewrite H. reflexivity.
Qed.

End Locking.

(** C10. While [locked] is set, both interceptors answer every request
    whose method name does not contain "Unlock" with [errLocked] (and a
    warning in the log), whatever the handler is: the handler is not run and
    the world is untouched.  [unlock] clears the flag exactly when it
    succeeds, and with the flag cleared the interceptors run the handler. *)
Theorem locked_server_rejects_requests (server : rpcserver.routedBoltzServer) :
  (forall (Req Resp : Type) (req : Req) (info : rpcserver.ServerInfo)
          (handler : Req -> M Resp) (w : World),
      locked w = true ->
      strings_Contains (rpcserver.FullMethod info) "Unlock" = false ->
      rpcserver.UnaryServerInterceptor server req info handler w
      = (Error rpcserver.errLocked, w,
         [Log Warning ("RPC request failed: " +:+ rpcserver.errLocked)]))
  /\ (forall (Srv Stream : Type) (srv : Srv) (ss : Stream) (info : rpcserver.ServerInfo)
             (handler : Srv -> Stream -> M unit) (w : World),
      locked w = true ->
      strings_Contains (rpcserver.FullMethod info) "Unlock" = false ->
      rpcserver.StreamServerInterceptor server srv ss info handler w
      = (Error rpcserver.errLocked, w,
         [Log Warning ("RPC request failed: " +:+ rpcserver.errLocked)]))
  /\ (forall (password : string) (w : World),
        (result_of (rpcserver.unlock server password w) = Ok tt ->
           locked w = true /\ locked (world_of (rpcserver.unlock server password w)) = false)
        /\ (is_error (result_of (rpcserver.unlock server password w)) = true ->
              world_of (rpcserver.unlock server password w) = w))
  /\ (forall (Req Resp : Type) (req : Req) (info : rpcserver.ServerInfo)
             (handler : Req -> M Resp) (w : World),
        locked w = false ->
        rpcserver.UnaryServerInterceptor server req info handler w = handler req w)
  /\ (forall (Srv Stream : Type) (srv : Srv) (ss : Stream) (info : rpcserver.ServerInfo)
             (handler : Srv -> Stream -> M unit) (w : World),
        locked w = false ->
        rpcserver.StreamServerInterceptor server srv ss info handler w = handler srv ss w).
Proof.
  assert (Hpass : forall A (m : M A) w, on_error (fun w0 => (Ok tt, w0, [])) fail (fun _ => m) w = m w).
  { intros A m w. unfold on_error. destruct (m w) as [[r w1] t1]. reflexivity. }
  split; [|split; [|split; [|split]]].
  - intros Req Resp req info handler w Hlocked Hmethod.
    unfold rpcserver.UnaryServerInterceptor, bind, on_error.
    rewrite (requestAllowed_locked server w _ Hlocked Hmethod). reflexivity.
  - intros Srv Stream srv ss info handler w Hlocked Hmethod.
    unfold rpcserver.StreamServerInterceptor, bind, on_error.
    rewrite (requestAllowed_locked server w _ Hlocked Hmethod). reflexivity.
  - intros password w. pose proof (unlock_world server password w) as Hworld. split.
    + intros Hok. rewrite Hok in Hworld. cbn [is_error] in Hworld. rewrite Hworld.
      split; [|reflexivity].
      destruct (locked w) eqn:Hlocked; [reflexivity|].
      rewrite (unlock_needs_lock server password w Hlocked) in Hok. discriminate.
    + intros Herr. rewrite Herr in Hworld. exact Hworld.
  - intros Req Resp req info handler w Hlocked.
    unfold rpcserver.UnaryServerInterceptor, bind, on_error.
    rewrite (requestAllowed_pass server w _ (or_introl Hlocked)).
    destruct (handler req w) as [[r w1] t1]. reflexivity.
  - intros Srv Stream srv ss info handler w Hlocked.
    unfold rpcserver.StreamServerInterceptor, bind, on_error.
    rewrite (requestAllowed_pass server w _ (or_introl Hlocked)).
    destruct (handler srv ss w) as [[r w1] t1]. reflexivity.
Qed.

(** A locked sample server: [GetInfo] is refused without running its
    handler, [Unlock] goes through and clears the flag. *)
Lemma locked_server_rejects_requests_witness :
  let server := sample_server "bcrt1plockup" "lnbcrt1invoice" in
  let w := set_locked true sample_world in
  rpcserver.UnaryServerInterceptor server tt
    {| rpcserver.FullMethod := "/boltzrpc.Boltz/GetInfo" |}
    (fun _ => database_CreateSwap sample_database (sample_swap 800000)) w
  = (Error rpcserver.errLocked, w,
     [Log Warning ("RPC request failed: " +:+ rpcserver.errLocked)])
  /\ locked (world_of (rpcserver.unlock server "secret" w)) = false.
Proof.
  intros server w.
  destruct (locked_server_rejects_requests server) as (Hunary & _ & Hunlock & _).
  split.
  - apply Hunary; reflexivity.
  - apply (Hunlock "secret" w). reflexivity.
Defined.


(* ===================================================================== *)
(** * The status websocket *)
(* ===================================================================== *)

Section Websocket.

Import websocket.
Variable net : Net.

Lemma Close_closed (ws : BoltzWebsocket) : closed (snd (Close net ws)) = true.
Proof. unfold Close. cbn. destruct (conn ws); reflexivity. Qed.

Lemma Connect_closed (ws : BoltzWebsocket) (dialed : res nat) :
  closed ws = true -> Connect net ws dialed = (Error "websocket is closed", ws, []).
Proof. intros H. unfold Connect. rewrite H. reflexivity. Qed.

Lemma Connect_keeps_closed (ws : BoltzWebsocket) (dialed : res nat) :
  closed (snd (fst (Connect net ws dialed))) = closed ws.
Proof.
  unfold Connect. destruct (closed ws) eqn:Hc; [exact Hc|].
  destruct (url_Parse net (apiUrl ws)); [|exact Hc].
  destruct dialed; exact Hc.
Qed.

(** Once the client has closed the websocket, the reconnect loop goes
    round for ever: every pass logs, sleeps and calls [Connect], which
    refuses without dialing, and the loop does not return. *)
Lemma reconnectLoop_closed (ws : BoltzWebsocket) (rounds : list Round) :
  closed ws = true ->
  fst (fst (reconnectLoop net ws rounds)) = Running
  /\ closed (snd (fst (reconnectLoop net ws rounds))) = true
  /\ count_events is_Sleep (snd (reconnectLoop net ws rounds)) = length rounds
  /\ count_events is_lost_connection_log (snd (reconnectLoop net ws rounds)) = length rounds
  /\ count_events is_Dial (snd (reconnectLoop net ws rounds)) = 0%nat
  /\ ~ In UpdatesClose (snd (reconnectLoop net ws rounds)).
Proof.
  revert ws. induction rounds as [|round rest IH]; intros ws Hclosed.
  - cbn. auto 10.
  - cbn [reconnectLoop].
    set (ws1 := if closes round then snd (Close net ws) else ws).
    assert (Hclosed1 : closed ws1 = true).
    { subst ws1. destruct (closes round); [apply Close_closed | exact Hclosed]. }
    rewrite (Connect_closed ws1 (dialed round) Hclosed1).
    specialize (IH ws1 Hclosed1).
    destruct (reconnectLoop net ws1 rest) as [[o ws2] evs].
    cbn [fst snd] in IH |- *. destruct IH as (Ho & Hc & Hs & Hl & Hd & Hu).
    unfold count_events in *. cbn. rewrite Hs, Hl, Hd.
    repeat split; try assumption; try reflexivity.
    intros [H | [H | H]]; [discriminate H | discriminate H | exact (Hu H)].
Qed.

(** While the client has not closed it, the loop sleeps the fixed interval
    before every attempt and returns at the first attempt that succeeds,
    however many attempts failed before. *)
Lemma reconnectLoop_until_success (ws : BoltzWebsocket) (failures : list error) (c : nat)
    (rest : list Round) (u : Url) :
  closed ws = false ->
  url_Parse net (apiUrl ws) = Ok u ->
  let rounds :=
    List.map (fun e => {| closes := false; dialed := Error e |}) failures
    ++ {| closes := false; dialed := Ok c |} :: rest in
  fst (fst (reconnectLoop net ws rounds)) = Returned
  /\ conn (snd (fst (reconnectLoop net ws rounds))) = Some c
  /\ count_events is_Sleep (snd (reconnectLoop net ws rounds)) = S (length failures)
  /\ count_events is_Dial (snd (reconnectLoop net ws rounds)) = S (length failures)
  /\ Forall (fun ev => is_Sleep ev = true -> ev = Sleep (15 * 1000000000)%Z)
       (snd (reconnectLoop net ws rounds)).
Proof.
  intros Hopen Hurl rounds. subst rounds. revert ws Hopen Hurl.
  induction failures as [|e failures IH]; intros ws Hopen Hurl.
  - cbn [List.map app reconnectLoop closes dialed]. unfold Connect.
    rewrite Hopen, Hurl. cbn.
    repeat split; try reflexivity.
    repeat constructor; intros; discriminate.
  - cbn [List.map app reconnectLoop closes dialed]. unfold Connect at 1 2 3 4 5.
    rewrite Hopen, Hurl. cbn [fst snd].
    assert (Hopen' : closed (with_conn ws None) = false) by exact Hopen.
    assert (Hurl' : url_Parse net (apiUrl (with_conn ws None)) = Ok u) by exact Hurl.
    specialize (IH (with_conn ws None) Hopen' Hurl').
    destruct (reconnectLoop net (with_conn ws None) _) as [[o ws2] evs].
    cbn [fst snd] in IH |- *. destruct IH as (Ho & Hc & Hs & Hd & Hall).
    unfold count_events in *. cbn. rewrite Hs, Hd.
    repeat split; try assumption; try reflexivity.
    repeat (constructor; [intros; first [reflexivity | discriminate]|]). exact Hall.
Qed.

(** The read loop does stop when the connection fails after [Close]. *)
Lemma readLoop_closed (ws : BoltzWebsocket) (c : nat) (err : string) (rest : list Step) :
  closed ws = true ->
  readLoop net ws c (Incoming (ReadError err) :: rest) = (Returned, ws, [UpdatesClose]).
Proof. intros H. cbn. rewrite H. reflexivity. Qed.

Lemma readLoop_lost (ws : BoltzWebsocket) (c : nat) (err : string) (rest : list Step) :
  closed ws = false ->
  fst (fst (readLoop net ws c (Incoming (ReadError err) :: rest))) = LostConnection.
Proof. intros H. cbn. rewrite H. reflexivity. Qed.

End Websocket.

(** C8 (the code breaks the last part of the claim).  After the read loop
    has lost a connection that the client had not closed, the goroutine is
    in the reconnect loop.  If the client now calls [Close], then whatever
    the later rounds bring the goroutine never returns: in every round it
    logs, sleeps 15 seconds and calls [Connect] again, which fails with
    "websocket is closed" before it dials; [Updates] is never closed. *)
Theorem reconnect_goes_on_after_Close (net : websocket.Net) (ws : websocket.BoltzWebsocket)
    (c : nat) (err : string) (rounds : list websocket.Round) :
  websocket.closed ws = false ->
  let closing := {| websocket.closes := true; websocket.dialed := Ok c |} in
  let run := websocket.reader net ws c [websocket.Incoming (websocket.ReadError err)]
               (closing :: rounds) in
  fst (fst run) = websocket.Running
  /\ websocket.closed (snd (fst run)) = true
  /\ count_events is_Sleep (snd run) = S (length rounds)
  /\ count_events is_Dial (snd run) = 0%nat
  /\ ~ In websocket.UpdatesClose (snd run).
Proof.
  intros Hopen closing run. subst run closing. unfold websocket.reader.
  cbn [websocket.readLoop]. rewrite Hopen.
  cbn [websocket.reconnectLoop websocket.closes websocket.dialed].
  rewrite (Connect_closed net _ (Ok c) (Close_closed net ws)).
  pose proof (reconnectLoop_closed net (snd (websocket.Close net ws)) rounds
                (Close_closed net ws)) as (Ho & Hc & Hs & Hl & Hd & Hu).
  destruct (websocket.reconnectLoop net _ rounds) as [[o ws2] evs].
  cbn [fst snd] in *. unfold count_events in *. cbn. rewrite Hs, Hd.
  repeat split; try assumption; try reflexivity.
  intros [H | [H | [H | H]]]; [discriminate H | discriminate H | discriminate H | exact (Hu H)].
Qed.

(** The sample websocket loses its connection, the client closes it during
    the first sleep, and three later dials would succeed: the goroutine is
    still running after four rounds and has not dialed once. *)
Lemma reconnect_goes_on_after_Close_witness :
  let again := {| websocket.closes := false; websocket.dialed := Ok 2%nat |} in
  let run := websocket.reader sample_net sample_websocket 1
               [websocket.Incoming (websocket.ReadError "EOF")]
               ({| websocket.closes := true; websocket.dialed := Ok 2%nat |}
                :: [again; again; again]) in
  fst (fst run) = websocket.Running /\ count_events is_Sleep (snd run) = 4%nat.
Proof.
  intros again run.
  destruct (reconnect_goes_on_after_Close sample_net sample_websocket 2 "EOF"
              [again; again; again] eq_refl) as (Ho & _ & Hs & _).
  split; [exact Ho | exact Hs].
Defined.

(** C9. [Subscribe] with no ids returns nil and sends nothing.  With ids,
    once the request is written, it returns nil when the acknowledgement
    reaches [subscriptions] before the 5 second timer and the error "no
    answer from boltz" when none arrives within 5 seconds; when the request
    cannot be written it returns that error at once. *)
Theorem Subscribe_waits_for_acknowledgement (net : websocket.Net)
    (ws : websocket.BoltzWebsocket) (swapIds : list string) (race : websocket.Race) :
  (swapIds = [] -> websocket.Subscribe net ws swapIds race = (Ok tt, []))
  /\ (swapIds <> [] ->
      forall send c,
        websocket.json_Marshal_subscribe net swapIds = Ok send ->
        websocket.conn ws = Some c ->
        websocket.conn_WriteMessage net c (websocket.TextMessage send) = None ->
        snd (websocket.Subscribe net ws swapIds race)
        = [websocket.WriteMessage c (websocket.TextMessage send)]
        /\ (forall t, websocket.arrival race = Some t -> (t < 5000000000)%Z ->
                      fst (websocket.Subscribe net ws swapIds race) = Ok tt)
        /\ (websocket.arrival race = None
            \/ (exists t, websocket.arrival race = Some t /\ (5000000000 < t)%Z) ->
            fst (websocket.Subscribe net ws swapIds race) = Error "no answer from boltz"))
  /\ (swapIds <> [] ->
      forall e evs,
        websocket.SendJson_subscribe net ws swapIds = (Error e, evs) ->
        websocket.Subscribe net ws swapIds race = (Error e, evs)).
Proof.
  split; [|split].
  - intros ->. reflexivity.
  - intros Hne send c Hm Hc Hw. unfold websocket.Subscribe.
    destruct swapIds as [|id ids]; [contradiction|]. cbn [length Nat.eqb].
    unfold websocket.SendJson_subscribe. rewrite Hm, Hc, Hw. cbn [of_error].
    unfold websocket.received_before, websocket.Second.
    change (5 * 1000000000)%Z with 5000000000%Z.
    split; [|split].
    + destruct (websocket.arrival race) as [t|]; [|reflexivity].
      destruct (t <? 5000000000)%Z; [reflexivity|].
      destruct (5000000000 <? t)%Z; [reflexivity|]. destruct (websocket.tie race); reflexivity.
    + intros t -> Ht. apply Z.ltb_lt in Ht. rewrite Ht. reflexivity.
    + intros [-> | (t & -> & Ht)]; [reflexivity|].
      assert (Hge : (t <? 5000000000)%Z = false) by (apply Z.ltb_ge; lia).
      apply Z.ltb_lt in Ht. rewrite Hge, Ht. reflexivity.
  - intros Hne e evs Hsend. unfold websocket.Subscribe.
    destruct swapIds as [|id ids]; [contradiction|]. cbn [length Nat.eqb].
    rewrite Hsend. reflexivity.
Qed.

(** On the sample websocket: an acknowledgement after one second is in
    time, one after six seconds is not. *)
Lemma Subscribe_waits_for_acknowledgement_witness :
  websocket.Subscribe sample_net sample_websocket ["swap1"]
    {| websocket.arrival := Some 1000000000%Z; websocket.tie := false |}
  = (Ok tt, [websocket.WriteMessage 1 (websocket.TextMessage "swap1")])
  /\ fst (websocket.Subscribe sample_net sample_websocket ["swap1"]
            {| websocket.arrival := Some 6000000000%Z; websocket.tie := true |})
     = Error "no answer from boltz".
Proof.
  split.
  - reflexivity.
  - destruct (Subscribe_waits_for_acknowledgement sample_net sample_websocket ["swap1"]
                {| websocket.arrival := Some 6000000000%Z; websocket.tie := true |})
      as (_ & Hsent & _).
    destruct (Hsent ltac:(discriminate) "swap1" 1%nat eq_refl eq_refl eq_refl)
      as (_ & _ & Hlate).
    apply Hlate. right. exists 6000000000%Z. split; [reflexivity | reflexivity].
Defined.


(* ===================================================================== *)
(** * The nursery: status updates and refunds *)
(* ===================================================================== *)

Lemma ParseEvent_String (e : SwapUpdateEvent) :
  e <> UnknownEvent -> ParseEvent (SwapUpdateEvent_String e) = e.
Proof. destruct e; intros H; first [reflexivity | contradiction]. Qed.

Lemma ConstructRefundTransaction_Ok (l : Libs) (lockupTransaction : Tx) (lockupVout : Z)
    (privateKey : PrivateKey) (redeemScript : bytes) (address : BtcAddress)
    (timeoutBlockHeight : Z) (tx : MsgTx) :
  ConstructRefundTransaction l lockupTransaction lockupVout privateKey redeemScript address
    timeoutBlockHeight = Ok tx ->
  LockTime tx = timeoutBlockHeight
  /\ List.map PreviousOutPoint (TxIn_ tx)
     = [ {| OutPoint_Hash := Tx_Hash lockupTransaction; OutPoint_Index := lockupVout |} ]
  /\ List.map PkScript (TxOut_ tx) = [ txscript_PayToAddrScript l address ].
Proof.
  unfold ConstructRefundTransaction.
  destruct (refund_value_witness_sequence _ _ _ _ _ _ _) as [[[value witness] sequence]|e];
    [|discriminate].
  intros [= <-]. auto.
Qed.

Ltac destruct_scrutinee H :=
  match type of H with
  | context [match ?x with _ => _ end] =>
      lazymatch x with
      | context [match _ with _ => _ end] => fail
      | _ => destruct x eqn:?
      end
  end.

(** Pick the element of a concrete list that an [In] hypothesis is about. *)
Ltac pick_event H :=
  cbn [In] in H;
  repeat (destruct H as [H | H]; [try discriminate H | ]);
  try contradiction.

Ltac find_event := cbn [In]; repeat (first [left; reflexivity | right]).

Ltac run_nursery H :=
  cbv beta iota zeta delta
    [nursery.refundSwap nursery.NewAddress nursery.BroadcastTransaction
     nursery.handleSwapStatus database_UpdateSwapStatus
     bind on_error logger_Info logger_Warning logger_Error emit ret fail lift] in H;
  repeat (destruct_scrutinee H; cbv beta iota zeta in H).

(** What a run of [refundSwap] that built a refund transaction went through. *)
Lemma refundSwap_constructed (n : nursery.Nursery) (swap : Swap) (w : World)
    (lockupVout : Z) (destination : BtcAddress) (tx : MsgTx) :
  In (RefundConstructed lockupVout destination tx) (events_of (nursery.refundSwap n swap w)) ->
  exists addressString response raw lockupTransaction,
    nursery.lnd_NewAddress (nursery.lnd n) = Ok addressString
    /\ btcutil_DecodeAddress (nursery.libs n) addressString (nursery.chainParams n)
       = Ok destination
    /\ nursery.boltz_GetSwapTransaction (nursery.boltz n) (Id swap) = Ok response
    /\ hex_DecodeString (nursery.libs n) (nursery.TransactionHex response) = Ok raw
    /\ btcutil_NewTxFromBytes (nursery.libs n) raw = Ok lockupTransaction
    /\ nursery.findLockupVout n (Address swap) (TxOut_ (Tx_MsgTx lockupTransaction))
       = Ok lockupVout
    /\ ConstructRefundTransaction (nursery.libs n) lockupTransaction lockupVout
         (PrivateKey_ swap) (RedeemScript swap) destination
         (uint32 (TimoutBlockHeight swap)) = Ok tx
    /\ In LightningNewAddress
         (events_before is_RefundConstructed (events_of (nursery.refundSwap n swap w))).
Proof.
  intros HIn.
  pose proof (In_existsb is_RefundConstructed _ _ HIn eq_refl) as Hc.
  destruct (nursery.refundSwap n swap w) as [[r w'] evs] eqn:Hrun.
  unfold nursery.refundSwap, nursery.handleSwapStatus in Hrun.
  rewrite (ParseEvent_String SwapRefunded) in Hrun by discriminate.
  run_nursery Hrun.
  all: injection Hrun as <- <- <-.
  all: cbn [events_of snd app existsb is_RefundConstructed orb] in Hc; try discriminate Hc.
  all: cbn [events_of snd app] in HIn |- *; pick_event HIn; injection HIn as <- <- <-.
  all: eexists _, _, _, _; repeat (split; [first [reflexivity | eassumption]|]).
  all: cbn [events_before is_RefundConstructed In]; auto.
Qed.

(** C3.  Every refund transaction that [refundSwap] builds has as lock
    time the swap's timeout block height, and its only input spends the
    output of the lockup transaction (the one the exchange returned for
    the swap) that [findLockupVout] located: the first output at the swap's
    lockup address.  The timeout of a swap is a block height the exchange
    gave as a [uint32], and [refundSwap] passes [uint32(swap.TimoutBlockHeight)]
    on: in that range the conversion changes nothing, and the lock time is
    the timeout itself. *)
Theorem refund_locks_until_timeout_and_spends_lockup (n : nursery.Nursery) (swap : Swap)
    (w : World) (lockupVout : Z) (destination : BtcAddress) (tx : MsgTx) :
  In (RefundConstructed lockupVout destination tx) (events_of (nursery.refundSwap n swap w)) ->
  LockTime tx = uint32 (TimoutBlockHeight swap)
  /\ ((0 <= TimoutBlockHeight swap < 2 ^ 32)%Z -> LockTime tx = TimoutBlockHeight swap)
  /\ exists response raw lockupTransaction,
       nursery.boltz_GetSwapTransaction (nursery.boltz n) (Id swap) = Ok response
       /\ hex_DecodeString (nursery.libs n) (nursery.TransactionHex response) = Ok raw
       /\ btcutil_NewTxFromBytes (nursery.libs n) raw = Ok lockupTransaction
       /\ List.map PreviousOutPoint (TxIn_ tx)
          = [ {| OutPoint_Hash := Tx_Hash lockupTransaction; OutPoint_Index := lockupVout |} ]
       /\ nursery.findLockupVout n (Address swap) (TxOut_ (Tx_MsgTx lockupTransaction))
          = Ok lockupVout
       /\ ((Z.of_nat (length (TxOut_ (Tx_MsgTx lockupTransaction))) <= 2 ^ 32)%Z ->
           exists i, lockupVout = Z.of_nat i
                     /\ first_lockup_output n (Address swap)
                          (TxOut_ (Tx_MsgTx lockupTransaction)) i).
Proof.
  intros HIn.
  destruct (refundSwap_constructed n swap w lockupVout destination tx HIn)
    as (addressString & response & raw & lockupTransaction
        & _ & _ & Hget & Hhex & Hparse & Hvout & Hconstruct & _).
  apply ConstructRefundTransaction_Ok in Hconstruct as (Hlock & Hin & _).
  split; [exact Hlock|]. split.
  - intros Hrange. rewrite Hlock. apply uint32_small. exact Hrange.
  - exists response, raw, lockupTransaction. repeat (split; [assumption|]).
    intros Hlen. exact (findLockupVout_Ok_first n (Address swap) _ _ Hlen Hvout).
Qed.

Lemma refund_locks_until_timeout_and_spends_lockup_witness :
  exists tx,
    In (RefundConstructed 2 {| EncodeAddress := "bcrt1qfresh" |} tx)
       (events_of (nursery.refundSwap sample_nursery (sample_swap 800000) sample_world))
    /\ LockTime tx = 800000%Z
    /\ List.map PreviousOutPoint (TxIn_ tx)
       = [ {| OutPoint_Hash := "c0ffee"; OutPoint_Index := 2 |} ].
Proof.
  eexists.
  assert (HIn : In (RefundConstructed 2 {| EncodeAddress := "bcrt1qfresh" |}
                      {| TxIn_ := [ {| PreviousOutPoint :=
                                         {| OutPoint_Hash := "c0ffee"; OutPoint_Index := 2 |};
                                       Witness := []; Sequence := 0 |} ];
                         TxOut_ := [ {| Value := 100000;
                                        PkScript := list_byte_of_string "bcrt1qfresh" |} ];
                         LockTime := 800000 |})
                   (events_of (nursery.refundSwap sample_nursery (sample_swap 800000)
                                 sample_world))).
  { vm_compute. repeat (first [left; reflexivity | right]). }
  split; [exact HIn|].
  destruct (refund_locks_until_timeout_and_spends_lockup _ _ _ _ _ _ HIn) as (_ & Hlock & _).
  split; [|reflexivity].
  apply Hlock. cbn. lia.
Defined.

(** C4.  The code does not do what the claim says.  The output of every
    refund transaction that [refundSwap] builds pays the address that
    [lnd.NewAddress] returned in this very run: a new address is asked of
    the node first, whatever the swap's stored refund address is, and when
    the node gives none no refund transaction is built, although an address
    may be stored. *)
Theorem refund_pays_new_node_address (n : nursery.Nursery) (swap : Swap) (w : World) :
  (forall lockupVout destination tx,
     In (RefundConstructed lockupVout destination tx)
        (events_of (nursery.refundSwap n swap w)) ->
     In LightningNewAddress
        (events_before is_RefundConstructed (events_of (nursery.refundSwap n swap w)))
     /\ (exists addressString,
           nursery.lnd_NewAddress (nursery.lnd n) = Ok addressString
           /\ btcutil_DecodeAddress (nursery.libs n) addressString (nursery.chainParams n)
              = Ok destination)
     /\ List.map PkScript (TxOut_ tx) = [ txscript_PayToAddrScript (nursery.libs n) destination ])
  /\ (forall err,
        nursery.lnd_NewAddress (nursery.lnd n) = Error err ->
        nursery.refundSwap n swap w
        = (Ok tt, w, [LightningNewAddress;
                      Log ErrorLevel ("Could not get new address from LND: " +:+ err)])).
Proof.
  split.
  - intros lockupVout destination tx HIn.
    destruct (refundSwap_constructed n swap w lockupVout destination tx HIn)
      as (addressString & response & raw & lockupTransaction
          & Hnew & Hdecode & _ & _ & _ & _ & Hconstruct & Hbefore).
    apply ConstructRefundTransaction_Ok in Hconstruct as (_ & _ & Hout).
    split; [exact Hbefore|]. split; [eauto | exact Hout].
  - intros err Herr. unfold nursery.refundSwap, nursery.NewAddress, on_error, bind, on_error,
      emit, lift, logger_Error, emit. rewrite Herr. reflexivity.
Qed.

(** On the sample nursery the refund pays "bcrt1qfresh", the address the
    node returned. *)
Lemma refund_pays_new_node_address_witness :
  exists tx,
    In (RefundConstructed 2 {| EncodeAddress := "bcrt1qfresh" |} tx)
       (events_of (nursery.refundSwap sample_nursery (sample_swap 800000) sample_world))
    /\ List.map PkScript (TxOut_ tx) = [ list_byte_of_string "bcrt1qfresh" ].
Proof.
  eassert (HIn : In (RefundConstructed 2 {| EncodeAddress := "bcrt1qfresh" |} _)
                   (events_of (nursery.refundSwap sample_nursery (sample_swap 800000)
                                 sample_world))).
  { vm_compute. repeat (first [left; reflexivity | right]). }
  destruct (proj1 (refund_pays_new_node_address sample_nursery (sample_swap 800000)
                     sample_world) _ _ _ HIn) as (_ & _ & Hout).
  eexists. split; [exact HIn | exact Hout].
Defined.

(** The sample swap has the stored refund address "bcrt1qstored", and its
    refund asks the node for a new address and pays that one. *)
Lemma refund_ignores_stored_address_counterexample :
  RefundAddress (sample_swap 800000) = "bcrt1qstored"
  /\ exists lockupVout destination tx,
       In (RefundConstructed lockupVout destination tx)
          (events_of (nursery.refundSwap sample_nursery (sample_swap 800000) sample_world))
       /\ In LightningNewAddress
            (events_of (nursery.refundSwap sample_nursery (sample_swap 800000) sample_world))
       /\ EncodeAddress destination = "bcrt1qfresh"
       /\ List.map PkScript (TxOut_ tx)
          = [ txscript_PayToAddrScript sample_libs {| EncodeAddress := "bcrt1qfresh" |} ]
       /\ List.map PkScript (TxOut_ tx)
          <> [ txscript_PayToAddrScript sample_libs
                 {| EncodeAddress := RefundAddress (sample_swap 800000) |} ].
Proof.
  split; [reflexivity|].
  eexists _, _, _. split; [|split; [|split; [|split]]].
  - vm_compute. repeat (first [left; reflexivity | right]).
  - vm_compute. left. reflexivity.
  - reflexivity.
  - reflexivity.
  - vm_compute. discriminate.
Qed.


Ltac settle :=
  repeat match goal with
         | H : ~ ?P, H' : ?P |- _ => destruct (H H')
         | |- _ /\ _ => split
         | |- ~ _ => intro
         | |- forall _, _ => intro
         | H : exists _, _ |- _ => destruct H
         | H : _ /\ _ |- _ => destruct H
         | H : _ \/ _ |- _ => destruct H
         | H : False |- _ => destruct H
         | H : Ok _ = Ok _ |- _ => injection H as H; try subst
         | H : _ = ?ev |- _ => is_var ev; subst ev
         | H : Ok _ = Error _ |- _ => discriminate H
         | H : Error _ = Ok _ |- _ => discriminate H
         end;
  try first [reflexivity | congruence | solve [eauto]].

(** C2. On [transaction.claimed] the nursery writes the new status of the
    swap (and hands it on in the in-memory swap) exactly when the invoice
    decodes, the node finds it and reports it settled; a refused write only
    leaves the row as it was.  When the invoice cannot be decoded, the
    lookup fails or the invoice is not settled, [handleSwapStatus] returns
    with the world and the swap unchanged and without a database write. *)
Theorem claimed_status_needs_settled_invoice (n : nursery.Nursery) (swap : Swap) (w : World) :
  let run := nursery.handleSwapStatus n swap "transaction.claimed" w in
  (invoice_settled n swap ->
     In (DbUpdateSwapStatus (Id swap) TransactionClaimed) (events_of run)
     /\ result_of run = Ok (with_Status swap TransactionClaimed)
     /\ (write_fails (nursery.database n) (DbUpdateSwapStatus (Id swap) TransactionClaimed)
         = None ->
         forall row, swaps w !! Id swap = Some row ->
                     swaps (world_of run) !! Id swap = Some (with_Status row TransactionClaimed)))
  /\ (~ invoice_settled n swap ->
        world_of run = w /\ result_of run = Ok swap /\ no_db_write (events_of run))
  /\ (forall err,
        zpay32_Decode (nursery.libs n) (Invoice swap) (nursery.chainParams n) = Error err ->
        ~ invoice_settled n swap)
  /\ (forall decodedInvoice err,
        zpay32_Decode (nursery.libs n) (Invoice swap) (nursery.chainParams n)
        = Ok decodedInvoice ->
        nursery.lnd_LookupInvoice (nursery.lnd n) (PaymentHash decodedInvoice) = Error err ->
        ~ invoice_settled n swap)
  /\ (forall decodedInvoice invoiceInfo,
        zpay32_Decode (nursery.libs n) (Invoice swap) (nursery.chainParams n)
        = Ok decodedInvoice ->
        nursery.lnd_LookupInvoice (nursery.lnd n) (PaymentHash decodedInvoice)
        = Ok invoiceInfo ->
        Invoice_State invoiceInfo <> Invoice_SETTLED ->
        ~ invoice_settled n swap)
  /\ (world_of run <> w -> invoice_settled n swap).
Proof.
  intros run. subst run. unfold invoice_settled, no_db_write.
  unfold nursery.handleSwapStatus.
  change (ParseEvent "transaction.claimed") with TransactionClaimed.
  cbv beta iota zeta delta
    [database_UpdateSwapStatus bind on_error logger_Info logger_Warning logger_Error
     emit ret fail lift].
  destruct (zpay32_Decode (nursery.libs n) (Invoice swap) (nursery.chainParams n))
    as [decodedInvoice|err] eqn:Hdecode; [|cbn; settle].
  destruct (nursery.lnd_LookupInvoice (nursery.lnd n) (PaymentHash decodedInvoice))
    as [invoiceInfo|err] eqn:Hlookup; [|cbn; settle].
  destruct (Invoice_State invoiceInfo) eqn:Hstate; cbn [InvoiceState_eqb negb].
  1, 3, 4: solve [cbn; settle].
  assert (Hsettled : exists d i,
             (Ok decodedInvoice : res Invoice_) = Ok d
             /\ nursery.lnd_LookupInvoice (nursery.lnd n) (PaymentHash d) = Ok i
             /\ Invoice_State i = Invoice_SETTLED) by eauto.
  destruct (write_fails (nursery.database n) (DbUpdateSwapStatus (Id swap) TransactionClaimed))
    as [e|] eqn:Hwrite; cbn.
  - settle.
  - settle. rewrite lookup_alter_eq. match goal with H : _ !! _ = Some _ |- _ => rewrite H end.
    reflexivity.
Qed.

(** On the sample nursery the node reports every invoice settled: the row
    of the swap gets the status [TransactionClaimed]. *)
Lemma claimed_status_needs_settled_invoice_witness :
  let w := set_swaps (insert "swap1" (sample_swap 800000)) sample_world in
  let run := nursery.handleSwapStatus sample_nursery (sample_swap 800000)
               "transaction.claimed" w in
  swaps (world_of run) !! "swap1" = Some (with_Status (sample_swap 800000) TransactionClaimed).
Proof.
  intros w run.
  destruct (claimed_status_needs_settled_invoice sample_nursery (sample_swap 800000) w)
    as (Hsettled & _).
  assert (Hs : invoice_settled sample_nursery (sample_swap 800000)).
  { eexists _, _. repeat split; reflexivity. }
  destruct (Hsettled Hs) as (_ & _ & Hrow).
  apply (Hrow eq_refl). unfold w. cbn. apply lookup_insert_eq.
Defined.


(* ===================================================================== *)
(** * Swap creation *)
(* ===================================================================== *)

Ltac unfold_run H :=
  cbv beta iota zeta delta
    [rpcserver.createSwap rpcserver.GetSubmarinePair rpcserver.createSwap_preimage
     rpcserver.createReverseSwap rpcserver.GetReversePair
     bind on_error rpcserver.return_handleError rpcserver.handleError
     logger_Info logger_Warning logger_Error logger_Debug emit ret fail lift get_world
     rpcserver.Check rpcserver.CheckAddress database_CreateSwap database_CreateReverseSwap
     database_UpdateReverseSwapState db_write
     rpcserver.RegisterSwap rpcserver.RegisterReverseSwap rpcserver.PayReverseSwap
     rpcserver.SendToAddress rpcserver.boltz_CreateSwap_call
     rpcserver.boltz_CreateReverseSwap_call rpcserver.CreateInvoice rpcserver.panic
     of_error] in H.

(** Run a creation function symbolically: one goal per path through it. *)
Ltac run H := unfold_run H; repeat (destruct_scrutinee H; cbv beta iota zeta in H).

Ltac compute_events :=
  cbn [events_of result_of world_of fst snd app existsb events_before is_db_write
       is_failed_check is_passed_tree_check is_passed_address_check is_DbCreateSwap
       is_DbCreateReverseSwap is_ExchangeCreateReverseSwap
       is_error orb andb negb Bool.eqb] in *.

Ltac leaf :=
  compute_events; repeat split; intros; first [reflexivity | discriminate | assumption].

Lemma createSwap_all_or_nothing (server : rpcserver.routedBoltzServer) (isAuto : bool)
    (request : rpcserver.CreateSwapRequest) (w : World) :
  all_or_nothing false is_DbCreateSwap w (rpcserver.createSwap server isAuto request w).
Proof.
  unfold all_or_nothing.
  destruct (rpcserver.createSwap server isAuto request w) as [[r w'] evs] eqn:Hrun.
  run Hrun.
  all: injection Hrun as <- <- <-; leaf.
Qed.

Lemma createReverseSwap_all_or_nothing (server : rpcserver.routedBoltzServer) (isAuto : bool)
    (request : rpcserver.CreateReverseSwapRequest) (w : World) :
  all_or_nothing true is_DbCreateReverseSwap w
    (rpcserver.createReverseSwap server isAuto request w).
Proof.
  unfold all_or_nothing.
  destruct (rpcserver.createReverseSwap server isAuto request w) as [[r w'] evs] eqn:Hrun.
  run Hrun.
  all: injection Hrun as <- <- <-; leaf.
Qed.

Lemma is_error_Error {A} (r : res A) : is_error r = true -> exists e, r = Error e.
Proof. destruct r; [discriminate | eauto]. Qed.

(** The same facts, read off the events. *)
Lemma all_or_nothing_events {A} (isReverse : bool) (is_create : Event -> bool) (w : World)
    (run : res A * World * list Event) :
  all_or_nothing isReverse is_create w run ->
  (((exists r t h e, In (TreeCheck r t h (Some e)) (events_of run))
    \/ (exists a e, In (TreeCheckAddress a (Some e)) (events_of run))) ->
   (exists e, result_of run = Error e) /\ world_of run = w /\ no_db_write (events_of run))
  /\ (forall ev, In ev (events_of run) -> is_db_write ev = true ->
        exists t h a,
          In (TreeCheck isReverse t h None) (events_before is_db_write (events_of run))
          /\ In (TreeCheckAddress a None) (events_before is_db_write (events_of run)))
  /\ (world_of run <> w -> exists ev, In ev (events_of run) /\ is_create ev = true).
Proof.
  intros (Hfailed & Hnone & Hwrite). split; [|split].
  - intros Hcheck.
    assert (Hex : existsb is_failed_check (events_of run) = true).
    { destruct Hcheck as [(r & t & h & e & HIn) | (a & e & HIn)];
        exact (In_existsb is_failed_check _ _ HIn eq_refl). }
    destruct (Hfailed Hex) as [Herr Hno].
    split; [exact (is_error_Error _ Herr)|]. split; [exact (Hnone Hno)|].
    exact (existsb_false_In _ _ Hno).
  - intros ev HIn Hev.
    destruct (Hwrite (In_existsb is_db_write _ _ HIn Hev)) as (Htree & Haddr & _).
    apply existsb_exists in Htree as (ev1 & HIn1 & H1).
    apply existsb_exists in Haddr as (ev2 & HIn2 & H2).
    destruct ev1 as [| r t h [e|] | | | | | | | | | | | | | | | | | | |]; try discriminate H1.
    destruct ev2 as [| | a [e|] | | | | | | | | | | | | | | | | | |]; try discriminate H2.
    cbn in H1. apply Bool.eqb_prop in H1 as ->. eauto.
  - intros Hchanged.
    destruct (existsb is_db_write (events_of run)) eqn:Hw.
    + destruct (Hwrite eq_refl) as (_ & _ & Hcreate).
      apply existsb_exists in Hcreate. exact Hcreate.
    + destruct (Hchanged (Hnone eq_refl)).
Qed.

(** C1. A run of [createSwap] or [createReverseSwap] in which
    [SwapTree.Check] or [SwapTree.CheckAddress] returned an error returns an
    error, leaves the world as it was and makes no database write; the swap
    row is written only after both verifications have passed; and nothing
    else in a run changes the world. *)
Theorem creation_is_all_or_nothing (server : rpcserver.routedBoltzServer) (isAuto : bool) :
  (forall request w,
     let run := rpcserver.createSwap server isAuto request w in
     (((exists r t h e, In (TreeCheck r t h (Some e)) (events_of run))
       \/ (exists a e, In (TreeCheckAddress a (Some e)) (events_of run))) ->
      (exists e, result_of run = Error e) /\ world_of run = w /\ no_db_write (events_of run))
     /\ (forall swap, In (DbCreateSwap swap) (events_of run) ->
           exists t h a,
             In (TreeCheck false t h None) (events_before is_db_write (events_of run))
             /\ In (TreeCheckAddress a None) (events_before is_db_write (events_of run)))
     /\ (world_of run <> w -> exists swap, In (DbCreateSwap swap) (events_of run)))
  /\ (forall request w,
        let run := rpcserver.createReverseSwap server isAuto request w in
        (((exists r t h e, In (TreeCheck r t h (Some e)) (events_of run))
          \/ (exists a e, In (TreeCheckAddress a (Some e)) (events_of run))) ->
         (exists e, result_of run = Error e) /\ world_of run = w
         /\ no_db_write (events_of run))
        /\ (forall reverseSwap, In (DbCreateReverseSwap reverseSwap) (events_of run) ->
              exists t h a,
                In (TreeCheck true t h None) (events_before is_db_write (events_of run))
                /\ In (TreeCheckAddress a None) (events_before is_db_write (events_of run)))
        /\ (world_of run <> w ->
              exists reverseSwap, In (DbCreateReverseSwap reverseSwap) (events_of run))).
Proof.
  split; intros request w run.
  - destruct (all_or_nothing_events _ _ _ _ (createSwap_all_or_nothing server isAuto request w))
      as (Hfailed & Hwrite & Hchanged).
    split; [exact Hfailed|]. split.
    + intros swap HIn. exact (Hwrite _ HIn eq_refl).
    + intros Hne. destruct (Hchanged Hne) as (ev & HIn & Hev).
      destruct ev; try discriminate Hev. eauto.
  - destruct (all_or_nothing_events _ _ _ _
                (createReverseSwap_all_or_nothing server isAuto request w))
      as (Hfailed & Hwrite & Hchanged).
    split; [exact Hfailed|]. split.
    + intros reverseSwap HIn. exact (Hwrite _ HIn eq_refl).
    + intros Hne. destruct (Hchanged Hne) as (ev & HIn & Hev).
      destruct ev; try discriminate Hev. eauto.
Qed.

(** The exchange answers with an address that the tree does not
    reproduce: creation fails and the tables stay empty. *)
Lemma creation_is_all_or_nothing_witness :
  let run := rpcserver.createSwap (sample_server "bcrt1qother" "lnbcrt1invoice") false
               sample_request sample_world in
  result_of run = Error "invalid address" /\ world_of run = sample_world.
Proof.
  intros run.
  destruct (creation_is_all_or_nothing (sample_server "bcrt1qother" "lnbcrt1invoice") false)
    as [Hswap _].
  destruct (Hswap sample_request sample_world) as (Hfailed & _).
  destruct Hfailed as (_ & Hworld & _).
  - right. exists "bcrt1qother", "invalid address". vm_compute.
    repeat (first [left; reflexivity | right]).
  - split; [reflexivity | exact Hworld].
Defined.


Lemma newPreimage_Ok (l : Libs) (preimage preimageHash : bytes) :
  rpcserver.newPreimage l = Ok (preimage, preimageHash) ->
  length preimage = 32
  /\ (exists random, rand_Reader l = Ok random /\ preimage = List.map random (seq 0 32))
  /\ preimageHash = sha256_Sum256 l preimage.
Proof.
  unfold rpcserver.newPreimage. destruct (rand_Reader l) as [random|e]; [|discriminate].
  intros [= <- <-]. split; [reflexivity|]. split; [eauto | reflexivity].
Qed.

(** The swap that [createSwap] writes, the request it sent to the exchange
    and the hash it checked the tree against come from one of the three
    branches of lines 313 to 343. *)
Lemma createSwap_secret (server : rpcserver.routedBoltzServer) (isAuto : bool)
    (request : rpcserver.CreateSwapRequest) (w : World) (swap : Swap) :
  In (DbCreateSwap swap) (events_of (rpcserver.createSwap server isAuto request w)) ->
  exists req t h,
    In (ExchangeCreateSwap req) (events_of (rpcserver.createSwap server isAuto request w))
    /\ In (TreeCheck false t h None)
         (events_of (rpcserver.createSwap server isAuto request w))
    /\ Invoice swap = bInvoice req
    /\ preimage_origin server request (Preimage swap) h (bInvoice req) (bPreimageHash req).
Proof.
  intros HIn.
  pose proof (In_existsb is_DbCreateSwap _ _ HIn eq_refl) as Hw.
  destruct (rpcserver.createSwap server isAuto request w) as [[r w'] evs] eqn:Hrun.
  run Hrun.
  all: injection Hrun as <- <- <-; compute_events; try discriminate Hw.
  all: pick_event HIn; injection HIn as <-.
  all: eexists _, _, _; split; [find_event | split; [find_event | split; [reflexivity|]]].
  all: cbn [Preimage Invoice with_SwapTree with_BlindingKey with_ClaimPubKey with_Wallet
            rpcserver.with_bInvoice rpcserver.with_bPreimageHash bInvoice bPreimageHash].
  all: first [ eapply FromSuppliedInvoice; eassumption
             | eapply FromCreatedInvoice; eassumption
             | eapply FromFreshPreimage; eassumption ].
Qed.

(** C5. For the swap that [createSwap] writes exactly one of two cases
    holds.  Either it is built around an invoice (supplied by the caller or
    created on the node): no preimage is stored, none is sent, and the hash
    the tree is checked against is the payment hash of that invoice.  Or it
    is built around a fresh preimage of 32 random bytes, which is stored,
    and whose SHA-256 is the preimage hash sent to the exchange.  Whenever
    a preimage is stored, its SHA-256 is the preimage hash that was sent. *)
Theorem swap_has_invoice_or_fresh_preimage (server : rpcserver.routedBoltzServer)
    (isAuto : bool) (request : rpcserver.CreateSwapRequest) (w : World) (swap : Swap) :
  In (DbCreateSwap swap) (events_of (rpcserver.createSwap server isAuto request w)) ->
  exists req t h,
    In (ExchangeCreateSwap req) (events_of (rpcserver.createSwap server isAuto request w))
    /\ In (TreeCheck false t h None)
         (events_of (rpcserver.createSwap server isAuto request w))
    /\ (invoice_case server request swap req h \/ preimage_case server request swap req h)
    /\ ~ (invoice_case server request swap req h /\ preimage_case server request swap req h)
    /\ (Preimage swap <> [] ->
        sha256_Sum256 (rpcserver.libs server) (Preimage swap) = bPreimageHash req).
Proof.
  intros HIn.
  destruct (createSwap_secret server isAuto request w swap HIn)
    as (req & t & h & Hreq & Hcheck & Hinvoice & Horigin).
  exists req, t, h. split; [exact Hreq|]. split; [exact Hcheck|].
  assert (Hexcl : ~ (invoice_case server request swap req h
                     /\ preimage_case server request swap req h)).
  { intros [(Hnil & _) (Hlen & _)]. rewrite Hnil in Hlen. discriminate. }
  split; [|split; [exact Hexcl|]].
  - inversion Horigin as [invoice Hsupplied Hdecode Hp Hh Hi Hs
                         | ln memo invoice Hnone Hln Hamount Hcreate Hp Hh Hi Hs
                         | ln preimage preimageHash Hnone Hln Hamount Hnew Hp Hh Hi Hs].
    + left. unfold invoice_case. repeat (split; [first [reflexivity | congruence]|]).
      left. exists invoice. split.
      * intros Hempty. rewrite Hempty in Hsupplied. discriminate.
      * repeat split; congruence.
    + left. unfold invoice_case. repeat (split; [first [reflexivity | congruence]|]).
      right. exists ln, memo, invoice.
      apply negb_false_iff, String.eqb_eq in Hnone.
      apply negb_true_iff, Z.eqb_neq in Hamount.
      repeat split; congruence.
    + right. unfold preimage_case.
      apply newPreimage_Ok in Hnew as (Hlen & Hrandom & Hsha).
      apply negb_false_iff, String.eqb_eq in Hnone.
      apply negb_false_iff, Z.eqb_eq in Hamount.
      subst preimage. repeat split; try congruence; eauto.
  - intros Hset.
    inversion Horigin as [invoice Hsupplied Hdecode Hp Hh Hi Hs
                         | ln memo invoice Hnone Hln Hamount Hcreate Hp Hh Hi Hs
                         | ln preimage preimageHash Hnone Hln Hamount Hnew Hp Hh Hi Hs].
    + congruence.
    + congruence.
    + apply newPreimage_Ok in Hnew as (_ & _ & Hsha). congruence.
Qed.

(** The sample server creates a swap without invoice and amount: the row
    holds a preimage of 32 bytes whose hash went to the exchange. *)
Lemma swap_has_invoice_or_fresh_preimage_witness :
  let run := rpcserver.createSwap (sample_server "bcrt1plockup" "lnbcrt1invoice") false
               sample_request sample_world in
  exists swap req,
    In (DbCreateSwap swap) (events_of run)
    /\ In (ExchangeCreateSwap req) (events_of run)
    /\ length (Preimage swap) = 32
    /\ sha256_Sum256 sample_libs (Preimage swap) = bPreimageHash req.
Proof.
  intros run.
  eassert (HIn : In (DbCreateSwap _) (events_of run)).
  { vm_compute. repeat (first [left; reflexivity | right]). }
  destruct (swap_has_invoice_or_fresh_preimage _ _ _ _ _ HIn)
    as (req & t & h & Hreq & _ & _ & _ & Hsha).
  eexists _, req. split; [exact HIn|]. split; [exact Hreq|]. split; [reflexivity|].
  apply Hsha. cbn. discriminate.
Defined.


(** Two equations for the same call give the same answer. *)
Ltac same_answer :=
  repeat match goal with
         | H1 : ?f = Ok _, H2 : ?f = Ok _ |- _ => rewrite H1 in H2; injection H2 as <-
         end.

(** What a run of [createReverseSwap] that reached the exchange did with
    the invoice of the answer. *)
Lemma createReverseSwap_invoice (server : rpcserver.routedBoltzServer) (isAuto : bool)
    (request : rpcserver.CreateReverseSwapRequest) (w : World)
    (req : BoltzCreateReverseSwapRequest) (resp : BoltzCreateReverseSwapResponse)
    (invoice : Invoice_) :
  In (ExchangeCreateReverseSwap req)
     (events_of (rpcserver.createReverseSwap server isAuto request w)) ->
  rpcserver.boltz_CreateReverseSwap (rpcserver.boltz server) req = Ok resp ->
  zpay32_Decode (rpcserver.libs server) (brInvoice resp) (rpcserver.network server)
  = Ok invoice ->
  (exists preimage,
      rpcserver.newPreimage (rpcserver.libs server) = Ok (preimage, brPreimageHash req))
  /\ (bytes_Equal (brPreimageHash req) (PaymentHash invoice) = false ->
      is_error (result_of (rpcserver.createReverseSwap server isAuto request w)) = true
      /\ existsb is_db_write
           (events_of (rpcserver.createReverseSwap server isAuto request w)) = false).
Proof.
  intros HIn Hresp Hdecode.
  pose proof (In_existsb is_ExchangeCreateReverseSwap _ _ HIn eq_refl) as Hex.
  destruct (rpcserver.createReverseSwap server isAuto request w) as [[r w'] evs] eqn:Hrun.
  run Hrun.
  all: injection Hrun as <- <- <-; compute_events; try discriminate Hex.
  all: pick_event HIn; injection HIn as <-.
  all: cbn [brPreimageHash] in *.
  all: split; [eexists; reflexivity|].
  all: try solve [intros _; split; reflexivity].
  all: intros Hmismatch; exfalso.
  all: cbn [rInvoice with_rSwapTree with_rBlindingKey with_rChanIds] in *.
  all: same_answer.
  all: match goal with
       | H : negb (bytes_Equal ?a ?b) = false |- _ =>
           apply negb_false_iff in H
       end.
  all: try congruence.
Qed.


(** C6. When the invoice that the exchange returned for a reverse swap
    decodes to a payment hash other than the preimage hash that was sent
    (the SHA-256 of the preimage generated for this swap),
    [createReverseSwap] returns an error, leaves the world as it was and
    makes no database write. *)
Theorem reverse_swap_needs_matching_invoice_hash (server : rpcserver.routedBoltzServer)
    (isAuto : bool) (request : rpcserver.CreateReverseSwapRequest) (w : World)
    (req : BoltzCreateReverseSwapRequest) (resp : BoltzCreateReverseSwapResponse)
    (invoice : Invoice_) :
  In (ExchangeCreateReverseSwap req)
     (events_of (rpcserver.createReverseSwap server isAuto request w)) ->
  rpcserver.boltz_CreateReverseSwap (rpcserver.boltz server) req = Ok resp ->
  zpay32_Decode (rpcserver.libs server) (brInvoice resp) (rpcserver.network server)
  = Ok invoice ->
  PaymentHash invoice <> brPreimageHash req ->
  (exists preimage,
      rpcserver.newPreimage (rpcserver.libs server) = Ok (preimage, brPreimageHash req)
      /\ brPreimageHash req = sha256_Sum256 (rpcserver.libs server) preimage)
  /\ (exists e, result_of (rpcserver.createReverseSwap server isAuto request w) = Error e)
  /\ world_of (rpcserver.createReverseSwap server isAuto request w) = w
  /\ no_db_write (events_of (rpcserver.createReverseSwap server isAuto request w)).
Proof.
  intros HIn Hresp Hdecode Hne.
  destruct (createReverseSwap_invoice server isAuto request w req resp invoice
              HIn Hresp Hdecode) as [(preimage & Hnew) Hmismatch].
  assert (Hneq : bytes_Equal (brPreimageHash req) (PaymentHash invoice) = false).
  { destruct (bytes_Equal _ _) eqn:Heq; [|reflexivity].
    apply bytes_Equal_eq in Heq. congruence. }
  destruct (Hmismatch Hneq) as [Herr Hno].
  destruct (createReverseSwap_all_or_nothing server isAuto request w) as (_ & Hnone & _).
  split.
  - exists preimage. split; [exact Hnew|].
    apply newPreimage_Ok in Hnew as (_ & _ & Hsha). exact Hsha.
  - split; [exact (is_error_Error _ Herr)|]. split; [exact (Hnone Hno)|].
    exact (existsb_false_In _ _ Hno).
Qed.

(** The exchange answers the sample reverse swap with an invoice for
    another payment hash: creation fails and nothing is stored. *)
Lemma reverse_swap_needs_matching_invoice_hash_witness :
  let run := rpcserver.createReverseSwap (sample_server "bcrt1plockup" "lnbcrt1other") false
               sample_reverse_request sample_world in
  result_of run = Error "invalid invoice preimage hash" /\ world_of run = sample_world.
Proof.
  intros run. subst run.
  eassert (HIn : In (ExchangeCreateReverseSwap _)
                   (events_of (rpcserver.createReverseSwap
                                 (sample_server "bcrt1plockup" "lnbcrt1other") false
                                 sample_reverse_request sample_world))).
  { vm_compute. repeat (first [left; reflexivity | right]). }
  destruct (reverse_swap_needs_matching_invoice_hash _ _ _ _ _
              {| brId := "reverse1"; brInvoice := "lnbcrt1other"; brSwapTree := [x51];
                 brRefundPublicKey := [x03]; brLockupAddress := "bcrt1plockup";
                 brTimeoutBlockHeight := 800000; brOnchainAmount := 99000;
                 brBlindingKey := [] |}
              {| PaymentHash := list_byte_of_string "lnbcrt1other" |}
              HIn eq_refl eq_refl) as (_ & _ & Hworld & _).
  - vm_compute. discriminate.
  - split; [reflexivity | exact Hworld].
Defined.

(* ===================================================================== *)
(** * Pairs *)
(* ===================================================================== *)

(** X1. [findPair] answers with the entry stored under the pair's two
    currencies, and with an error exactly when the outer or the inner
    entry is missing.  After an entry has been put under a pair, [findPair]
    returns it for that pair, and finds for every other pair what it found
    before. *)
Theorem findPair_lookup_insert (pair : Pair)
    (nested : gmap Currency (gmap Currency rpcserver.PairInfo)) (info : rpcserver.PairInfo) :
  (forall found,
      rpcserver.findPair pair nested = Ok found
      <-> exists from, nested !! From pair = Some from /\ from !! To pair = Some found)
  /\ (is_error (rpcserver.findPair pair nested) = true
      <-> nested !! From pair = None
          \/ exists from, nested !! From pair = Some from /\ from !! To pair = None)
  /\ let nested' :=
       <[From pair := <[To pair := info]> (default ∅ (nested !! From pair))]> nested in
     rpcserver.findPair pair nested' = Ok info
     /\ forall other found,
          (From other, To other) <> (From pair, To pair) ->
          (rpcserver.findPair other nested' = Ok found
           <-> rpcserver.findPair other nested = Ok found).
Proof.
  unfold rpcserver.findPair. split; [|split].
  - intros found. destruct (nested !! From pair) as [from|] eqn:Hfrom.
    + destruct (from !! To pair) as [result|] eqn:Hto.
      * split; [intros [= <-]; eauto | intros (from' & [= <-] & Hfound); congruence].
      * split; [discriminate | intros (from' & [= <-] & Hfound); congruence].
    + split; [discriminate | intros (from' & Hfrom' & _); discriminate].
  - destruct (nested !! From pair) as [from|] eqn:Hfrom.
    + destruct (from !! To pair) as [result|] eqn:Hto; cbn.
      * split; [discriminate | intros [H | (from' & [= <-] & H)]; congruence].
      * split; [eauto | reflexivity].
    + cbn. split; [auto | reflexivity].
  - cbv zeta. split.
    + rewrite lookup_insert_eq, lookup_insert_eq. reflexivity.
    + intros other found Hother.
      destruct (decide (From other = From pair)) as [Heq | Hne].
      * rewrite Heq, lookup_insert_eq.
        assert (Hto : To other <> To pair) by congruence.
        rewrite lookup_insert_ne by congruence.
        destruct (nested !! From pair) as [from|]; cbn; [reflexivity|].
        rewrite lookup_empty. split; discriminate.
      * rewrite lookup_insert_ne by congruence. reflexivity.
Qed.

(** The pair BTC/BTC is found among the sample pairs; after L-BTC/BTC has
    been added it is still found, with the same entry. *)
Lemma findPair_lookup_insert_witness :
  rpcserver.findPair {| From := CurrencyBtc; To := CurrencyBtc |}
    (<[CurrencyLiquid :=
         <[CurrencyBtc := {| rpcserver.Hash := "liquidhash";
                             rpcserver.FeesPercentage := 1%Z |}]>
           (default ∅ (sample_pairs !! CurrencyLiquid))]> sample_pairs)
  = Ok {| rpcserver.Hash := "pairhash"; rpcserver.FeesPercentage := 0%Z |}.
Proof.
  destruct (findPair_lookup_insert {| From := CurrencyLiquid; To := CurrencyBtc |}
              sample_pairs
              {| rpcserver.Hash := "liquidhash"; rpcserver.FeesPercentage := 1%Z |})
    as (_ & _ & _ & Hother).
  apply (Hother {| From := CurrencyBtc; To := CurrencyBtc |}).
  - cbn. discriminate.
  - reflexivity.
Defined.

(* ===================================================================== *)
(** * More on [createSwap] *)
(* ===================================================================== *)

Ltac compute_run :=
  cbn [events_of result_of world_of fst snd app existsb events_before is_db_write
       is_failed_check is_passed_tree_check is_passed_address_check is_DbCreateSwap
       is_DbCreateReverseSwap is_ExchangeCreateReverseSwap is_WalletSend
       is_ExchangeCreateSwap is_LightningCreateInvoice is_NurseryPayReverseSwap
       is_NurseryRegisterReverseSwap is_Log
       is_error orb andb negb Bool.eqb] in *.

Lemma newKeys_Ok (l : Libs) (privateKey : PrivateKey) (publicKey : PublicKey) :
  rpcserver.newKeys l = Ok (privateKey, publicKey) ->
  btcec_NewPrivateKey l = Ok privateKey /\ publicKey = btcec_PubKey l privateKey.
Proof.
  unfold rpcserver.newKeys. destruct (btcec_NewPrivateKey l); [|discriminate].
  intros [= <- <-]. auto.
Qed.

(** The row that [createSwap] writes, against the request it sent to the
    exchange and the answer it got. *)
Lemma createSwap_row (server : rpcserver.routedBoltzServer) (isAuto : bool)
    (request : rpcserver.CreateSwapRequest) (w : World) (swap : Swap) :
  In (DbCreateSwap swap) (events_of (rpcserver.createSwap server isAuto request w)) ->
  exists publicKey req resp,
    rpcserver.newKeys (rpcserver.libs server) = Ok (PrivateKey_ swap, publicKey)
    /\ In (ExchangeCreateSwap req)
         (events_before is_db_write (events_of (rpcserver.createSwap server isAuto request w)))
    /\ rpcserver.boltz_CreateSwap (rpcserver.boltz server) req = Ok resp
    /\ bRefundPublicKey req = btcec_SerializeCompressed (rpcserver.libs server) publicKey
    /\ bReferralId req = "boltz-client"
    /\ SwapPair swap = utils_ParsePair (rpcserver.libs server) (rpcserver.ReqPair request)
    /\ bFrom req = From (SwapPair swap) /\ bTo req = To (SwapPair swap)
    /\ Id swap = bId resp /\ Address swap = bAddress resp
    /\ ExpectedAmount swap = bExpectedAmount resp
    /\ TimoutBlockHeight swap = bTimeoutBlockHeight resp
    /\ State swap = SwapState_PENDING /\ Status swap = SwapCreated
    /\ LockupTransactionId swap = "" /\ RefundTransactionId swap = ""
    /\ IsAuto swap = isAuto
    /\ RefundAddress swap = rpcserver.GetRefundAddress request
    /\ In (TreeCheckAddress (Address swap) None)
         (events_before is_db_write (events_of (rpcserver.createSwap server isAuto request w))).
Proof.
  intros HIn.
  pose proof (In_existsb is_DbCreateSwap _ _ HIn eq_refl) as Hw.
  destruct (rpcserver.createSwap server isAuto request w) as [[r w'] evs] eqn:Hrun.
  run Hrun.
  all: injection Hrun as <- <- <-; compute_run; try discriminate Hw.
  all: pick_event HIn; injection HIn as <-.
  all: cbn [PrivateKey_ SwapPair Id Address ExpectedAmount TimoutBlockHeight State Status
            LockupTransactionId RefundTransactionId IsAuto RefundAddress
            with_SwapTree with_BlindingKey with_ClaimPubKey with_Wallet].
  all: eexists _, _, _.
  all: split; [first [reflexivity | eassumption]|].
  all: split; [find_event|].
  all: split; [first [reflexivity | eassumption]|].
  all: cbn [rpcserver.with_bInvoice rpcserver.with_bPreimageHash bRefundPublicKey bReferralId
            bFrom bTo].
  all: repeat (split; [reflexivity|]).
  all: find_event.
Qed.

(** What a run of [createSwap] that paid from the internal wallet went
    through before. *)
Lemma createSwap_send (server : rpcserver.routedBoltzServer) (isAuto : bool)
    (request : rpcserver.CreateSwapRequest) (w : World) (address : string) (amount : Z)
    (fee : float) :
  In (WalletSend address amount fee)
     (events_of (rpcserver.createSwap server isAuto request w)) ->
  rpcserver.SendFromInternal request = true
  /\ length (List.filter is_WalletSend
               (events_of (rpcserver.createSwap server isAuto request w))) = 1
  /\ exists swap wallet,
       In (DbCreateSwap swap)
         (events_before is_WalletSend
            (events_of (rpcserver.createSwap server isAuto request w)))
       /\ write_fails (rpcserver.database server) (DbCreateSwap swap) = None
       /\ Address swap = address /\ ExpectedAmount swap = amount
       /\ In (TreeCheckAddress address None)
            (events_before is_WalletSend
               (events_of (rpcserver.createSwap server isAuto request w)))
       /\ rpcserver.onchain_GetWallet (rpcserver.onchain server)
            (rpcserver.GetWallet request) (Some (From (SwapPair swap))) false = Ok wallet
       /\ Wallet swap = rpcserver.wallet_Name wallet
       /\ rpcserver.onchain_EstimateFee (rpcserver.onchain server) (From (SwapPair swap)) 2
          = Ok fee.
Proof.
  intros HIn.
  pose proof (In_existsb is_WalletSend _ _ HIn eq_refl) as Hw.
  destruct (rpcserver.createSwap server isAuto request w) as [[r w'] evs] eqn:Hrun.
  run Hrun.
  all: injection Hrun as <- <- <-; compute_run; try discriminate Hw.
  all: pick_event HIn; injection HIn as <- <- <-.
  all: split; [reflexivity|].
  all: split; [reflexivity|].
  all: eexists _, _.
  all: split; [find_event|].
  all: cbn [PrivateKey_ SwapPair Id Address ExpectedAmount TimoutBlockHeight State Status
            LockupTransactionId RefundTransactionId IsAuto RefundAddress Wallet
            with_SwapTree with_BlindingKey with_ClaimPubKey with_Wallet].
  all: split; [first [reflexivity | eassumption]|].
  all: split; [reflexivity|].
  all: split; [reflexivity|].
  all: split; [find_event|].
  all: split; [first [reflexivity | eassumption]|].
  all: split; first [reflexivity | eassumption].
Qed.

(** Where a run of [createSwap] leaves the world, and what a successful
    run returns. *)
Lemma createSwap_outcome (server : rpcserver.routedBoltzServer) (isAuto : bool)
    (request : rpcserver.CreateSwapRequest) (w : World) :
  (forall swap,
      In (DbCreateSwap swap) (events_of (rpcserver.createSwap server isAuto request w)) ->
      match write_fails (rpcserver.database server) (DbCreateSwap swap) with
      | None =>
          world_of (rpcserver.createSwap server isAuto request w)
          = set_swaps (insert (Id swap) swap) w
      | Some e =>
          world_of (rpcserver.createSwap server isAuto request w) = w
          /\ is_error (result_of (rpcserver.createSwap server isAuto request w)) = true
      end)
  /\ (forall response,
         result_of (rpcserver.createSwap server isAuto request w) = Ok response ->
         exists swap,
           In (DbCreateSwap swap) (events_of (rpcserver.createSwap server isAuto request w))
           /\ write_fails (rpcserver.database server) (DbCreateSwap swap) = None
           /\ rpcserver.RespId response = Id swap
           /\ rpcserver.RespAddress response = Address swap
           /\ rpcserver.RespTimeoutBlockHeight response = TimoutBlockHeight swap
           /\ rpcserver.RespExpectedAmount response = int64 (ExpectedAmount swap)
           /\ In (NurseryRegisterSwap (Id swap))
                (events_of (rpcserver.createSwap server isAuto request w))
           /\ rpcserver.nursery_RegisterSwap (rpcserver.nursery server) swap = None
           /\ if rpcserver.SendFromInternal request
              then exists wallet fee,
                     rpcserver.wallet_SendToAddress wallet (Address swap)
                       (ExpectedAmount swap) fee = Ok (rpcserver.TxId response)
              else rpcserver.TxId response = "").
Proof.
  destruct (rpcserver.createSwap server isAuto request w) as [[r w'] evs] eqn:Hrun.
  run Hrun.
  all: injection Hrun as <- <- <-; compute_run.
  all: split; [intros swap HIn; pick_event HIn; injection HIn as <-;
               match goal with
               | H : write_fails ?d _ = ?v |- context [write_fails ?d ?e] =>
                   replace (write_fails d e) with v by (symmetry; exact H)
               end;
               first [reflexivity | split; reflexivity]
              | intros response Hok; try discriminate Hok; injection Hok as <-].
  all: eexists; split; [find_event|].
  all: split; [eassumption|].
  all: cbn [PrivateKey_ SwapPair Id Address ExpectedAmount TimoutBlockHeight State Status
            LockupTransactionId RefundTransactionId IsAuto RefundAddress Wallet
            with_SwapTree with_BlindingKey with_ClaimPubKey with_Wallet
            rpcserver.with_TxId rpcserver.RespId rpcserver.RespAddress rpcserver.TxId
            rpcserver.RespTimeoutBlockHeight rpcserver.RespExpectedAmount].
  all: repeat (split; [first [reflexivity | eassumption
                             | match goal with H : _ = ?v |- _ = ?v => exact H end
                             | solve [find_event]]|]).
  all: first [reflexivity | eexists _, _; eassumption].
Qed.

(** X2. The row that [createSwap] writes agrees with what was exchanged
    before it was written: its private key is the one generated for this
    swap, and the refund public key sent to the exchange is the public key
    of that private key; id, lockup address, expected amount and timeout
    are those of the exchange's answer to that request; the lockup address
    has passed [CheckAddress]; the row starts as PENDING / swap.created with
    no lockup and no refund transaction. *)
Theorem createSwap_row_agrees_with_exchange (server : rpcserver.routedBoltzServer)
    (isAuto : bool) (request : rpcserver.CreateSwapRequest) (w : World) (swap : Swap) :
  In (DbCreateSwap swap) (events_of (rpcserver.createSwap server isAuto request w)) ->
  exists req resp,
    In (ExchangeCreateSwap req)
      (events_before is_db_write (events_of (rpcserver.createSwap server isAuto request w)))
    /\ rpcserver.boltz_CreateSwap (rpcserver.boltz server) req = Ok resp
    /\ btcec_NewPrivateKey (rpcserver.libs server) = Ok (PrivateKey_ swap)
    /\ bRefundPublicKey req
       = btcec_SerializeCompressed (rpcserver.libs server)
           (btcec_PubKey (rpcserver.libs server) (PrivateKey_ swap))
    /\ bReferralId req = "boltz-client"
    /\ SwapPair swap = utils_ParsePair (rpcserver.libs server) (rpcserver.ReqPair request)
    /\ bFrom req = From (SwapPair swap) /\ bTo req = To (SwapPair swap)
    /\ Id swap = bId resp /\ Address swap = bAddress resp
    /\ ExpectedAmount swap = bExpectedAmount resp
    /\ TimoutBlockHeight swap = bTimeoutBlockHeight resp
    /\ State swap = SwapState_PENDING /\ Status swap = SwapCreated
    /\ LockupTransactionId swap = "" /\ RefundTransactionId swap = ""
    /\ IsAuto swap = isAuto
    /\ RefundAddress swap = rpcserver.GetRefundAddress request
    /\ In (TreeCheckAddress (Address swap) None)
         (events_before is_db_write (events_of (rpcserver.createSwap server isAuto request w))).
Proof.
  intros HIn.
  destruct (createSwap_row server isAuto request w swap HIn)
    as (publicKey & req & resp & Hkeys & Hreq & Hresp & Hrefund & Hrest).
  apply newKeys_Ok in Hkeys as [Hprivate ->].
  exists req, resp. auto.
Qed.

(** The sample server stores a swap whose refund key went to the
    exchange. *)
Lemma createSwap_row_agrees_with_exchange_witness :
  exists swap req,
    In (DbCreateSwap swap)
      (events_of (rpcserver.createSwap (sample_server "bcrt1plockup" "lnbcrt1invoice") false
                    sample_request sample_world))
    /\ Id swap = "swap1"
    /\ bRefundPublicKey req = [x02; x07]
    /\ PrivateKey_ swap = [x07].
Proof.
  eassert (HIn : In (DbCreateSwap _)
                   (events_of (rpcserver.createSwap
                                 (sample_server "bcrt1plockup" "lnbcrt1invoice") false
                                 sample_request sample_world))).
  { vm_compute. repeat (first [left; reflexivity | right]). }
  destruct (createSwap_row_agrees_with_exchange _ _ _ _ _ HIn)
    as (req & resp & _ & _ & _ & Hrefund & _).
  eexists _, req. split; [exact HIn|]. split; [reflexivity|].
  split; [exact Hrefund | reflexivity].
Defined.




(** X4. A swap row that [createSwap] has written and the storage has
    accepted is in the table when the run ends, whether the later steps
    (block height, fee estimate, payment, registration) succeed or not, and
    the run changes nothing else in the world.  When the run succeeds, the
    response names that row: its id, its lockup address, its timeout and
    its expected amount (as [int64]), the swap was registered with the
    nursery, and a transaction id is returned only for a swap paid from the
    internal wallet. *)
Theorem createSwap_stored_row_and_response (server : rpcserver.routedBoltzServer)
    (isAuto : bool) (request : rpcserver.CreateSwapRequest) (w : World) :
  (forall swap,
      In (DbCreateSwap swap) (events_of (rpcserver.createSwap server isAuto request w)) ->
      write_fails (rpcserver.database server) (DbCreateSwap swap) = None ->
      swaps (world_of (rpcserver.createSwap server isAuto request w)) !! Id swap = Some swap
      /\ (forall id, id <> Id swap ->
            swaps (world_of (rpcserver.createSwap server isAuto request w)) !! id
            = swaps w !! id)
      /\ reverseSwaps (world_of (rpcserver.createSwap server isAuto request w))
         = reverseSwaps w
      /\ locked (world_of (rpcserver.createSwap server isAuto request w)) = locked w)
  /\ (forall response,
         result_of (rpcserver.createSwap server isAuto request w) = Ok response ->
         exists swap,
           swaps (world_of (rpcserver.createSwap server isAuto request w))
             !! rpcserver.RespId response = Some swap
           /\ Id swap = rpcserver.RespId response
           /\ Address swap = rpcserver.RespAddress response
           /\ TimoutBlockHeight swap = rpcserver.RespTimeoutBlockHeight response
           /\ int64 (ExpectedAmount swap) = rpcserver.RespExpectedAmount response
           /\ In (NurseryRegisterSwap (rpcserver.RespId response))
                (events_of (rpcserver.createSwap server isAuto request w))
           /\ (rpcserver.SendFromInternal request = false -> rpcserver.TxId response = "")).
Proof.
  destruct (createSwap_outcome server isAuto request w) as [Hworld Hresponse].
  split.
  - intros swap HIn Haccepted. specialize (Hworld swap HIn).
    rewrite Haccepted in Hworld. rewrite Hworld. cbn.
    split; [apply lookup_insert_eq|]. split; [|auto].
    intros id Hid. apply lookup_insert_ne. congruence.
  - intros response Hok.
    destruct (Hresponse response Hok)
      as (swap & HIn & Haccepted & Hid & Haddress & Htimeout & Hamount & Hregistered & _
          & Hsend).
    exists swap. specialize (Hworld swap HIn). rewrite Haccepted in Hworld.
    rewrite Hworld, Hid. cbn.
    split; [apply lookup_insert_eq|].
    do 4 (split; [congruence|]). split; [exact Hregistered|].
    intros Hnot. rewrite Hnot in Hsend. exact Hsend.
Qed.

(** The swap that the sample server answers with is the row of its table. *)
Lemma createSwap_stored_row_and_response_witness :
  exists swap,
    swaps (world_of (rpcserver.createSwap (sample_server "bcrt1plockup" "lnbcrt1invoice")
                       false sample_request sample_world)) !! "swap1" = Some swap
    /\ Address swap = "bcrt1plockup".
Proof.
  destruct (createSwap_stored_row_and_response
              (sample_server "bcrt1plockup" "lnbcrt1invoice") false sample_request
              sample_world) as [_ Hresponse].
  eassert (Hok : result_of (rpcserver.createSwap
                              (sample_server "bcrt1plockup" "lnbcrt1invoice") false
                              sample_request sample_world) = Ok _).
  { vm_compute. reflexivity. }
  destruct (Hresponse _ Hok) as (swap & Hstored & _ & Haddress & _).
  exists swap. split; [exact Hstored | exact Haddress].
Defined.

(** X5. Without an invoice in the request, [createSwap] needs the
    Lightning node to make one (for a non-zero amount) or a preimage of its
    own (for amount zero, which cannot be combined with paying from the
    internal wallet).  In standalone mode, and for an automatic payment of
    amount zero, the request fails at the latest when the invoice is looked
    at, which is after the keys were generated and the pairs were fetched
    from the exchange and before anything else: no invoice was asked of the
    node, no swap was created at the exchange, nothing was written to the
    database or paid from a wallet, and the world is as before. *)
Theorem createSwap_without_invoice_source (server : rpcserver.routedBoltzServer)
    (isAuto : bool) (request : rpcserver.CreateSwapRequest) (w : World) :
  rpcserver.GetInvoice request = "" ->
  rpcserver.lightning server = None
  \/ (rpcserver.Amount request = 0%Z /\ rpcserver.SendFromInternal request = true) ->
  (exists e, result_of (rpcserver.createSwap server isAuto request w) = Error e)
  /\ world_of (rpcserver.createSwap server isAuto request w) = w
  /\ Forall (fun ev => is_LightningCreateInvoice ev = false
                       /\ is_ExchangeCreateSwap ev = false
                       /\ is_db_write ev = false
                       /\ is_WalletSend ev = false)
       (events_of (rpcserver.createSwap server isAuto request w))
  /\ (forall keys pairs info,
        rpcserver.newKeys (rpcserver.libs server) = Ok keys ->
        rpcserver.boltz_GetSubmarinePairs (rpcserver.boltz server) = Ok pairs ->
        rpcserver.findPair (utils_ParsePair (rpcserver.libs server)
                              (rpcserver.ReqPair request)) pairs = Ok info ->
        result_of (rpcserver.createSwap server isAuto request w)
        = Error (match rpcserver.lightning server with
                 | None => "invoice is required in standalone mode"
                 | Some _ => "cannot auto send if amount is 0"
                 end)).
Proof.
  intros Hinvoice Hsource.
  destruct (rpcserver.createSwap server isAuto request w) as [[r w'] evs] eqn:Hrun.
  unfold_run Hrun. rewrite Hinvoice in Hrun.
  change (negb ("" =? "")%string) with false in Hrun. cbv beta iota in Hrun.
  destruct Hsource as [Hstandalone | [Hamount Hsend]].
  - rewrite Hstandalone in *.
    repeat (destruct_scrutinee Hrun; cbv beta iota zeta in Hrun).
    all: injection Hrun as <- <- <-; compute_run.
    all: split; [eexists; reflexivity|]; split; [reflexivity|].
    all: split; [repeat constructor|].
    all: intros; simplify_eq; first [reflexivity | congruence].
  - rewrite Hamount, Hsend in Hrun.
    change (negb (0 =? 0)%Z) with false in Hrun. cbv beta iota in Hrun.
    repeat (destruct_scrutinee Hrun; cbv beta iota zeta in Hrun).
    all: injection Hrun as <- <- <-; compute_run.
    all: split; [eexists; reflexivity|]; split; [reflexivity|].
    all: split; [repeat constructor|].
    all: intros; simplify_eq; first [reflexivity | congruence].
Qed.

(** The sample server without its Lightning node refuses the sample
    request, which carries no invoice. *)
Lemma createSwap_without_invoice_source_witness :
  result_of (rpcserver.createSwap
               {| rpcserver.libs := sample_libs; rpcserver.network := "regtest";
                  rpcserver.onchain :=
                    rpcserver.onchain (sample_server "bcrt1plockup" "lnbcrt1invoice");
                  rpcserver.lightning := None;
                  rpcserver.boltz :=
                    rpcserver.boltz (sample_server "bcrt1plockup" "lnbcrt1invoice");
                  rpcserver.nursery :=
                    rpcserver.nursery (sample_server "bcrt1plockup" "lnbcrt1invoice");
                  rpcserver.database := sample_database;
                  rpcserver.wallets :=
                    rpcserver.wallets (sample_server "bcrt1plockup" "lnbcrt1invoice") |}
               false sample_request sample_world)
  = Error "invoice is required in standalone mode".
Proof.
  eapply createSwap_without_invoice_source; [reflexivity | left; reflexivity | ..];
    reflexivity.
Defined.

(** [Deposit] is [createSwap] followed by one more warning when it
    failed. *)
Lemma Deposit_createSwap (server : rpcserver.routedBoltzServer) (w : World) :
  let request :=
    {| rpcserver.Amount := 0;
       rpcserver.ReqPair := Some {| From := CurrencyBtc; To := CurrencyBtc |};
       rpcserver.SendFromInternal := false; rpcserver.ReqRefundAddress := None;
       rpcserver.ReqInvoice := None; rpcserver.ReqWallet := None |} in
  world_of (rpcserver.Deposit server w) = world_of (rpcserver.createSwap server false request w)
  /\ (forall ev, In ev (events_of (rpcserver.Deposit server w)) ->
        is_Log ev = false ->
        In ev (events_of (rpcserver.createSwap server false request w)))
  /\ (forall ev, In ev (events_of (rpcserver.createSwap server false request w)) ->
        In ev (events_of (rpcserver.Deposit server w)))
  /\ (forall response, result_of (rpcserver.Deposit server w) = Ok response ->
        exists created,
          result_of (rpcserver.createSwap server false request w) = Ok created
          /\ rpcserver.depId response = rpcserver.RespId created
          /\ rpcserver.depAddress response = rpcserver.RespAddress created
          /\ rpcserver.depTimeoutBlockHeight response
             = rpcserver.RespTimeoutBlockHeight created).
Proof.
  intros request. unfold rpcserver.Deposit, on_error. fold request.
  destruct (rpcserver.createSwap server false request w) as [[[created|e] w1] t1].
  - cbn. rewrite app_nil_r. repeat split; auto.
    intros response [= <-]. eauto.
  - cbn. repeat split.
    + intros ev HIn Hlog. apply in_app_or in HIn as [HIn | [<- | []]];
        [exact HIn | discriminate Hlog].
    + intros ev HIn. apply in_or_app. auto.
    + discriminate.
Qed.

(** X6. [Deposit] creates a BTC/BTC swap for amount zero without an
    invoice.  A row it writes therefore holds a fresh preimage of 32 bytes
    whose SHA-256 went to the exchange as preimage hash, and no invoice;
    nothing is ever paid from a wallet; and a successful call answers with
    the id, the lockup address and the timeout of the row it stored. *)
Theorem Deposit_stores_preimage_swap (server : rpcserver.routedBoltzServer) (w : World) :
  (forall swap,
      In (DbCreateSwap swap) (events_of (rpcserver.Deposit server w)) ->
      length (Preimage swap) = 32
      /\ Invoice swap = ""
      /\ IsAuto swap = false
      /\ SwapPair swap
         = utils_ParsePair (rpcserver.libs server)
             (Some {| From := CurrencyBtc; To := CurrencyBtc |})
      /\ exists req,
           In (ExchangeCreateSwap req) (events_of (rpcserver.Deposit server w))
           /\ bInvoice req = ""
           /\ bPreimageHash req = sha256_Sum256 (rpcserver.libs server) (Preimage swap))
  /\ (forall address amount fee,
        ~ In (WalletSend address amount fee) (events_of (rpcserver.Deposit server w)))
  /\ (forall response,
        result_of (rpcserver.Deposit server w) = Ok response ->
        exists swap,
          swaps (world_of (rpcserver.Deposit server w)) !! rpcserver.depId response
          = Some swap
          /\ Address swap = rpcserver.depAddress response
          /\ TimoutBlockHeight swap = rpcserver.depTimeoutBlockHeight response).
Proof.
  destruct (Deposit_createSwap server w) as (Hworld & Hfrom & Hto & Hresponse).
  set (request := {| rpcserver.Amount := 0;
                     rpcserver.ReqPair := Some {| From := CurrencyBtc; To := CurrencyBtc |};
                     rpcserver.SendFromInternal := false;
                     rpcserver.ReqRefundAddress := None; rpcserver.ReqInvoice := None;
                     rpcserver.ReqWallet := None |}) in *.
  split; [|split].
  - intros swap HIn. apply Hfrom in HIn; [|reflexivity].
    destruct (createSwap_secret server false request w swap HIn)
      as (req & t & h & Hreq & _ & Hinvoice & Horigin).
    destruct (createSwap_row server false request w swap HIn)
      as (_ & _ & _ & _ & _ & _ & _ & _ & Hpair & _ & _ & _ & _ & _ & _ & _ & _ & _ & _
          & Hauto & _).
    inversion Horigin as [invoice Hsupplied Hdecode Hp Hh Hi Hs
                         | ln memo invoice Hnone Hln Hamount Hcreate Hp Hh Hi Hs
                         | ln preimage preimageHash Hnone Hln Hamount Hnew Hp Hh Hi Hs].
    + discriminate Hsupplied.
    + discriminate Hamount.
    + apply newPreimage_Ok in Hnew as (Hlen & _ & Hsha).
      split; [exact Hlen|]. split; [congruence|]. split; [exact Hauto|].
      split; [exact Hpair|].
      exists req. split; [apply Hto; exact Hreq|]. split; [congruence|]. congruence.
  - intros address amount fee HIn. apply Hfrom in HIn; [|reflexivity].
    destruct (createSwap_send server false request w address amount fee HIn) as [Hsend _].
    discriminate Hsend.
  - intros response Hok.
    destruct (Hresponse response Hok) as (created & Hcreated & Hid & Haddress & Htimeout).
    destruct (createSwap_outcome server false request w) as [Hrow Hresult].
    destruct (Hresult created Hcreated)
      as (swap & HIn & Haccepted & Hid' & Haddress' & Htimeout' & _).
    specialize (Hrow swap HIn). rewrite Haccepted in Hrow.
    exists swap. rewrite Hworld, Hrow, Hid, Hid'. cbn.
    split; [apply lookup_insert_eq|]. split; congruence.
Qed.

(** A deposit on the sample server stores a swap with a preimage of 32
    bytes. *)
Lemma Deposit_stores_preimage_swap_witness :
  exists swap,
    In (DbCreateSwap swap)
      (events_of (rpcserver.Deposit (sample_server "bcrt1plockup" "lnbcrt1invoice")
                    sample_world))
    /\ length (Preimage swap) = 32 /\ Invoice swap = "".
Proof.
  eassert (HIn : In (DbCreateSwap _)
                   (events_of (rpcserver.Deposit
                                 (sample_server "bcrt1plockup" "lnbcrt1invoice")
                                 sample_world))).
  { vm_compute. repeat (first [left; reflexivity | right]). }
  destruct (Deposit_stores_preimage_swap (sample_server "bcrt1plockup" "lnbcrt1invoice")
              sample_world) as [Hrow _].
  destruct (Hrow _ HIn) as (Hlen & Hinvoice & _).
  eexists. split; [exact HIn|]. split; [exact Hlen | exact Hinvoice].
Defined.

(* ===================================================================== *)
(** * More on [createReverseSwap] *)
(* ===================================================================== *)

(** Use an equation of the context for the scrutinee of the goal. *)
Ltac rewrite_scrutinee :=
  match goal with
  | H : _ = ?v |- context [match ?g with _ => _ end] =>
      lazymatch g with
      | context [match _ with _ => _ end] => fail
      | _ => replace g with v by (symmetry; exact H)
      end
  end.

Ltac by_equation :=
  first [ reflexivity
        | eassumption
        | match goal with H : _ = ?v |- _ = ?v => exact H end
        | apply negb_false_iff; assumption
        | apply negb_true_iff; assumption ].

Ltac reverse_fields :=
  cbn [rId rIsAuto rPair rState rError rStatus rAcceptZeroConf rPrivateKey rSwapTree
       rRefundPubKey rPreimage rInvoice rClaimAddress rOnchainAmount
       rTimeoutBlockHeight rLockupTransactionId rClaimTransactionId
       rServiceFeePercent rExternalPay rChanIds rBlindingKey
       with_rSwapTree with_rBlindingKey with_rChanIds
       brClaimPublicKey brPreimageHash brInvoiceAmount
       rpcserver.rsId rpcserver.rsLockupAddress rpcserver.rsRoutingFeeMilliSat
       rpcserver.rsClaimTransactionId rpcserver.rsInvoice rpcserver.with_rsInvoice].

(** [awaitUpdates] only ever sets the claim transaction and the routing
    fee of the response. *)
Lemma awaitUpdates_keeps (updates : list rpcserver.SwapUpdate)
    (rpcResponse response : rpcserver.CreateReverseSwapResponse) :
  rpcserver.awaitUpdates updates rpcResponse = Ok response ->
  rpcserver.rsId response = rpcserver.rsId rpcResponse
  /\ rpcserver.rsLockupAddress response = rpcserver.rsLockupAddress rpcResponse
  /\ rpcserver.rsInvoice response = rpcserver.rsInvoice rpcResponse.
Proof.
  revert rpcResponse. induction updates as [|info rest IH]; intros rpcResponse.
  - intros [= <-]. auto.
  - cbn [rpcserver.awaitUpdates].
    destruct (_ || _); [discriminate|]. intros H. apply IH in H.
    destruct (rpcserver.SwapState_eqb _ _); exact H.
Qed.

Ltac reverse_row_leaf :=
  reverse_fields;
  eexists _, _, _, _, _;
  split; [by_equation|]; split; [by_equation|]; split; [find_event|];
  split; [by_equation|]; reverse_fields;
  do 16 (split; [by_equation|]);
  (split; [first [ eapply ClaimToRequestAddress; by_equation
                 | eapply ClaimToWalletAddress; by_equation ]|]);
  split; intros; first [reflexivity | congruence | discriminate].

Ltac reverse_pay_leaf :=
  eexists _, _;
  split; [by_equation|]; split; [find_event|]; split; [by_equation|];
  reverse_fields;
  split; [reflexivity|]; split; [by_equation|]; split; [find_event|];
  split; [by_equation|]; split; [reflexivity|];
  rewrite_scrutinee;
  first [ reflexivity
        | split; [find_event|]; rewrite_scrutinee; split; reflexivity ].

Ltac reverse_response_leaf :=
  try match goal with
      | H : rpcserver.awaitUpdates _ _ = Ok _ |- _ =>
          apply awaitUpdates_keeps in H as (-> & -> & ->)
      end;
  eexists; split; [find_event|];
  reverse_fields;
  split; [reflexivity|]; split; [reflexivity|]; split; [find_event|];
  split; [find_event|];
  first [ split; [reflexivity|]; split; [reflexivity|]; split; reflexivity
        | split; [reflexivity | find_event] ].

Lemma createReverseSwap_run (server : rpcserver.routedBoltzServer) (isAuto : bool)
    (request : rpcserver.CreateReverseSwapRequest) (w : World) :
  (forall rs,
      In (DbCreateReverseSwap rs)
         (events_of (rpcserver.createReverseSwap server isAuto request w)) ->
      reverse_row server isAuto request
        (events_of (rpcserver.createReverseSwap server isAuto request w)) rs)
  /\ (forall id,
         In (NurseryPayReverseSwap id)
            (events_of (rpcserver.createReverseSwap server isAuto request w)) ->
         reverse_pay server w (rpcserver.createReverseSwap server isAuto request w) id)
  /\ (forall response,
         result_of (rpcserver.createReverseSwap server isAuto request w) = Ok response ->
         reverse_response w (rpcserver.createReverseSwap server isAuto request w) response).
Proof.
  unfold reverse_row, reverse_pay, reverse_response.
  destruct (rpcserver.createReverseSwap server isAuto request w) as [[r w'] evs] eqn:Hrun.
  run Hrun.
  all: injection Hrun as <- <- <-; compute_run.
  all: try match goal with
           | H : true = false |- _ => discriminate H
           | H : false = true |- _ => discriminate H
           end.
  all: split;
    [ intros rs HIn;
      first [ solve [pick_event HIn]
            | pick_event HIn; injection HIn as <-; reverse_row_leaf ]
    | split;
      [ intros id HIn;
        first [ solve [pick_event HIn]
              | pick_event HIn; injection HIn as <-; reverse_pay_leaf ]
      | intros response Hok;
        first [ discriminate Hok | injection Hok as <-; reverse_response_leaf ] ] ].
Qed.


(** X7. The row that [createReverseSwap] writes agrees with what was
    exchanged before it was written.  Its preimage has 32 bytes, and the
    SHA-256 of that preimage is both the preimage hash sent to the exchange
    and the payment hash of the invoice stored in the row; its private key
    is the one generated for this swap and the claim public key sent to the
    exchange belongs to it; id, invoice, onchain amount and timeout are
    those of the exchange's answer; the claim address is the request's
    address, accepted by [ValidateAddress], or a new address of the wallet
    named in the request; in standalone mode the row is marked for external
    payment. *)
Theorem createReverseSwap_row_agrees_with_exchange (server : rpcserver.routedBoltzServer)
    (isAuto : bool) (request : rpcserver.CreateReverseSwapRequest) (w : World)
    (rs : ReverseSwap) :
  In (DbCreateReverseSwap rs)
     (events_of (rpcserver.createReverseSwap server isAuto request w)) ->
  length (rPreimage rs) = 32
  /\ btcec_NewPrivateKey (rpcserver.libs server) = Ok (rPrivateKey rs)
  /\ (exists req resp invoice,
        In (ExchangeCreateReverseSwap req)
          (events_before is_db_write
             (events_of (rpcserver.createReverseSwap server isAuto request w)))
        /\ rpcserver.boltz_CreateReverseSwap (rpcserver.boltz server) req = Ok resp
        /\ brClaimPublicKey req
           = btcec_SerializeCompressed (rpcserver.libs server)
               (btcec_PubKey (rpcserver.libs server) (rPrivateKey rs))
        /\ brPreimageHash req = sha256_Sum256 (rpcserver.libs server) (rPreimage rs)
        /\ brInvoiceAmount req = uint64 (rpcserver.rqAmount request)
        /\ rId rs = brId resp /\ rInvoice rs = brInvoice resp
        /\ rOnchainAmount rs = brOnchainAmount resp
        /\ rTimeoutBlockHeight rs = brTimeoutBlockHeight resp
        /\ zpay32_Decode (rpcserver.libs server) (rInvoice rs) (rpcserver.network server)
           = Ok invoice
        /\ PaymentHash invoice = sha256_Sum256 (rpcserver.libs server) (rPreimage rs))
  /\ rState rs = SwapState_PENDING /\ rStatus rs = SwapCreated
  /\ rLockupTransactionId rs = "" /\ rClaimTransactionId rs = ""
  /\ rIsAuto rs = isAuto
  /\ rAcceptZeroConf rs = rpcserver.rqAcceptZeroConf request
  /\ claim_address_origin server request (rClaimAddress rs)
  /\ (rpcserver.lightning server = None -> rExternalPay rs = true).
Proof.
  intros HIn.
  destruct (createReverseSwap_run server isAuto request w) as (Hrow & _ & _).
  destruct (Hrow rs HIn)
    as (publicKey & preimageHash & req & resp & invoice & Hkeys & Hpreimage & Hreq & Hresp
        & Hclaim & Hhash & Hamount & Hid & Hinvoice & Honchain & Htimeout & Hstate & Hstatus
        & Hlockup & Hclaimtx & Hauto & Hzero & Hdecode & Hequal & _ & Horigin & Hstandalone
        & _).
  apply newKeys_Ok in Hkeys as [Hprivate ->].
  apply newPreimage_Ok in Hpreimage as (Hlen & _ & ->).
  apply bytes_Equal_eq in Hequal.
  split; [exact Hlen|]. split; [exact Hprivate|]. split.
  - exists req, resp, invoice. repeat (split; [assumption|]). congruence.
  - repeat (split; [assumption|]). exact Hstandalone.
Qed.

(** The sample server stores a reverse swap whose invoice pays to the hash
    of the stored preimage. *)
Lemma createReverseSwap_row_agrees_with_exchange_witness :
  exists rs,
    In (DbCreateReverseSwap rs)
      (events_of (rpcserver.createReverseSwap
                    (sample_server "bcrt1plockup" sample_reverse_invoice) false
                    sample_reverse_request sample_world))
    /\ length (rPreimage rs) = 32 /\ rId rs = "reverse1".
Proof.
  eassert (HIn : In (DbCreateReverseSwap _)
                   (events_of (rpcserver.createReverseSwap
                                 (sample_server "bcrt1plockup" sample_reverse_invoice) false
                                 sample_reverse_request sample_world))).
  { vm_compute. repeat (first [left; reflexivity | right]). }
  destruct (createReverseSwap_row_agrees_with_exchange _ _ _ _ _ HIn) as (Hlen & _).
  eexists. split; [exact HIn|]. split; [exact Hlen | reflexivity].
Defined.

(** X8. [createReverseSwap] asks the node to pay the invoice at most once,
    never in standalone mode and never for a swap marked for external
    payment, and only after the row was stored and the swap registered
    with the nursery.  When the payment succeeds the row is in the table as
    it was written.  When the payment fails the run writes state ERROR with
    the payment error: if the storage accepts that write the payment error
    is returned and the row of the table carries ERROR and the error text;
    if not, the storage's error is returned and the row stays as written. *)
Theorem createReverseSwap_pays_stored_registered_swap (server : rpcserver.routedBoltzServer)
    (isAuto : bool) (request : rpcserver.CreateReverseSwapRequest) (w : World)
    (id : string) :
  In (NurseryPayReverseSwap id)
     (events_of (rpcserver.createReverseSwap server isAuto request w)) ->
  rpcserver.lightning server <> None
  /\ length (List.filter is_NurseryPayReverseSwap
               (events_of (rpcserver.createReverseSwap server isAuto request w))) = 1
  /\ exists rs,
       In (DbCreateReverseSwap rs)
         (events_before is_NurseryPayReverseSwap
            (events_of (rpcserver.createReverseSwap server isAuto request w)))
       /\ In (NurseryRegisterReverseSwap id)
            (events_before is_NurseryPayReverseSwap
               (events_of (rpcserver.createReverseSwap server isAuto request w)))
       /\ rId rs = id /\ rExternalPay rs = false
       /\ (rpcserver.nursery_PayReverseSwap (rpcserver.nursery server) rs = None ->
           reverseSwaps (world_of (rpcserver.createReverseSwap server isAuto request w))
             !! id = Some rs)
       /\ (forall err,
             rpcserver.nursery_PayReverseSwap (rpcserver.nursery server) rs = Some err ->
             In (DbUpdateReverseSwapState id SwapState_ERROR err)
                (events_of (rpcserver.createReverseSwap server isAuto request w))
             /\ (write_fails (rpcserver.database server)
                   (DbUpdateReverseSwapState id SwapState_ERROR err) = None ->
                 result_of (rpcserver.createReverseSwap server isAuto request w) = Error err
                 /\ reverseSwaps
                      (world_of (rpcserver.createReverseSwap server isAuto request w)) !! id
                    = Some (with_rState rs SwapState_ERROR err))
             /\ (forall e,
                   write_fails (rpcserver.database server)
                     (DbUpdateReverseSwapState id SwapState_ERROR err) = Some e ->
                   result_of (rpcserver.createReverseSwap server isAuto request w) = Error e
                   /\ reverseSwaps
                        (world_of (rpcserver.createReverseSwap server isAuto request w))
                        !! id
                      = Some rs)).
Proof.
  intros HIn.
  destruct (createReverseSwap_run server isAuto request w) as (_ & Hpay & _).
  destruct (Hpay id HIn)
    as (ln & rs & Hln & Hrow & _ & Hid & Hexternal & Hregistered & _ & Honce & Hend).
  split; [congruence|]. split; [exact Honce|].
  exists rs. do 4 (split; [assumption|]). split.
  - intros Hpaid. rewrite Hpaid in Hend. rewrite Hend. cbn. apply lookup_insert_eq.
  - intros err Hfailed. rewrite Hfailed in Hend. destruct Hend as [Hupdate Hend].
    split; [exact Hupdate|]. split.
    + intros Haccepted. rewrite Haccepted in Hend. destruct Hend as [-> ->].
      split; [reflexivity|]. cbn.
      rewrite lookup_alter_eq, lookup_insert_eq. reflexivity.
    + intros e Hrefused. rewrite Hrefused in Hend. destruct Hend as [-> ->].
      split; [reflexivity|]. cbn. apply lookup_insert_eq.
Qed.

(** The node of the sample server fails to pay: the call returns the
    payment error and the stored row carries it. *)
Lemma createReverseSwap_pays_stored_registered_swap_witness :
  let run := rpcserver.createReverseSwap
               (with_nursery (sample_server "bcrt1plockup" sample_reverse_invoice)
                  sample_failing_nursery)
               false sample_reverse_request sample_world in
  result_of run = Error "no route"
  /\ exists rs, reverseSwaps (world_of run) !! "reverse1" = Some rs
                /\ rState rs = SwapState_ERROR /\ rError rs = "no route".
Proof.
  intros run. subst run.
  assert (HIn : In (NurseryPayReverseSwap "reverse1")
                  (events_of (rpcserver.createReverseSwap
                                (with_nursery
                                   (sample_server "bcrt1plockup" sample_reverse_invoice)
                                   sample_failing_nursery)
                                false sample_reverse_request sample_world))).
  { vm_compute. repeat (first [left; reflexivity | right]). }
  destruct (createReverseSwap_pays_stored_registered_swap _ _ _ _ _ HIn)
    as (_ & _ & rs & _ & _ & _ & _ & _ & Hfailed).
  destruct (Hfailed "no route" eq_refl) as (_ & Haccepted & _).
  destruct (Haccepted eq_refl) as [Hresult Hworld].
  split; [exact Hresult|].
  exists (with_rState rs SwapState_ERROR "no route").
  split; [exact Hworld|]. split; reflexivity.
Defined.

(** X9. A successful [createReverseSwap] answers with the id of the row
    it stored, which is in the table when the run ends, and with a lockup
    address that has passed [CheckAddress]; the swap is registered with the
    nursery.  For a swap marked for external payment (always so in
    standalone mode) the answer carries the invoice of the row, no claim
    transaction, and the node was not asked to pay; otherwise the answer
    carries no invoice and the node was asked to pay. *)
Theorem createReverseSwap_response_names_stored_row (server : rpcserver.routedBoltzServer)
    (isAuto : bool) (request : rpcserver.CreateReverseSwapRequest) (w : World)
    (response : rpcserver.CreateReverseSwapResponse) :
  result_of (rpcserver.createReverseSwap server isAuto request w) = Ok response ->
  exists rs,
    reverseSwaps (world_of (rpcserver.createReverseSwap server isAuto request w))
      !! rpcserver.rsId response = Some rs
    /\ rId rs = rpcserver.rsId response
    /\ In (DbCreateReverseSwap rs)
         (events_of (rpcserver.createReverseSwap server isAuto request w))
    /\ In (TreeCheckAddress (rpcserver.rsLockupAddress response) None)
         (events_of (rpcserver.createReverseSwap server isAuto request w))
    /\ In (NurseryRegisterReverseSwap (rpcserver.rsId response))
         (events_of (rpcserver.createReverseSwap server isAuto request w))
    /\ (rpcserver.lightning server = None -> rExternalPay rs = true)
    /\ (rExternalPay rs = true ->
        rpcserver.rsInvoice response = Some (rInvoice rs)
        /\ rpcserver.rsClaimTransactionId response = None
        /\ forall id,
             ~ In (NurseryPayReverseSwap id)
                 (events_of (rpcserver.createReverseSwap server isAuto request w)))
    /\ (rExternalPay rs = false ->
        rpcserver.rsInvoice response = None
        /\ In (NurseryPayReverseSwap (rpcserver.rsId response))
             (events_of (rpcserver.createReverseSwap server isAuto request w))).
Proof.
  intros Hok.
  destruct (createReverseSwap_run server isAuto request w) as (Hrow & _ & Hresponse).
  destruct (Hresponse response Hok)
    as (rs & HIn & Hworld & Hid & Haddress & Hregistered & Hend).
  destruct (Hrow rs HIn)
    as (publicKey & preimageHash & req & resp & invoice & _ & _ & _ & _ & _ & _ & _ & _ & _
        & _ & _ & _ & _ & _ & _ & _ & _ & _ & _ & _ & _ & Hstandalone & _).
  exists rs. rewrite Hworld, Hid. cbn [reverseSwaps set_reverseSwaps].
  split; [apply lookup_insert_eq|]. split; [reflexivity|]. split; [exact HIn|].
  split; [exact Haddress|]. split; [exact Hregistered|].
  split; [exact Hstandalone|].
  destruct (rExternalPay rs).
  - destruct Hend as (Hinvoice & Hclaim & _ & Hnone).
    split; [|discriminate]. intros _. split; [exact Hinvoice|]. split; [exact Hclaim|].
    intros id Hpay.
    pose proof (In_existsb is_NurseryPayReverseSwap _ _ Hpay eq_refl) as Hex.
    congruence.
  - split; [discriminate|]. intros _. exact Hend.
Qed.

(** The sample server, asked for a reverse swap paid by its node, answers
    with the id of the stored row and without invoice. *)
Lemma createReverseSwap_response_names_stored_row_witness :
  exists rs,
    reverseSwaps (world_of (rpcserver.createReverseSwap
                              (sample_server "bcrt1plockup" sample_reverse_invoice) false
                              sample_reverse_request sample_world)) !! "reverse1" = Some rs
    /\ rId rs = "reverse1".
Proof.
  eassert (Hok : result_of (rpcserver.createReverseSwap
                              (sample_server "bcrt1plockup" sample_reverse_invoice) false
                              sample_reverse_request sample_world) = Ok _).
  { vm_compute. reflexivity. }
  destruct (createReverseSwap_response_names_stored_row _ _ _ _ _ Hok)
    as (rs & Hstored & Hid & _).
  exists rs. split; [exact Hstored | exact Hid].
Defined.

Lemma find_app_first {A} (f : A -> bool) (l l' : list A) :
  List.find f (l ++ l') = match List.find f l with Some x => Some x | None => List.find f l' end.
Proof. induction l as [|x l IH]; [reflexivity|]. cbn. destruct (f x); auto. Qed.

(** X10. The wait for updates at the end of [createReverseSwap] reads the
    updates until the channel is closed or an update reports ERROR or
    SERVER_ERROR.  It ends without error exactly when no update failed;
    the response then carries the claim transaction and the routing fee of
    the last successful update (those it had before, if there was none),
    and id, lockup address and invoice are untouched.  It ends with an
    error at the first failed update, with that update's error text,
    whatever was reported before or comes after. *)
Theorem awaitUpdates_outcome (updates : list rpcserver.SwapUpdate)
    (rpcResponse : rpcserver.CreateReverseSwapResponse) :
  match rpcserver.awaitUpdates updates rpcResponse with
  | Ok response =>
      Forall (fun info => update_failed info = false) updates
      /\ rpcserver.rsId response = rpcserver.rsId rpcResponse
      /\ rpcserver.rsLockupAddress response = rpcserver.rsLockupAddress rpcResponse
      /\ rpcserver.rsInvoice response = rpcserver.rsInvoice rpcResponse
      /\ match last_successful updates with
         | Some info =>
             rpcserver.rsClaimTransactionId response
             = Some (rpcserver.upClaimTransactionId info)
             /\ rpcserver.rsRoutingFeeMilliSat response = rpcserver.upRoutingFeeMsat info
         | None =>
             rpcserver.rsClaimTransactionId response
             = rpcserver.rsClaimTransactionId rpcResponse
             /\ rpcserver.rsRoutingFeeMilliSat response
                = rpcserver.rsRoutingFeeMilliSat rpcResponse
         end
  | Error e =>
      exists before info after,
        updates = before ++ info :: after
        /\ Forall (fun info => update_failed info = false) before
        /\ update_failed info = true
        /\ e = "reverse swap failed: " +:+ rpcserver.upError info
  end.
Proof.
  revert rpcResponse. induction updates as [|info rest IH]; intros rpcResponse.
  - cbn. auto 10.
  - cbn [rpcserver.awaitUpdates]. fold (update_failed info). fold (update_successful info).
    destruct (update_failed info) eqn:Hfailed.
    + exists [], info, rest. auto.
    + specialize (IH (if update_successful info
                      then rpcserver.with_claim rpcResponse
                             (rpcserver.upClaimTransactionId info)
                             (rpcserver.upRoutingFeeMsat info)
                      else rpcResponse)).
      destruct (rpcserver.awaitUpdates rest _) as [response|e].
      * destruct IH as (Hall & Hid & Haddress & Hinvoice & Hlast).
        split; [constructor; assumption|].
        split; [destruct (update_successful info); exact Hid|].
        split; [destruct (update_successful info); exact Haddress|].
        split; [destruct (update_successful info); exact Hinvoice|].
        unfold last_successful in *. cbn [rev]. rewrite find_app_first.
        destruct (List.find update_successful (rev rest)) as [found|]; [exact Hlast|].
        cbn [List.find]. destruct (update_successful info); exact Hlast.
      * destruct IH as (before & failed & after & -> & Hall & Hfailed' & ->).
        exists (info :: before), failed, after. auto.
Qed.

(* ===================================================================== *)
(** * Wallet passwords, unlocking and wallet names *)
(* ===================================================================== *)

(** The loop of [decryptWalletCredentials] succeeds exactly when every
    encrypted entry decrypts; the entries come back in stored order, the
    unencrypted ones untouched. *)
Lemma decrypt_range_spec (ws : rpcserver.Wallets) (password : string)
    (credentials decrypted : list rpcserver.Credentials) :
  match rpcserver.decrypt_range ws password credentials decrypted with
  | Ok result =>
      Forall2 (fun stored creds =>
                 if rpcserver.Encrypted stored
                 then rpcserver.Credentials_Decrypt ws stored password = Ok creds
                 else creds = stored)
        credentials (drop (length decrypted) result)
      /\ take (length decrypted) result = decrypted
  | Error e =>
      exists stored,
        In stored credentials /\ rpcserver.Encrypted stored = true
        /\ rpcserver.Credentials_Decrypt ws stored password = Error e
  end.
Proof.
  revert decrypted. induction credentials as [|stored rest IH]; intros decrypted.
  - cbn. rewrite drop_all, firstn_all. split; [constructor | reflexivity].
  - cbn [rpcserver.decrypt_range].
    destruct (rpcserver.Encrypted stored) eqn:Hencrypted.
    + destruct (rpcserver.Credentials_Decrypt ws stored password) as [creds|e] eqn:Hdecrypt.
      * specialize (IH (decrypted ++ [creds])).
        destruct (rpcserver.decrypt_range ws password rest _) as [result|e].
        -- destruct IH as [Hrest Htake]. rewrite length_app in Hrest, Htake. cbn in Hrest, Htake.
           assert (Hresult : result = decrypted ++ creds :: drop (length decrypted + 1) result).
           { rewrite <- (take_drop (length decrypted + 1) result) at 1.
             rewrite Htake, <- app_assoc. reflexivity. }
           split.
           ++ rewrite Hresult at 1. rewrite drop_app_length.
              constructor; [rewrite Hencrypted; exact Hdecrypt | exact Hrest].
           ++ rewrite Hresult. rewrite take_app_length. reflexivity.
        -- destruct IH as (failed & HIn & Hfailed). exists failed. split; [right|]; assumption.
      * exists stored. split; [left; reflexivity|]. split; assumption.
    + specialize (IH (decrypted ++ [stored])).
      destruct (rpcserver.decrypt_range ws password rest _) as [result|e].
      * destruct IH as [Hrest Htake]. rewrite length_app in Hrest, Htake. cbn in Hrest, Htake.
        assert (Hresult : result = decrypted ++ stored :: drop (length decrypted + 1) result).
        { rewrite <- (take_drop (length decrypted + 1) result) at 1.
          rewrite Htake, <- app_assoc. reflexivity. }
        split.
        -- rewrite Hresult at 1. rewrite drop_app_length.
           constructor; [rewrite Hencrypted; reflexivity | exact Hrest].
        -- rewrite Hresult. rewrite take_app_length. reflexivity.
      * destruct IH as (failed & HIn & Hfailed). exists failed. split; [right|]; assumption.
Qed.

(** X11. [VerifyWalletPassword] never returns an error and leaves the
    world untouched.  It answers [Correct] exactly when the stored
    credentials can be read and every encrypted one decrypts with the
    password; so on a server whose stored credentials are all unencrypted
    (or that has none) every password is reported correct, and when the
    credentials cannot be read no password is. *)
Theorem VerifyWalletPassword_correct (server : rpcserver.routedBoltzServer)
    (password : string) (w : World) :
  world_of (rpcserver.VerifyWalletPassword server password w) = w
  /\ exists correct,
       result_of (rpcserver.VerifyWalletPassword server password w) = Ok correct
       /\ (correct = true
           <-> exists credentials,
                 rpcserver.database_QueryWalletCredentials (rpcserver.wallets server)
                 = Ok credentials
                 /\ forall stored,
                      In stored credentials -> rpcserver.Encrypted stored = true ->
                      exists creds,
                        rpcserver.Credentials_Decrypt (rpcserver.wallets server) stored
                          password = Ok creds)
       /\ (forall credentials,
             rpcserver.database_QueryWalletCredentials (rpcserver.wallets server)
             = Ok credentials ->
             Forall (fun stored => rpcserver.Encrypted stored = false) credentials ->
             correct = true)
       /\ (forall e,
             rpcserver.database_QueryWalletCredentials (rpcserver.wallets server) = Error e ->
             correct = false).
Proof.
  unfold rpcserver.VerifyWalletPassword, rpcserver.decryptWalletCredentials, bind, on_error,
    lift, fail, ret, logger_Debug, emit.
  destruct (rpcserver.database_QueryWalletCredentials (rpcserver.wallets server))
    as [credentials|e] eqn:Hquery.
  - pose proof (decrypt_range_spec (rpcserver.wallets server) password credentials [])
      as Hspec.
    destruct (rpcserver.decrypt_range (rpcserver.wallets server) password credentials [])
      as [result|e].
    + cbn. split; [reflexivity|]. exists true. split; [reflexivity|].
      destruct Hspec as [Hall _]. cbn in Hall. rewrite drop_0 in Hall.
      split; [|split; [reflexivity | discriminate]].
      split; [|reflexivity]. intros _. exists credentials. split; [reflexivity|].
      intros stored HIn Hencrypted.
      apply list_elem_of_In, list_elem_of_lookup_1 in HIn as [i Hi].
      destruct (Forall2_lookup_l _ _ _ _ _ Hall Hi) as (creds & _ & Hdecrypt).
      rewrite Hencrypted in Hdecrypt. eauto.
    + cbn. split; [reflexivity|]. exists false. split; [reflexivity|].
      destruct Hspec as (stored & HIn & Hencrypted & Hfailed).
      split; [|split; [|discriminate]].
      * split; [discriminate|]. intros (credentials' & [= <-] & Hall).
        destruct (Hall stored HIn Hencrypted) as (creds & Hdecrypt). congruence.
      * intros credentials' [= <-] Hnone.
        rewrite Forall_forall in Hnone.
        rewrite (Hnone stored (proj2 (list_elem_of_In _ _) HIn)) in Hencrypted.
        discriminate.
  - cbn. split; [reflexivity|]. exists false. split; [reflexivity|].
    split; [|split; [discriminate | reflexivity]].
    split; [discriminate|]. intros (credentials & Hcredentials & _). discriminate.
Qed.

(** With one unencrypted wallet stored, the sample server reports a wrong
    password as correct. *)
Lemma VerifyWalletPassword_correct_witness :
  result_of (rpcserver.VerifyWalletPassword
               (with_wallets (sample_server "bcrt1plockup" "lnbcrt1invoice")
                  (sample_wallets [ {| rpcserver.credName := "cold";
                                       rpcserver.Encrypted := false |} ]))
               "not the password" sample_world) = Ok true.
Proof.
  destruct (VerifyWalletPassword_correct
              (with_wallets (sample_server "bcrt1plockup" "lnbcrt1invoice")
                 (sample_wallets [ {| rpcserver.credName := "cold";
                                      rpcserver.Encrypted := false |} ]))
              "not the password" sample_world) as (_ & correct & Hresult & _ & Hplain & _).
  rewrite Hresult. f_equal. eapply Hplain; [reflexivity|].
  repeat constructor.
Defined.








Lemma is_letter_or_digit_spec (c : ascii) :
  rpcserver.is_letter_or_digit c = true
  <-> (97 <= nat_of_ascii c <= 122 \/ 65 <= nat_of_ascii c <= 90
       \/ 48 <= nat_of_ascii c <= 57)%nat.
Proof.
  unfold rpcserver.is_letter_or_digit.
  rewrite !orb_true_iff, !andb_true_iff, !Nat.leb_le. tauto.
Qed.

(** X13. [checkName] accepts exactly the names made of the ASCII letters
    a-z, A-Z and the digits 0-9, the empty name among them; any other
    character anywhere in the name (a space, a dash, an underscore, a byte
    of a character outside ASCII) gets the name refused.  A name is
    accepted if and only if all of its parts are. *)
Theorem checkName_accepts_letters_and_digits (name : string) :
  (rpcserver.checkName name = None
   <-> forall c, In c (list_ascii_of_string name) ->
         (97 <= nat_of_ascii c <= 122 \/ 65 <= nat_of_ascii c <= 90
          \/ 48 <= nat_of_ascii c <= 57)%nat)
  /\ (rpcserver.checkName name <> None ->
      rpcserver.checkName name
      = Some "wallet name must only contain alphabetic characters and numbers")
  /\ (forall rest,
        rpcserver.checkName (name ++ rest) = None
        <-> rpcserver.checkName name = None /\ rpcserver.checkName rest = None).
Proof.
  assert (Hmatch : forall s,
             rpcserver.regexp_MatchString_other s = false
             <-> forall c, In c (list_ascii_of_string s) ->
                   rpcserver.is_letter_or_digit c = true).
  { induction s as [|c s IH]; cbn.
    - split; [intros _ c [] | reflexivity].
    - rewrite orb_false_iff, negb_false_iff, IH. split.
      + intros [Hc Hs] c' [<- | HIn]; auto.
      + intros H. split; [apply H; left; reflexivity | intros c' HIn; apply H; right; exact HIn]. }
  assert (Hcheck : forall s,
             rpcserver.checkName s = None <-> rpcserver.regexp_MatchString_other s = false).
  { intros s. unfold rpcserver.checkName.
    destruct (rpcserver.regexp_MatchString_other s); split; congruence. }
  split; [|split].
  - rewrite Hcheck, Hmatch. split; intros H c HIn; apply is_letter_or_digit_spec; auto.
  - unfold rpcserver.checkName. destruct (rpcserver.regexp_MatchString_other name);
      [reflexivity | intros H; contradiction].
  - intros rest. rewrite !Hcheck.
    induction name as [|c name IH].
    + cbn. tauto.
    + change (String c name +:+ rest) with (String c (name +:+ rest)).
      cbn [rpcserver.regexp_MatchString_other].
      rewrite !orb_false_iff, IH. tauto.
Qed.

(** "wallet2" is a name; "my wallet" is not. *)
Lemma checkName_accepts_letters_and_digits_witness :
  rpcserver.checkName "wallet2" = None
  /\ rpcserver.checkName "my wallet"
     = Some "wallet name must only contain alphabetic characters and numbers".
Proof.
  split; [reflexivity|].
  apply (checkName_accepts_letters_and_digits "my wallet"). discriminate.
Defined.

(* ===================================================================== *)
(** * More on the nursery *)
(* ===================================================================== *)

Lemma invoice_settledb_spec (n : nursery.Nursery) (swap : Swap) :
  invoice_settledb n swap = true <-> invoice_settled n swap.
Proof.
  unfold invoice_settledb, invoice_settled. split.
  - destruct (zpay32_Decode _ _ _) as [decodedInvoice|e]; [|discriminate].
    destruct (nursery.lnd_LookupInvoice _ _) as [invoiceInfo|e] eqn:Hlookup; [|discriminate].
    intros Hstate. exists decodedInvoice, invoiceInfo. split; [reflexivity|].
    split; [exact Hlookup|]. destruct (Invoice_State invoiceInfo); first [reflexivity | discriminate].
  - intros (decodedInvoice & invoiceInfo & -> & -> & ->). reflexivity.
Qed.

(** What [handleSwapStatus] does, by the parsed status: for a claimed swap
    whose invoice is not settled nothing but a warning; in every other case
    one status update, with an error in the log when the storage refuses
    it. *)
Lemma handleSwapStatus_run (n : nursery.Nursery) (swap : Swap) (status : string) (w : World) :
  let parsedStatus := ParseEvent status in
  let update := DbUpdateSwapStatus (Id swap) parsedStatus in
  if bool_decide (parsedStatus = TransactionClaimed) && negb (invoice_settledb n swap)
  then result_of (nursery.handleSwapStatus n swap status w) = Ok swap
       /\ world_of (nursery.handleSwapStatus n swap status w) = w
       /\ exists msg, events_of (nursery.handleSwapStatus n swap status w) = [Log Warning msg]
  else result_of (nursery.handleSwapStatus n swap status w)
       = Ok (with_Status swap parsedStatus)
       /\ List.filter is_db_write (events_of (nursery.handleSwapStatus n swap status w))
          = [update]
       /\ match write_fails (nursery.database n) update with
          | None =>
              world_of (nursery.handleSwapStatus n swap status w)
              = set_swaps (alter (fun row => with_Status row parsedStatus) (Id swap)) w
              /\ Forall (fun ev => is_Log ev = true -> exists msg, ev = Log Info msg)
                   (events_of (nursery.handleSwapStatus n swap status w))
          | Some err =>
              world_of (nursery.handleSwapStatus n swap status w) = w
              /\ In (Log ErrorLevel ("Could not update status of Swap " +:+ Id swap
                                     +:+ ": " +:+ err))
                   (events_of (nursery.handleSwapStatus n swap status w))
          end.
Proof.
  intros parsedStatus update. subst update. unfold invoice_settledb.
  unfold nursery.handleSwapStatus. fold parsedStatus.
  cbv beta iota zeta delta
    [database_UpdateSwapStatus bind on_error logger_Info logger_Warning logger_Error
     emit ret fail lift].
  destruct parsedStatus eqn:Hparsed; cbn [bool_decide decide_rel andb];
    try (rewrite bool_decide_eq_false_2 by discriminate; cbn [andb]);
    try (rewrite bool_decide_eq_true_2 by reflexivity; cbn [andb]).
  4: { destruct (zpay32_Decode (nursery.libs n) (Invoice swap) (nursery.chainParams n))
         as [decodedInvoice|e]; [|cbn; eauto].
       destruct (nursery.lnd_LookupInvoice (nursery.lnd n) (PaymentHash decodedInvoice))
         as [invoiceInfo|e]; [|cbn; eauto].
       destruct (Invoice_State invoiceInfo); cbn [InvoiceState_eqb negb]; try (cbn; eauto).
       destruct (write_fails (nursery.database n) _); cbn;
         (split; [reflexivity|]; split; [reflexivity|]; split; [reflexivity|]);
         [auto | repeat constructor; intros; first [discriminate | eauto]]. }
  all: destruct (write_fails (nursery.database n) _); cbn;
         (split; [reflexivity|]; split; [reflexivity|]; split; [reflexivity|]);
         [auto | repeat constructor; intros; first [discriminate | eauto]].
Qed.

(** X14. For every status other than [transaction.claimed] the nursery
    writes the parsed status without consulting the Lightning node: the
    run makes exactly one database write, the update of this swap to that
    status.  If the storage accepts it, the row of the swap (and no other
    row) carries the new status; if it refuses, the world is unchanged and
    the refusal is logged as an error. *)
Theorem handleSwapStatus_writes_other_statuses (n : nursery.Nursery) (swap : Swap)
    (status : string) (w : World) :
  ParseEvent status <> TransactionClaimed ->
  List.filter is_db_write (events_of (nursery.handleSwapStatus n swap status w))
  = [DbUpdateSwapStatus (Id swap) (ParseEvent status)]
  /\ result_of (nursery.handleSwapStatus n swap status w)
     = Ok (with_Status swap (ParseEvent status))
  /\ (write_fails (nursery.database n) (DbUpdateSwapStatus (Id swap) (ParseEvent status))
      = None ->
      swaps (world_of (nursery.handleSwapStatus n swap status w)) !! Id swap
      = (fun row => with_Status row (ParseEvent status)) <$> swaps w !! Id swap
      /\ (forall id, id <> Id swap ->
            swaps (world_of (nursery.handleSwapStatus n swap status w)) !! id
            = swaps w !! id)
      /\ reverseSwaps (world_of (nursery.handleSwapStatus n swap status w))
         = reverseSwaps w)
  /\ (forall err,
        write_fails (nursery.database n) (DbUpdateSwapStatus (Id swap) (ParseEvent status))
        = Some err ->
        world_of (nursery.handleSwapStatus n swap status w) = w
        /\ In (Log ErrorLevel ("Could not update status of Swap " +:+ Id swap
                               +:+ ": " +:+ err))
             (events_of (nursery.handleSwapStatus n swap status w))).
Proof.
  intros Hother. pose proof (handleSwapStatus_run n swap status w) as Hrun.
  cbv zeta in Hrun. rewrite bool_decide_eq_false_2 in Hrun by exact Hother.
  cbn [andb] in Hrun. destruct Hrun as (Hresult & Hwrites & Hworld).
  split; [exact Hwrites|]. split; [exact Hresult|]. split.
  - intros Haccepted. rewrite Haccepted in Hworld. destruct Hworld as [-> _].
    cbn [swaps reverseSwaps set_swaps]. split; [apply lookup_alter_eq|].
    split; [|reflexivity]. intros id Hid. apply lookup_alter_ne. congruence.
  - intros err Hrefused. rewrite Hrefused in Hworld. exact Hworld.
Qed.

(** The sample nursery with a node that reports no invoice as settled
    records the expiry of the sample swap all the same. *)
Lemma handleSwapStatus_writes_other_statuses_witness :
  let w := set_swaps (insert "swap1" (sample_swap 800000)) sample_world in
  swaps (world_of (nursery.handleSwapStatus sample_unsettled_nursery (sample_swap 800000)
                     "swap.expired" w)) !! "swap1"
  = Some (with_Status (sample_swap 800000) SwapExpired).
Proof.
  intros w.
  destruct (handleSwapStatus_writes_other_statuses sample_unsettled_nursery
              (sample_swap 800000) "swap.expired" w) as (_ & _ & Haccepted & _).
  - discriminate.
  - destruct (Haccepted eq_refl) as [Hrow _]. exact Hrow.
Defined.

(** What a run of [refundSwap] does outside the process, in order. *)
Lemma refundSwap_run (n : nursery.Nursery) (swap : Swap) (w : World) :
  result_of (nursery.refundSwap n swap w) = Ok tt
  /\ length (List.filter is_LightningNewAddress (events_of (nursery.refundSwap n swap w))) = 1
  /\ length (List.filter is_ExchangeBroadcast (events_of (nursery.refundSwap n swap w))) <= 1
  /\ (forall transactionHex,
        In (ExchangeBroadcast transactionHex) (events_of (nursery.refundSwap n swap w)) ->
        exists lockupVout destination tx,
          In (RefundConstructed lockupVout destination tx)
            (events_before is_ExchangeBroadcast (events_of (nursery.refundSwap n swap w)))
          /\ boltz_SerializeTransaction (nursery.libs n) tx = Ok transactionHex)
  /\ (forall id status,
        In (DbUpdateSwapStatus id status) (events_of (nursery.refundSwap n swap w)) ->
        id = Id swap /\ status = SwapRefunded
        /\ exists transactionHex transactionId,
             In (ExchangeBroadcast transactionHex)
               (events_before is_db_write (events_of (nursery.refundSwap n swap w)))
             /\ nursery.boltz_BroadcastTransaction (nursery.boltz n) transactionHex
                = Ok transactionId)
  /\ (existsb is_db_write (events_of (nursery.refundSwap n swap w)) = false ->
      world_of (nursery.refundSwap n swap w) = w)
  /\ (forall ev, In ev (events_of (nursery.refundSwap n swap w)) ->
        is_db_write ev = true -> is_DbUpdateSwapStatus ev = true).
Proof.
  destruct (nursery.refundSwap n swap w) as [[r w'] evs] eqn:Hrun.
  unfold nursery.refundSwap, nursery.handleSwapStatus in Hrun.
  rewrite (ParseEvent_String SwapRefunded) in Hrun by discriminate.
  run_nursery Hrun.
  all: injection Hrun as <- <- <-.
  all: cbn [events_of result_of world_of fst snd app existsb List.filter length
            is_LightningNewAddress is_ExchangeBroadcast is_db_write events_before orb].
  all: split; [reflexivity|]; split; [reflexivity|]; split; [lia|].
  all: split;
         [ intros transactionHex HIn;
           first [ solve [pick_event HIn]
                 | pick_event HIn; injection HIn as <-;
                   eexists _, _, _; split; [find_event | by_equation] ]
         | ].
  all: split;
         [ intros id status HIn;
           first [ solve [pick_event HIn]
                 | pick_event HIn; injection HIn as <- <-;
                   split; [reflexivity|]; split; [reflexivity|];
                   eexists _, _; split; [find_event | by_equation] ]
         | ].
  all: split; [intros Hnone; first [reflexivity | discriminate Hnone]|].
  all: intros ev HIn Hwrite; pick_event HIn; subst ev;
       first [reflexivity | discriminate Hwrite].
Qed.

(** X15. [refundSwap] asks the node for exactly one new address, asks the
    exchange to broadcast at most one transaction, namely the
    serialisation of the refund transaction it has constructed, and writes
    to the database only after the exchange has accepted the broadcast:
    that write sets the status of this swap to [swap.refunded].  A failure
    at any earlier step is logged and leaves the world as it was; the
    function itself never fails. *)
Theorem refundSwap_marks_refunded_after_broadcast (n : nursery.Nursery) (swap : Swap)
    (w : World) :
  result_of (nursery.refundSwap n swap w) = Ok tt
  /\ length (List.filter is_LightningNewAddress (events_of (nursery.refundSwap n swap w))) = 1
  /\ length (List.filter is_ExchangeBroadcast (events_of (nursery.refundSwap n swap w))) <= 1
  /\ (forall transactionHex,
        In (ExchangeBroadcast transactionHex) (events_of (nursery.refundSwap n swap w)) ->
        exists lockupVout destination tx,
          In (RefundConstructed lockupVout destination tx)
            (events_before is_ExchangeBroadcast (events_of (nursery.refundSwap n swap w)))
          /\ boltz_SerializeTransaction (nursery.libs n) tx = Ok transactionHex)
  /\ (forall ev, In ev (events_of (nursery.refundSwap n swap w)) ->
        is_db_write ev = true ->
        ev = DbUpdateSwapStatus (Id swap) SwapRefunded
        /\ exists transactionHex transactionId,
             In (ExchangeBroadcast transactionHex)
               (events_before is_db_write (events_of (nursery.refundSwap n swap w)))
             /\ nursery.boltz_BroadcastTransaction (nursery.boltz n) transactionHex
                = Ok transactionId)
  /\ (world_of (nursery.refundSwap n swap w) <> w ->
      In (DbUpdateSwapStatus (Id swap) SwapRefunded) (events_of (nursery.refundSwap n swap w))).
Proof.
  destruct (refundSwap_run n swap w)
    as (Hresult & Haddress & Honce & Hbroadcast & Hupdate & Hnone & Hkind).
  split; [exact Hresult|]. split; [exact Haddress|]. split; [exact Honce|].
  split; [exact Hbroadcast|]. split.
  - intros ev HIn Hwrite. pose proof (Hkind ev HIn Hwrite) as Hev.
    destruct ev; try discriminate Hev.
    destruct (Hupdate _ _ HIn) as (-> & -> & Hbefore). auto.
  - intros Hchanged.
    destruct (existsb is_db_write (events_of (nursery.refundSwap n swap w))) eqn:Hex.
    + apply existsb_exists in Hex as (ev & HIn & Hwrite).
      pose proof (Hkind ev HIn Hwrite) as Hev. destruct ev; try discriminate Hev.
      destruct (Hupdate _ _ HIn) as (-> & -> & _). exact HIn.
    + destruct (Hchanged (Hnone eq_refl)).
Qed.

(** The sample nursery refunds the sample swap: one address, one
    broadcast, and the row is marked refunded. *)
Lemma refundSwap_marks_refunded_after_broadcast_witness :
  let w := set_swaps (insert "swap1" (sample_swap 800000)) sample_world in
  result_of (nursery.refundSwap sample_nursery (sample_swap 800000) w) = Ok tt
  /\ In (DbUpdateSwapStatus "swap1" SwapRefunded)
       (events_of (nursery.refundSwap sample_nursery (sample_swap 800000) w)).
Proof.
  intros w.
  destruct (refundSwap_marks_refunded_after_broadcast sample_nursery (sample_swap 800000) w)
    as (Hresult & _ & _ & _ & _ & Hchanged).
  split; [exact Hresult|]. apply Hchanged.
  intros Hsame. apply (f_equal (fun world => Status <$> swaps world !! "swap1")) in Hsame.
  vm_compute in Hsame. discriminate Hsame.
Defined.







(** [refundSwap] signals no listener. *)
Lemma refundSwap_no_signal (n : nursery.Nursery) (swap : Swap) (w : World) :
  List.filter is_ListenerStop (events_of (nursery.refundSwap n swap w)) = [].
Proof.
  destruct (nursery.refundSwap n swap w) as [[r w'] evs] eqn:Hrun.
  unfold nursery.refundSwap, nursery.handleSwapStatus in Hrun.
  rewrite (ParseEvent_String SwapRefunded) in Hrun by discriminate.
  run_nursery Hrun.
  all: injection Hrun as <- <- <-.
  all: reflexivity.
Qed.

Lemma not_In_ListenerStop (evs : list Event) (id : string) :
  List.filter is_ListenerStop evs = [] -> ~ In (ListenerStop id) evs.
Proof.
  intros Hnone HIn.
  assert (HIn' : In (ListenerStop id) (List.filter is_ListenerStop evs))
    by (apply List.filter_In; split; [exact HIn | reflexivity]).
  rewrite Hnone in HIn'. exact HIn'.
Qed.

(** The map after one more deletion. *)
Lemma lookup_after_deletions (eventListeners eventListeners1 eventListeners' : gmap string nat)
    (x : string) (ids : list string) :
  (forall id, eventListeners1 !! id
              = if bool_decide (id = x) then None else eventListeners !! id) ->
  (forall id, eventListeners' !! id
              = if bool_decide (id ∈ ids) then None else eventListeners1 !! id) ->
  forall id, eventListeners' !! id
             = if bool_decide (id ∈ x :: ids) then None else eventListeners !! id.
Proof.
  intros Hdeleted Hlookup id. rewrite Hlookup, Hdeleted.
  destruct (bool_decide (id ∈ ids)) eqn:Hin; destruct (bool_decide (id = x)) eqn:Hhead.
  - rewrite bool_decide_eq_true_2; [reflexivity|].
    apply bool_decide_eq_true in Hhead. subst. left.
  - rewrite bool_decide_eq_true_2; [reflexivity|].
    apply bool_decide_eq_true in Hin. right. exact Hin.
  - rewrite bool_decide_eq_true_2; [reflexivity|].
    apply bool_decide_eq_true in Hhead. subst. left.
  - rewrite bool_decide_eq_false_2; [reflexivity|].
    apply bool_decide_eq_false in Hin, Hhead.
    intros Helem. apply elem_of_cons in Helem as [? | ?]; contradiction.
Qed.

(** The loop of the block listener over the refundable swaps. *)
Lemma refund_range_spec (n : nursery.Nursery) (receiving : nat -> bool)
    (swapsToRefund : list Swap) (eventListeners : gmap string nat) (w : World) :
  pass_writes_refunds swapsToRefund
    (events_of (nursery.refund_range n receiving eventListeners swapsToRefund w))
  /\ match result_of (nursery.refund_range n receiving eventListeners swapsToRefund w) with
     | Ok (nursery.PassDone eventListeners') =>
         pass_done receiving eventListeners swapsToRefund eventListeners'
           (events_of (nursery.refund_range n receiving eventListeners swapsToRefund w))
     | Ok (nursery.PassBlocked id eventListeners') =>
         pass_blocked receiving eventListeners swapsToRefund id eventListeners'
           (events_of (nursery.refund_range n receiving eventListeners swapsToRefund w))
     | Error _ => False
     end.
Proof.
  revert eventListeners w.
  induction swapsToRefund as [|swapToRefund rest IH]; intros eventListeners w.
  - cbn. split; [intros ev []|]. split; [|split; [reflexivity|split]].
    + intros id. rewrite bool_decide_eq_false_2; [reflexivity | apply not_elem_of_nil].
    + intros id ch Hid. apply not_elem_of_nil in Hid. contradiction.
    + intros id. split; [intros [] | intros [Hid _]].
      apply not_elem_of_nil in Hid. contradiction.
  - cbn [nursery.refund_range].
    destruct (refundSwap_run n swapToRefund w)
      as (Hresult & Haddress & _ & _ & Hupdate & _ & Hkind).
    pose proof (refundSwap_no_signal n swapToRefund w) as Hnosignal.
    assert (Hwrites1 : pass_writes_refunds (swapToRefund :: rest)
                         (events_of (nursery.refundSwap n swapToRefund w))).
    { intros ev HIn Hwrite.
      pose proof (Hkind ev HIn Hwrite) as Hev. destruct ev; try discriminate Hev.
      destruct (Hupdate _ _ HIn) as (-> & -> & _).
      exists swapToRefund. split; [left; reflexivity | reflexivity]. }
    assert (Hwrites2 : forall evs, pass_writes_refunds rest evs ->
                                   pass_writes_refunds (swapToRefund :: rest) evs).
    { intros evs Hevs ev HIn Hwrite. destruct (Hevs ev HIn Hwrite) as (swap & HIn' & ->).
      exists swap. split; [right; exact HIn' | reflexivity]. }
    destruct (eventListeners !! Id swapToRefund) as [stopListening|] eqn:Hhas;
      [destruct (receiving stopListening) eqn:Hreceiving|].
    + (* the listener takes the signal *)
      assert (Hdeleted : forall id,
                 delete (Id swapToRefund) eventListeners !! id
                 = if bool_decide (id = Id swapToRefund) then None
                   else eventListeners !! id).
      { intros id. case_bool_decide as Hid.
        - subst id. apply lookup_delete_eq.
        - apply lookup_delete_ne. congruence. }
      unfold bind, on_error, emit.
      destruct (nursery.refundSwap n swapToRefund w) as [[[[]|e] w1] t1];
        cbn [result_of events_of fst snd] in *; [|discriminate Hresult].
      destruct (IH (delete (Id swapToRefund) eventListeners) w1) as [Hwrites Hrest].
      destruct (nursery.refund_range n receiving (delete (Id swapToRefund) eventListeners)
                  rest w1) as [[[[eventListeners'|id eventListeners']|e] w2] t2];
        cbn [result_of events_of fst snd app] in *; [| |contradiction].
      * split.
        { intros ev [<- | HIn] Hwrite; [discriminate Hwrite|].
          apply in_app_or in HIn as [HIn | HIn]; [exact (Hwrites1 ev HIn Hwrite)|].
          exact (Hwrites2 _ Hwrites ev HIn Hwrite). }
        destruct Hrest as (Hlookup & Hcount & Hall & Hsignals).
        split; [|split; [|split]].
        -- cbn [List.map]. exact (lookup_after_deletions _ _ _ _ _ Hdeleted Hlookup).
        -- cbn [List.filter is_LightningNewAddress length].
           rewrite List.filter_app, length_app, Haddress, Hcount. reflexivity.
        -- intros id ch Hid Hch. cbn [List.map] in Hid.
           destruct (decide (id = Id swapToRefund)) as [-> | Hne].
           ++ rewrite Hhas in Hch. injection Hch as <-. exact Hreceiving.
           ++ apply elem_of_cons in Hid as [Hid | Hid]; [contradiction|].
              apply (Hall id ch Hid). rewrite Hdeleted, bool_decide_eq_false_2 by exact Hne.
              exact Hch.
        -- intros id. cbn [List.map]. split.
           ++ intros [Hev | HIn].
              ** injection Hev as <-. split; [left | rewrite Hhas; eauto].
              ** apply in_app_or in HIn as [HIn | HIn];
                   [exfalso; exact (not_In_ListenerStop _ _ Hnosignal HIn)|].
                 apply Hsignals in HIn as [Hid Hsome]. split; [right; exact Hid|].
                 rewrite Hdeleted in Hsome. case_bool_decide; [destruct Hsome; discriminate|].
                 exact Hsome.
           ++ intros [Hid Hsome].
              destruct (decide (id = Id swapToRefund)) as [-> | Hne]; [left; reflexivity|].
              right. apply in_or_app. right. apply Hsignals.
              apply elem_of_cons in Hid as [Hid | Hid]; [contradiction|].
              split; [exact Hid|].
              rewrite Hdeleted, bool_decide_eq_false_2 by exact Hne. exact Hsome.
      * split.
        { intros ev [<- | HIn] Hwrite; [discriminate Hwrite|].
          apply in_app_or in HIn as [HIn | HIn]; [exact (Hwrites1 ev HIn Hwrite)|].
          exact (Hwrites2 _ Hwrites ev HIn Hwrite). }
        destruct Hrest as (before & swap & after & ch & -> & <- & Hlookup & Hch & Hfresh
                           & Hblocked & Hcount & Hall).
        exists (swapToRefund :: before), swap, after, ch.
        pose proof (Hlookup (Id swap)) as Hat.
        rewrite bool_decide_eq_false_2 in Hat by exact Hfresh.
        rewrite Hch, Hdeleted in Hat. case_bool_decide as Hne; [discriminate Hat|].
        split; [reflexivity|]. split; [reflexivity|]. split; [|split; [|split; [|split; [|split]]]].
        -- cbn [List.map]. exact (lookup_after_deletions _ _ _ _ _ Hdeleted Hlookup).
        -- exact Hch.
        -- cbn [List.map]. intros Hid.
           apply elem_of_cons in Hid as [Hid | Hid]; contradiction.
        -- exact Hblocked.
        -- cbn [List.filter is_LightningNewAddress length].
           rewrite List.filter_app, length_app, Haddress, Hcount. reflexivity.
        -- intros id ch' Hid Hch'. cbn [List.map] in Hid.
           destruct (decide (id = Id swapToRefund)) as [-> | Hne'].
           ++ rewrite Hhas in Hch'. injection Hch' as <-. exact Hreceiving.
           ++ apply elem_of_cons in Hid as [Hid | Hid]; [contradiction|].
              apply (Hall id ch' Hid).
              rewrite Hdeleted, bool_decide_eq_false_2 by exact Hne'. exact Hch'.
    + (* the listener has returned: the send never passes *)
      cbn. split; [intros ev []|].
      exists [], swapToRefund, rest, stopListening.
      split; [reflexivity|]. split; [reflexivity|]. split; [|split; [|split; [|split; [|split]]]].
      * intros id. rewrite bool_decide_eq_false_2; [reflexivity | apply not_elem_of_nil].
      * exact Hhas.
      * apply not_elem_of_nil.
      * exact Hreceiving.
      * reflexivity.
      * intros id ch Hid. apply not_elem_of_nil in Hid. contradiction.
    + (* no listener *)
      assert (Hdeleted : forall id,
                 eventListeners !! id
                 = if bool_decide (id = Id swapToRefund) then None
                   else eventListeners !! id).
      { intros id. case_bool_decide as Hid; [subst id; exact Hhas | reflexivity]. }
      unfold bind, on_error.
      destruct (nursery.refundSwap n swapToRefund w) as [[[[]|e] w1] t1];
        cbn [result_of events_of fst snd] in *; [|discriminate Hresult].
      destruct (IH eventListeners w1) as [Hwrites Hrest].
      destruct (nursery.refund_range n receiving eventListeners rest w1)
        as [[[[eventListeners'|id eventListeners']|e] w2] t2];
        cbn [result_of events_of fst snd app] in *; [| |contradiction].
      * split.
        { intros ev HIn Hwrite.
          apply in_app_or in HIn as [HIn | HIn]; [exact (Hwrites1 ev HIn Hwrite)|].
          exact (Hwrites2 _ Hwrites ev HIn Hwrite). }
        destruct Hrest as (Hlookup & Hcount & Hall & Hsignals).
        split; [|split; [|split]].
        -- cbn [List.map]. exact (lookup_after_deletions _ _ _ _ _ Hdeleted Hlookup).
        -- rewrite List.filter_app, length_app, Haddress, Hcount. reflexivity.
        -- intros id ch Hid Hch. cbn [List.map] in Hid.
           destruct (decide (id = Id swapToRefund)) as [-> | Hne]; [congruence|].
           apply elem_of_cons in Hid as [Hid | Hid]; [contradiction|].
           exact (Hall id ch Hid Hch).
        -- intros id. cbn [List.map]. split.
           ++ intros HIn. apply in_app_or in HIn as [HIn | HIn];
                [exfalso; exact (not_In_ListenerStop _ _ Hnosignal HIn)|].
              apply Hsignals in HIn as [Hid Hsome]. split; [right; exact Hid | exact Hsome].
           ++ intros [Hid Hsome]. apply in_or_app. right. apply Hsignals.
              destruct (decide (id = Id swapToRefund)) as [-> | Hne];
                [rewrite Hhas in Hsome; destruct Hsome; discriminate|].
              apply elem_of_cons in Hid as [Hid | Hid]; [contradiction|].
              split; [exact Hid | exact Hsome].
      * split.
        { intros ev HIn Hwrite.
          apply in_app_or in HIn as [HIn | HIn]; [exact (Hwrites1 ev HIn Hwrite)|].
          exact (Hwrites2 _ Hwrites ev HIn Hwrite). }
        destruct Hrest as (before & swap & after & ch & -> & <- & Hlookup & Hch & Hfresh
                           & Hblocked & Hcount & Hall).
        exists (swapToRefund :: before), swap, after, ch.
        assert (Hne : Id swap <> Id swapToRefund).
        { intros Heq. pose proof (Hlookup (Id swap)) as Hat.
          rewrite bool_decide_eq_false_2 in Hat by exact Hfresh.
          rewrite Hch, Heq, Hhas in Hat. discriminate Hat. }
        split; [reflexivity|]. split; [reflexivity|]. split; [|split; [|split; [|split; [|split]]]].
        -- cbn [List.map]. exact (lookup_after_deletions _ _ _ _ _ Hdeleted Hlookup).
        -- exact Hch.
        -- cbn [List.map]. intros Hid.
           apply elem_of_cons in Hid as [Hid | Hid]; contradiction.
        -- exact Hblocked.
        -- rewrite List.filter_app, length_app, Haddress, Hcount. reflexivity.
        -- intros id ch' Hid Hch'. cbn [List.map] in Hid.
           destruct (decide (id = Id swapToRefund)) as [-> | Hne']; [congruence|].
           apply elem_of_cons in Hid as [Hid | Hid]; [contradiction|].
           exact (Hall id ch' Hid Hch').
Qed.

(** X17. A pass of the block listener over a new block, when the
    refundable swaps can be read.  The pass goes through the swaps in
    order: for a swap with a listener in the map it first sends the stop
    signal on the listener's channel, and only when the listener takes it
    deletes the entry and attempts the refund.  So the pass ends exactly
    when the listener of every refundable swap is still receiving: every
    such listener was then signalled and forgotten, the listeners of the
    other swaps are kept, and a refund was attempted for every refundable
    swap, also after the refund of an earlier one failed.  When the
    listener of a refundable swap has returned (it does after
    [transaction.claimed], and its entry stays in the map) the pass blocks
    in the send to it for ever: the entry is still in the map and only the
    swaps before it had their refund attempted.  In both cases the only
    database writes are updates of refundable swaps to [swap.refunded].
    When the refundable swaps cannot be read the pass logs the error and
    changes nothing. *)
Theorem onBlock_stops_listeners_and_refunds (n : nursery.Nursery) (r : nursery.Recovery)
    (receiving : nat -> bool) (eventListeners : gmap string nat) (height : Z) (w : World) :
  match nursery.database_QueryRefundableSwaps r height with
  | Ok swapsToRefund =>
      pass_writes_refunds swapsToRefund
        (events_of (nursery.onBlock n r receiving eventListeners height w))
      /\ match result_of (nursery.onBlock n r receiving eventListeners height w) with
         | Ok (nursery.PassDone eventListeners') =>
             pass_done receiving eventListeners swapsToRefund eventListeners'
               (events_of (nursery.onBlock n r receiving eventListeners height w))
         | Ok (nursery.PassBlocked id eventListeners') =>
             pass_blocked receiving eventListeners swapsToRefund id eventListeners'
               (events_of (nursery.onBlock n r receiving eventListeners height w))
         | Error _ => False
         end
  | Error err =>
      nursery.onBlock n r receiving eventListeners height w
      = (Ok (nursery.PassDone eventListeners), w,
         [Log ErrorLevel ("Could not query refundable Swaps: " +:+ err)])
  end.
Proof.
  unfold nursery.onBlock, bind, on_error, lift, logger_Error, logger_Info, emit, ret.
  destruct (nursery.database_QueryRefundableSwaps r height) as [swapsToRefund|err];
    [|reflexivity].
  destruct swapsToRefund as [|swapToRefund rest].
  - exact (refund_range_spec n receiving [] eventListeners w).
  - destruct (refund_range_spec n receiving (swapToRefund :: rest) eventListeners w)
      as [Hwrites Hpass].
    cbn [length Nat.ltb Nat.leb].
    destruct (nursery.refund_range n receiving eventListeners (swapToRefund :: rest) w)
      as [[[[eventListeners'|id eventListeners']|e] w2] t2];
      cbn [result_of events_of fst snd app] in *; [| |contradiction].
    + split; [intros ev [<- | HIn] Hwrite; [discriminate Hwrite | auto]|].
      destruct Hpass as (Hlookup & Hcount & Hall & Hsignals).
      split; [exact Hlookup|]. split; [exact Hcount|]. split; [exact Hall|].
      intros id. rewrite <- Hsignals. split; [intros [Hev | HIn]; [discriminate Hev | exact HIn]|].
      intros HIn. right. exact HIn.
    + split; [intros ev [<- | HIn] Hwrite; [discriminate Hwrite | auto]|].
      destruct Hpass as (before & swap & after & ch & Hsplit & Hid & Hlookup & Hch & Hfresh
                         & Hblocked & Hcount & Hall).
      exists before, swap, after, ch. repeat (split; [assumption|]). exact Hall.
Qed.

(** Two listeners are in the map when the sample swap becomes refundable.
    When both receive, the listener of the sample swap is stopped and the
    other one goes on; when the listener of the sample swap has returned,
    the pass blocks before any refund. *)
Lemma onBlock_stops_listeners_and_refunds_witness :
  (exists eventListeners',
     result_of (nursery.onBlock sample_nursery sample_recovery (fun _ => true)
                  {[ "swap1" := 1; "swap2" := 2 ]} 800000 sample_world)
     = Ok (nursery.PassDone eventListeners')
     /\ eventListeners' !! "swap1" = None /\ eventListeners' !! "swap2" = Some 2
     /\ In (ListenerStop "swap1")
          (events_of (nursery.onBlock sample_nursery sample_recovery (fun _ => true)
                        {[ "swap1" := 1; "swap2" := 2 ]} 800000 sample_world)))
  /\ (exists eventListeners',
        result_of (nursery.onBlock sample_nursery sample_recovery (fun ch => negb (ch =? 1))
                     {[ "swap1" := 1; "swap2" := 2 ]} 800000 sample_world)
        = Ok (nursery.PassBlocked "swap1" eventListeners')
        /\ List.filter is_LightningNewAddress
             (events_of (nursery.onBlock sample_nursery sample_recovery
                           (fun ch => negb (ch =? 1))
                           {[ "swap1" := 1; "swap2" := 2 ]} 800000 sample_world)) = []).
Proof.
  split.
  - pose proof (onBlock_stops_listeners_and_refunds sample_nursery sample_recovery
                  (fun _ => true) {[ "swap1" := 1; "swap2" := 2 ]} 800000 sample_world)
      as Hpass.
    cbn [sample_recovery nursery.database_QueryRefundableSwaps] in Hpass.
    destruct Hpass as [_ Hpass].
    destruct (result_of (nursery.onBlock sample_nursery sample_recovery (fun _ => true)
                           {[ "swap1" := 1; "swap2" := 2 ]} 800000 sample_world))
      as [[eventListeners'|id eventListeners']|e]; [| |contradiction].
    + destruct Hpass as (Hlookup & _ & _ & Hsignals).
      exists eventListeners'. split; [reflexivity|]. rewrite !Hlookup.
      split; [reflexivity|]. split; [reflexivity|].
      apply Hsignals. split; [left | eexists; reflexivity].
    + destruct Hpass as (before & swap & after & ch & _ & _ & _ & _ & _ & Hblocked & _).
      discriminate Hblocked.
  - eexists. split; vm_compute; reflexivity.
Defined.


(** X18. The listener of a swap.  A stop signal ends it at once.  A status
    event that cannot be parsed is logged and skipped.  After
    [transaction.claimed] the listener stops, and handles nothing that
    comes later, exactly when the claim was recorded, that is when the node
    reports the invoice as settled; otherwise it leaves swap and database
    as they were and goes on listening.  Any other status is recorded and
    the listener goes on with the swap at that status. *)
Theorem listen_until_claimed_or_stopped (n : nursery.Nursery) (r : nursery.Recovery)
    (swap : Swap) (rest : list nursery.ListenerStep) (w : World) :
  nursery.listen n r swap (nursery.StopListening :: rest) w
  = (Ok (nursery.Stopped, swap), w,
     [Log Info ("Stopping event listener of Swap " +:+ Id swap)])
  /\ (forall data err,
        nursery.json_Unmarshal_status r data = Error err ->
        nursery.listen n r swap (nursery.StreamEvent data :: rest) w
        = (let '(result, w2, t2) := nursery.listen n r swap rest w in
           (result, w2,
            Log ErrorLevel ("Could not parse update event of Swap " +:+ Id swap +:+ ": "
                            +:+ err) :: t2)))
  /\ (forall data status,
        nursery.json_Unmarshal_status r data = Ok status ->
        ParseEvent status = TransactionClaimed ->
        (invoice_settled n swap ->
         result_of (nursery.listen n r swap (nursery.StreamEvent data :: rest) w)
         = Ok (nursery.Stopped, with_Status swap TransactionClaimed)
         /\ nursery.listen n r swap (nursery.StreamEvent data :: rest) w
            = nursery.listen n r swap [nursery.StreamEvent data] w)
        /\ (~ invoice_settled n swap ->
            Status swap <> TransactionClaimed ->
            exists t1,
              Forall (fun ev => is_Log ev = true) t1
              /\ nursery.listen n r swap (nursery.StreamEvent data :: rest) w
                 = (let '(result, w2, t2) := nursery.listen n r swap rest w in
                    (result, w2, t1 ++ t2))))
  /\ (forall data status,
        nursery.json_Unmarshal_status r data = Ok status ->
        ParseEvent status <> TransactionClaimed ->
        exists w1 t1,
          List.filter is_db_write t1 = [DbUpdateSwapStatus (Id swap) (ParseEvent status)]
          /\ nursery.listen n r swap (nursery.StreamEvent data :: rest) w
             = (let '(result, w2, t2) :=
                  nursery.listen n r (with_Status swap (ParseEvent status)) rest w1 in
                (result, w2, t1 ++ t2))).
Proof.
  split; [reflexivity|]. split; [|split].
  - intros data err Hjson. cbn [nursery.listen]. rewrite Hjson.
    generalize (nursery.listen n r swap rest). intros k.
    cbv beta iota zeta delta [bind on_error logger_Error emit fail ret].
    destruct (k w) as [[result w2] t2]. reflexivity.
  - intros data status Hjson Hparsed.
    pose proof (handleSwapStatus_run n swap status w) as Hrun. cbv zeta in Hrun.
    rewrite Hparsed in Hrun. rewrite bool_decide_eq_true_2 in Hrun by reflexivity.
    cbn [andb] in Hrun. split.
    + intros Hsettled. apply invoice_settledb_spec in Hsettled.
      rewrite Hsettled in Hrun. cbn [negb] in Hrun. destruct Hrun as (Hresult & _).
      cbn [nursery.listen]. rewrite Hjson.
      cbv beta iota zeta delta [bind on_error logger_Info emit fail ret].
      destruct (nursery.handleSwapStatus n swap status w) as [[result w1] t1].
      cbn [result_of fst] in Hresult. subst result. cbn [Status with_Status].
      rewrite bool_decide_eq_true_2 by reflexivity. split; reflexivity.
    + intros Hopen Hpending.
      assert (Hsettled : invoice_settledb n swap = false).
      { destruct (invoice_settledb n swap) eqn:Hsettled; [|reflexivity].
        apply invoice_settledb_spec in Hsettled. contradiction. }
      rewrite Hsettled in Hrun. cbn [negb] in Hrun.
      destruct Hrun as (Hresult & Hworld & msg & Hevents).
      exists [Log Info ("Swap " +:+ Id swap +:+ " status update: " +:+ status);
              Log Warning msg].
      split; [repeat constructor|].
      cbn [nursery.listen]. rewrite Hjson.
      cbv beta iota zeta delta [bind on_error logger_Info emit fail ret].
      destruct (nursery.handleSwapStatus n swap status w) as [[result w1] t1].
      cbn [result_of world_of events_of fst snd] in Hresult, Hworld, Hevents.
      subst result w1 t1.
      rewrite bool_decide_eq_false_2 by exact Hpending.
      destruct (nursery.listen n r swap rest w) as [[result w2] t2]. reflexivity.
  - intros data status Hjson Hother.
    pose proof (handleSwapStatus_run n swap status w) as Hrun. cbv zeta in Hrun.
    rewrite bool_decide_eq_false_2 in Hrun by exact Hother. cbn [andb] in Hrun.
    destruct Hrun as (Hresult & Hwrites & _).
    exists (world_of (nursery.handleSwapStatus n swap status w)),
      (Log Info ("Swap " +:+ Id swap +:+ " status update: " +:+ status)
       :: events_of (nursery.handleSwapStatus n swap status w)).
    split; [exact Hwrites|].
    cbn [nursery.listen]. rewrite Hjson.
    cbv beta iota zeta delta [bind on_error logger_Info emit fail ret].
    destruct (nursery.handleSwapStatus n swap status w) as [[result w1] t1].
    cbn [result_of world_of events_of fst snd] in *. subst result.
    cbn [Status with_Status].
    rewrite bool_decide_eq_false_2 by exact Hother.
    destruct (nursery.listen n r (with_Status swap (ParseEvent status)) rest w1)
      as [[result w2] t2].
    reflexivity.
Qed.

(** The listener of the sample swap is told twice that the swap was
    claimed; the node reports the invoice as settled, so the listener stops
    after the first event and records the claim once. *)
Lemma listen_until_claimed_or_stopped_witness :
  let w := set_swaps (insert "swap1" (sample_swap 800000)) sample_world in
  let run := nursery.listen sample_nursery sample_recovery (sample_swap 800000)
               [nursery.StreamEvent "transaction.claimed";
                nursery.StreamEvent "transaction.claimed"] w in
  result_of run = Ok (nursery.Stopped, with_Status (sample_swap 800000) TransactionClaimed)
  /\ length (List.filter is_db_write (events_of run)) = 1.
Proof.
  intros w run. subst run.
  destruct (listen_until_claimed_or_stopped sample_nursery sample_recovery
              (sample_swap 800000) [nursery.StreamEvent "transaction.claimed"] w)
    as (_ & _ & Hclaimed & _).
  destruct (Hclaimed "transaction.claimed" "transaction.claimed" eq_refl eq_refl)
    as [Hsettled _].
  destruct Hsettled as [Hresult Hrun].
  - apply invoice_settledb_spec. reflexivity.
  - split; [exact Hresult|]. rewrite Hrun. reflexivity.
Defined.

(* ===================================================================== *)
(** * More on the status websocket *)
(* ===================================================================== *)






Lemma handleMessage_no_reconnect (net : websocket.Net) (c : nat)
    (msgType : websocket.MessageType) (message : string) :
  Forall (fun ev => is_reconnect_event ev = false)
    (websocket.handleMessage net c msgType message).
Proof.
  unfold websocket.handleMessage. constructor; [reflexivity|].
  destruct msgType.
  - constructor; [reflexivity|].
    destruct (websocket.conn_WriteMessage net c websocket.PongMessage); repeat constructor.
  - destruct (websocket.json_Unmarshal net message) as [response|e]; [|repeat constructor].
    destruct (negb _); [repeat constructor|].
    destruct (String.eqb (websocket.wsEvent response) "update").
    + destruct (String.eqb (websocket.wsChannel response) "swap.update");
        [|repeat constructor].
      unfold websocket.sendUpdates.
      induction (websocket.wsArgs response) as [|arg args IH]; [constructor|].
      cbn [flat_map]. destruct (websocket.mapstructure_Decode net arg) as [update [e|]];
        cbn; repeat (constructor; [reflexivity|]); exact IH.
    + destruct (String.eqb (websocket.wsEvent response) "subscribe"); repeat constructor.
  - constructor.
Qed.

(** The read loop over steps without a read error: it handles the
    messages, notes a [Close] of the client, and goes on with what
    follows. *)
Lemma readLoop_prefix (net : websocket.Net) (c : nat) (steps rest : list websocket.Step)
    (ws : websocket.BoltzWebsocket) :
  Forall (fun step => is_message_or_close step = true) steps ->
  exists ws1 t1,
    websocket.readLoop net ws c (steps ++ rest)
    = (let '(o, ws2, t2) := websocket.readLoop net ws1 c rest in (o, ws2, t1 ++ t2))
    /\ websocket.closed ws1 = websocket.closed ws || existsb is_ClientClose steps
    /\ websocket.conn ws1 = websocket.conn ws
    /\ websocket.apiUrl ws1 = websocket.apiUrl ws
    /\ Forall (fun ev => is_reconnect_event ev = false) t1.
Proof.
  intros Hsteps. revert ws. induction Hsteps as [|step steps Hstep _ IH]; intros ws.
  - exists ws, []. cbn. destruct (websocket.readLoop net ws c rest) as [[o ws2] t2].
    rewrite orb_false_r. auto.
  - destruct step as [|[err|msgType message]]; [| discriminate Hstep |].
    + cbn [app websocket.readLoop].
      destruct (IH (snd (websocket.Close net ws))) as (ws1 & t1 & -> & Hclosed & Hconn & Hurl & Hall).
      exists ws1, t1. split; [reflexivity|].
      rewrite Hclosed, Hconn, Hurl. unfold websocket.Close. cbn.
      destruct (websocket.conn ws); cbn; rewrite orb_true_r; auto.
    + cbn [app websocket.readLoop].
      destruct (IH ws) as (ws1 & t1 & -> & Hclosed & Hconn & Hurl & Hall).
      exists ws1, (websocket.handleMessage net c msgType message ++ t1).
      split.
      * destruct (websocket.readLoop net ws1 c rest) as [[o ws2] t2].
        rewrite app_assoc. reflexivity.
      * cbn [existsb is_ClientClose orb]. repeat (split; [assumption|]).
        apply Forall_app. split; [apply handleMessage_no_reconnect | exact Hall].
Qed.

Lemma count_events_app (f : websocket.WsEvent -> bool) (evs evs' : list websocket.WsEvent) :
  count_events f (evs ++ evs') = count_events f evs + count_events f evs'.
Proof. unfold count_events. rewrite List.filter_app, length_app. reflexivity. Qed.

Lemma count_events_none (f : websocket.WsEvent -> bool) (evs : list websocket.WsEvent) :
  Forall (fun ev => f ev = false) evs -> count_events f evs = 0.
Proof.
  unfold count_events. induction 1 as [|ev evs Hev _ IH]; [reflexivity|].
  cbn. rewrite Hev. exact IH.
Qed.

Lemma no_reconnect_event (f : websocket.WsEvent -> bool) (evs : list websocket.WsEvent) :
  (forall ev, f ev = true -> is_reconnect_event ev = true) ->
  Forall (fun ev => is_reconnect_event ev = false) evs ->
  count_events f evs = 0.
Proof.
  intros Hf Hall. apply count_events_none.
  eapply Forall_impl; [exact Hall|]. intros ev Hev. cbv beta in Hev.
  destruct (f ev) eqn:Hfev; [|reflexivity]. rewrite (Hf ev Hfev) in Hev. discriminate.
Qed.

(** X20. When the client has called [Close] at any time before
    [ReadMessage] fails, the goroutine returns at that failure: it closes
    [Updates], exactly once and as its last act, and it neither sleeps nor
    dials nor starts another reader, whatever it had received before. *)
Theorem reader_returns_after_Close (net : websocket.Net) (ws : websocket.BoltzWebsocket)
    (c : nat) (steps later : list websocket.Step) (err : string)
    (rounds : list websocket.Round) :
  Forall (fun step => is_message_or_close step = true) steps ->
  existsb is_ClientClose steps = true ->
  let run := websocket.reader net ws c
               (steps ++ websocket.Incoming (websocket.ReadError err) :: later) rounds in
  fst (fst run) = websocket.Returned
  /\ websocket.closed (snd (fst run)) = true
  /\ (exists evs, snd run = evs ++ [websocket.UpdatesClose]
                  /\ Forall (fun ev => is_reconnect_event ev = false) evs)
  /\ count_events is_UpdatesClose (snd run) = 1
  /\ count_events is_Sleep (snd run) = 0
  /\ count_events is_Dial (snd run) = 0
  /\ count_events is_GoReader (snd run) = 0.
Proof.
  intros Hsteps Hclose run. subst run. unfold websocket.reader.
  destruct (readLoop_prefix net c steps
              (websocket.Incoming (websocket.ReadError err) :: later) ws Hsteps)
    as (ws1 & t1 & -> & Hclosed & _ & _ & Hall).
  rewrite Hclose, orb_true_r in Hclosed.
  cbn [websocket.readLoop]. rewrite Hclosed. cbn [fst snd].
  split; [reflexivity|]. split; [exact Hclosed|].
  split; [exists t1; auto|].
  rewrite !count_events_app.
  rewrite (no_reconnect_event is_UpdatesClose t1), (no_reconnect_event is_Sleep t1),
    (no_reconnect_event is_Dial t1), (no_reconnect_event is_GoReader t1);
    try exact Hall; try (intros []; cbn; congruence).
  repeat split; reflexivity.
Qed.

(** The sample websocket receives a ping, the client closes it, and the
    connection fails: the goroutine has returned and [Updates] is closed,
    though three rounds of reconnecting were possible. *)
Lemma reader_returns_after_Close_witness :
  let again := {| websocket.closes := false; websocket.dialed := Ok 2 |} in
  let run := websocket.reader sample_net sample_websocket 1
               ([websocket.Incoming (websocket.ReadOk websocket.PingMessageType "");
                 websocket.ClientClose]
                ++ websocket.Incoming (websocket.ReadError "use of closed connection") :: [])
               [again; again; again] in
  fst (fst run) = websocket.Returned /\ count_events is_UpdatesClose (snd run) = 1.
Proof.
  intros again run. subst run.
  destruct (reader_returns_after_Close sample_net sample_websocket 1
              [websocket.Incoming (websocket.ReadOk websocket.PingMessageType "");
               websocket.ClientClose] [] "use of closed connection" [again; again; again])
    as (Hreturned & _ & _ & Hclosed & _).
  - repeat constructor.
  - reflexivity.
  - split; [exact Hreturned | exact Hclosed].
Defined.

(** The reconnect loop on a websocket that stays open: the first dial
    that succeeds starts the one new reader. *)
Lemma reconnectLoop_success_open (net : websocket.Net) (ws : websocket.BoltzWebsocket)
    (failures : list error) (c : nat) (rest : list websocket.Round) (u : websocket.Url) :
  websocket.closed ws = false ->
  websocket.url_Parse net (websocket.apiUrl ws) = Ok u ->
  let rounds :=
    List.map (fun e => {| websocket.closes := false; websocket.dialed := Error e |}) failures
    ++ {| websocket.closes := false; websocket.dialed := Ok c |} :: rest in
  websocket.closed (snd (fst (websocket.reconnectLoop net ws rounds))) = false
  /\ count_events is_GoReader (snd (websocket.reconnectLoop net ws rounds)) = 1
  /\ In (websocket.GoReader c) (snd (websocket.reconnectLoop net ws rounds))
  /\ count_events is_UpdatesClose (snd (websocket.reconnectLoop net ws rounds)) = 0.
Proof.
  intros Hopen Hurl rounds. subst rounds. revert ws Hopen Hurl.
  induction failures as [|e failures IH]; intros ws Hopen Hurl.
  - cbn [List.map app websocket.reconnectLoop websocket.closes websocket.dialed].
    unfold websocket.Connect. rewrite Hopen, Hurl. cbn.
    split; [exact Hopen|]. split; [reflexivity|]. split; [auto 10 | reflexivity].
  - cbn [List.map app websocket.reconnectLoop websocket.closes websocket.dialed].
    unfold websocket.Connect at 1 2 3 4.
    rewrite Hopen, Hurl. cbn [fst snd].
    assert (Hopen' : websocket.closed (websocket.with_conn ws None) = false) by exact Hopen.
    assert (Hurl' : websocket.url_Parse net
                      (websocket.apiUrl (websocket.with_conn ws None)) = Ok u)
      by exact Hurl.
    specialize (IH (websocket.with_conn ws None) Hopen' Hurl').
    destruct (websocket.reconnectLoop net (websocket.with_conn ws None) _) as [[o ws2] evs].
    cbn [fst snd] in IH |- *. destruct IH as (Hc & Hg & HIn & Hu).
    unfold count_events in *. cbn. rewrite Hg, Hu.
    split; [exact Hc|]. split; [reflexivity|]. split; [auto | reflexivity].
Qed.

(** X21. When [ReadMessage] fails on a websocket that the client has not
    closed, the goroutine reconnects: it sleeps 15 seconds before every
    attempt, dials once per attempt, and returns after the first attempt
    that succeeds, having started exactly one new reader, for the new
    connection, which is then the connection of the websocket; [Updates]
    stays open. *)
Theorem reader_reconnects_until_success (net : websocket.Net) (ws : websocket.BoltzWebsocket)
    (c : nat) (steps later : list websocket.Step) (err : string) (failures : list error)
    (c' : nat) (rest : list websocket.Round) (u : websocket.Url) :
  websocket.closed ws = false ->
  websocket.url_Parse net (websocket.apiUrl ws) = Ok u ->
  Forall (fun step => is_message step = true) steps ->
  let rounds :=
    List.map (fun e => {| websocket.closes := false; websocket.dialed := Error e |}) failures
    ++ {| websocket.closes := false; websocket.dialed := Ok c' |} :: rest in
  let run := websocket.reader net ws c
               (steps ++ websocket.Incoming (websocket.ReadError err) :: later) rounds in
  fst (fst run) = websocket.Returned
  /\ websocket.conn (snd (fst run)) = Some c'
  /\ websocket.closed (snd (fst run)) = false
  /\ count_events is_Sleep (snd run) = S (length failures)
  /\ count_events is_Dial (snd run) = S (length failures)
  /\ Forall (fun ev => is_Sleep ev = true -> ev = websocket.Sleep (15 * 1000000000)%Z)
       (snd run)
  /\ count_events is_GoReader (snd run) = 1
  /\ In (websocket.GoReader c') (snd run)
  /\ count_events is_UpdatesClose (snd run) = 0.
Proof.
  intros Hopen Hurl Hsteps rounds run. subst run rounds. unfold websocket.reader.
  assert (Hsteps' : Forall (fun step => is_message_or_close step = true) steps).
  { eapply Forall_impl; [exact Hsteps|]. intros [|[]]; cbn; congruence. }
  assert (Hnoclose : existsb is_ClientClose steps = false).
  { clear - Hsteps. induction Hsteps as [|step steps Hstep _ IH]; [reflexivity|].
    cbn. rewrite IH. destruct step as [|[]]; first [discriminate Hstep | reflexivity]. }
  destruct (readLoop_prefix net c steps
              (websocket.Incoming (websocket.ReadError err) :: later) ws Hsteps')
    as (ws1 & t1 & -> & Hclosed & _ & Hapi & Hall).
  rewrite Hnoclose, orb_false_r, Hopen in Hclosed.
  cbn [websocket.readLoop]. rewrite Hclosed. rewrite <- Hapi in Hurl.
  pose proof (reconnectLoop_until_success net ws1 failures c' rest u Hclosed Hurl)
    as (Hreturned & Hconn & Hsleep & Hdial & Hinterval).
  pose proof (reconnectLoop_success_open net ws1 failures c' rest u Hclosed Hurl)
    as (Hstill & Hreader & HIn & Hupdates).
  cbv zeta in Hreturned, Hconn, Hsleep, Hdial, Hinterval, Hstill, Hreader, HIn, Hupdates.
  destruct (websocket.reconnectLoop net ws1 _) as [[o ws2] t2].
  cbn [fst snd] in *.
  split; [exact Hreturned|]. split; [exact Hconn|]. split; [exact Hstill|].
  assert (Hall' : Forall (fun ev => is_reconnect_event ev = false)
                    (t1 ++ [websocket.WsLog ErrorLevel
                              ("could not receive message: " +:+ err)]))
    by (apply Forall_app; split; [exact Hall | repeat constructor]).
  clear Hall. revert Hall'.
  generalize (t1 ++ [websocket.WsLog ErrorLevel ("could not receive message: " +:+ err)]).
  clear t1. intros t1 Hall.
  rewrite !count_events_app.
  rewrite (no_reconnect_event is_UpdatesClose t1), (no_reconnect_event is_Sleep t1),
    (no_reconnect_event is_Dial t1), (no_reconnect_event is_GoReader t1);
    try exact Hall; try (intros []; cbn; congruence).
  rewrite Hsleep, Hdial, Hreader, Hupdates. cbn.
  split; [reflexivity|]. split; [reflexivity|]. split.
  - apply Forall_app. split; [|exact Hinterval].
    eapply Forall_impl; [exact Hall|]. intros [] Hev Hsleep'; cbn in *; congruence.
  - split; [reflexivity|]. split; [|reflexivity].
    apply in_or_app. right. exact HIn.
Qed.

(** The sample websocket loses its connection; the first two dials fail,
    the third gives connection 7: the goroutine has slept three times and
    the websocket is connected again. *)
Lemma reader_reconnects_until_success_witness :
  let run := websocket.reader sample_net sample_websocket 1
               ([] ++ websocket.Incoming (websocket.ReadError "EOF") :: [])
               (List.map (fun e => {| websocket.closes := false;
                                      websocket.dialed := Error e |})
                  ["connection refused"; "connection refused"]
                ++ {| websocket.closes := false; websocket.dialed := Ok 7 |} :: []) in
  websocket.conn (snd (fst run)) = Some 7 /\ count_events is_Sleep (snd run) = 3.
Proof.
  intros run. subst run.
  destruct (reader_reconnects_until_success sample_net sample_websocket 1 [] [] "EOF"
              ["connection refused"; "connection refused"] 7 []
              {| websocket.Scheme := "https"; websocket.Path := "";
                 websocket.Rest := "api.boltz.exchange" |})
    as (_ & Hconn & _ & Hsleep & _).
  - reflexivity.
  - reflexivity.
  - constructor.
  - split; [exact Hconn | exact Hsleep].
Defined.

(* ===================================================================== *)
(** * The block explorer client and the macaroon interceptors *)
(* ===================================================================== *)

Lemma strings_HasSuffix_spec (s suffix : string) :
  strings_HasSuffix s suffix = true <-> exists p, s = p +:+ suffix.
Proof.
  induction s as [|c s IH]; cbn [strings_HasSuffix].
  - rewrite orb_false_r, String.eqb_eq. split.
    + intros <-. exists "". reflexivity.
    + intros (p & Hp). destruct p; [exact Hp | discriminate Hp].
  - rewrite orb_true_iff, String.eqb_eq, IH. split.
    + intros [<- | (p & ->)]; [exists ""; reflexivity | exists (String c p); reflexivity].
    + intros ([|c' p] & Hp); [left; exact Hp|].
      injection Hp as -> ->. right. exists p. reflexivity.
Qed.

Lemma substring_prefix (p q : string) : String.substring 0 (String.length p) (p +:+ q) = p.
Proof.
  induction p as [|c p IH].
  - destruct q; reflexivity.
  - change (String.substring 0 (String.length (String c p)) (String c p +:+ q))
      with (String c (String.substring 0 (String.length p) (p +:+ q))).
    rewrite IH. reflexivity.
Qed.

Lemma length_append (p q : string) :
  String.length (p +:+ q) = String.length p + String.length q.
Proof.
  induction p as [|c p IH]; [reflexivity|].
  change (S (String.length (p +:+ q)) = S (String.length p + String.length q)).
  rewrite IH. reflexivity.
Qed.

Lemma strings_TrimSuffix_spec (s suffix : string) :
  (exists p, s = p +:+ suffix /\ strings_TrimSuffix s suffix = p)
  \/ (strings_HasSuffix s suffix = false /\ strings_TrimSuffix s suffix = s).
Proof.
  unfold strings_TrimSuffix. destruct (strings_HasSuffix s suffix) eqn:Hsuffix; [|auto].
  left. apply strings_HasSuffix_spec in Hsuffix as (p & ->). exists p.
  split; [reflexivity|]. rewrite length_append.
  replace (String.length p + String.length suffix - String.length suffix)
    with (String.length p) by lia.
  apply substring_prefix.
Qed.

Lemma list_ascii_of_append (p q : string) :
  list_ascii_of_string (p +:+ q) = list_ascii_of_string p ++ list_ascii_of_string q.
Proof.
  induction p as [|c p IH]; [reflexivity|].
  change (c :: list_ascii_of_string (p +:+ q)
          = c :: (list_ascii_of_string p ++ list_ascii_of_string q)).
  rewrite IH. reflexivity.
Qed.

(** A string that ends in "/v1" does not end in "/". *)
Lemma v1_suffix_no_slash (p : string) : strings_HasSuffix (p +:+ "/v1") "/" = false.
Proof.
  destruct (strings_HasSuffix (p +:+ "/v1") "/") eqn:Hslash; [|reflexivity].
  apply strings_HasSuffix_spec in Hslash as (q & Hq).
  apply (f_equal list_ascii_of_string) in Hq. rewrite !list_ascii_of_append in Hq.
  change (list_ascii_of_string "/v1") with (["/"; "v"]%char ++ ["1"%char]) in Hq.
  change (list_ascii_of_string "/") with ["/"%char] in Hq.
  rewrite app_assoc in Hq. apply app_inj_tail in Hq as [_ Hq]. discriminate Hq.
Qed.

(** X22. [InitClient] normalises the endpoint of the block explorer: at
    most one trailing slash is removed to give [api], and [apiv1] is [api]
    itself when that already ends in "/v1" and [api] followed by "/v1"
    otherwise.  So [apiv1] always ends in "/v1", "/v1" is never appended
    twice, an endpoint given with or without the trailing slash yields the
    same client, and the normal form is stable: initialising a client with
    the [apiv1] of a client gives that [apiv1] back. *)
Theorem InitClient_normalises_endpoint (endpoint : string) :
  strings_HasSuffix (mempool.apiv1 (mempool.InitClient endpoint)) "/v1" = true
  /\ (endpoint = mempool.api (mempool.InitClient endpoint)
      \/ endpoint = mempool.api (mempool.InitClient endpoint) +:+ "/")
  /\ (mempool.apiv1 (mempool.InitClient endpoint) = mempool.api (mempool.InitClient endpoint)
      \/ (strings_HasSuffix (mempool.api (mempool.InitClient endpoint)) "/v1" = false
          /\ mempool.apiv1 (mempool.InitClient endpoint)
             = mempool.api (mempool.InitClient endpoint) +:+ "/v1"))
  /\ (strings_HasSuffix endpoint "/" = false ->
      mempool.InitClient (endpoint +:+ "/") = mempool.InitClient endpoint)
  /\ mempool.apiv1 (mempool.InitClient (mempool.apiv1 (mempool.InitClient endpoint)))
     = mempool.apiv1 (mempool.InitClient endpoint)
  /\ mempool.api (mempool.InitClient (mempool.apiv1 (mempool.InitClient endpoint)))
     = mempool.apiv1 (mempool.InitClient endpoint).
Proof.
  assert (Hends : forall e,
             strings_HasSuffix (mempool.apiv1 (mempool.InitClient e)) "/v1" = true).
  { intros e. unfold mempool.InitClient. cbn [mempool.apiv1].
    destruct (strings_HasSuffix (strings_TrimSuffix e "/") "/v1") eqn:Hv1; cbn [negb].
    - exact Hv1.
    - apply strings_HasSuffix_spec. eauto. }
  assert (Hstable : forall x,
             strings_HasSuffix x "/v1" = true ->
             mempool.InitClient x = {| mempool.api := x; mempool.apiv1 := x |}).
  { intros x Hx. pose proof Hx as Hx'. apply strings_HasSuffix_spec in Hx' as (p & ->).
    unfold mempool.InitClient, strings_TrimSuffix.
    rewrite v1_suffix_no_slash, Hx. reflexivity. }
  split; [apply Hends|]. split; [|split; [|split; [|split]]].
  - unfold mempool.InitClient. cbn [mempool.api].
    destruct (strings_TrimSuffix_spec endpoint "/") as [(p & -> & ->) | [_ ->]]; auto.
  - unfold mempool.InitClient. cbn [mempool.api mempool.apiv1].
    destruct (strings_HasSuffix (strings_TrimSuffix endpoint "/") "/v1"); cbn [negb]; auto.
  - intros Hnoslash. unfold mempool.InitClient.
    assert (Hsame : strings_TrimSuffix (endpoint +:+ "/") "/" = strings_TrimSuffix endpoint "/").
    { unfold strings_TrimSuffix at 2. rewrite Hnoslash.
      unfold strings_TrimSuffix.
      replace (strings_HasSuffix (endpoint +:+ "/") "/") with true
        by (symmetry; apply strings_HasSuffix_spec; eauto).
      rewrite length_append. cbn [String.length].
      replace (String.length endpoint + 1 - 1) with (String.length endpoint) by lia.
      apply substring_prefix. }
    rewrite Hsame. reflexivity.
  - rewrite (Hstable _ (Hends endpoint)). reflexivity.
  - rewrite (Hstable _ (Hends endpoint)). reflexivity.
Qed.

(** The public endpoint with and without version and slash. *)
Lemma InitClient_normalises_endpoint_witness :
  mempool.InitClient "https://mempool.space/api/"
  = {| mempool.api := "https://mempool.space/api";
       mempool.apiv1 := "https://mempool.space/api/v1" |}
  /\ mempool.InitClient ("https://mempool.space/api" +:+ "/")
     = mempool.InitClient "https://mempool.space/api".
Proof.
  split; [reflexivity|].
  apply (InitClient_normalises_endpoint "https://mempool.space/api"). reflexivity.
Defined.

(** What [validateRequest] checks, in the order of the code. *)
Lemma validateRequest_accepts {Permissions : Type} (service : macaroons.Service Permissions)
    (ctx : macaroons.Context) (fullMethod : string) :
  match macaroons.validateRequest service ctx fullMethod with
  | None =>
      exists requiredPermissions md mac macBytes,
        macaroons.RPCServerPermissions service !! fullMethod = Some requiredPermissions
        /\ ctx = Some md
        /\ md !! "macaroon" = Some [mac]
        /\ macaroons.hex_DecodeString service mac = Ok macBytes
        /\ macaroons.ValidateMacaroon service macBytes requiredPermissions = None
  | Some err =>
      macaroons.RPCServerPermissions service !! fullMethod = None ->
      err = "could not find permissions requires for method: " +:+ fullMethod
  end.
Proof.
  unfold macaroons.validateRequest.
  destruct (macaroons.RPCServerPermissions service !! fullMethod)
    as [requiredPermissions|]; [|reflexivity].
  destruct ctx as [md|]; [|discriminate].
  destruct (md !! "macaroon") as [[|mac [|mac' macaroon]]|] eqn:Hmd; cbn;
    try discriminate.
  destruct (macaroons.hex_DecodeString service mac) as [macBytes|e] eqn:Hhex;
    [|discriminate].
  destruct (macaroons.ValidateMacaroon service macBytes requiredPermissions) eqn:Hvalid;
    [discriminate|].
  exists requiredPermissions, md, mac, macBytes. auto.
Qed.

(** X23. The unary macaroon interceptor hands a request to the handler
    only when the method has an entry in [RPCServerPermissions], the
    context carries metadata with exactly one value under "macaroon", that
    value is hexadecimal, and [ValidateMacaroon] accepts the decoded
    macaroon for the permissions of that method.  In every other case the
    interceptor returns the error of the failed check and the handler is
    not run: the world is untouched and nothing is logged.  A method
    without permissions is refused whatever the context carries. *)
Theorem macaroon_interceptor_guards_handler {Permissions Req Resp : Type}
    (service : macaroons.Service Permissions) (ctx : macaroons.Context) (req : Req)
    (info : rpcserver.ServerInfo) (handler : macaroons.Context -> Req -> M Resp)
    (w : World) :
  match macaroons.validateRequest service ctx (rpcserver.FullMethod info) with
  | None =>
      macaroons.UnaryServerInterceptor service ctx req info handler w = handler ctx req w
      /\ exists requiredPermissions md mac macBytes,
           macaroons.RPCServerPermissions service !! rpcserver.FullMethod info
           = Some requiredPermissions
           /\ ctx = Some md
           /\ md !! "macaroon" = Some [mac]
           /\ macaroons.hex_DecodeString service mac = Ok macBytes
           /\ macaroons.ValidateMacaroon service macBytes requiredPermissions = None
  | Some err =>
      macaroons.UnaryServerInterceptor service ctx req info handler w = (Error err, w, [])
      /\ (macaroons.RPCServerPermissions service !! rpcserver.FullMethod info = None ->
          err = "could not find permissions requires for method: "
                +:+ rpcserver.FullMethod info)
  end.
Proof.
  pose proof (validateRequest_accepts service ctx (rpcserver.FullMethod info)) as Hcheck.
  unfold macaroons.UnaryServerInterceptor.
  destruct (macaroons.validateRequest service ctx (rpcserver.FullMethod info)) as [err|];
    (split; [reflexivity | exact Hcheck]).
Qed.

(** A request that carries two macaroons does not reach the handler. *)
Lemma macaroon_interceptor_guards_handler_witness :
  macaroons.UnaryServerInterceptor
    {| macaroons.RPCServerPermissions := {[ "/boltzrpc.Boltz/GetInfo" := tt ]};
       macaroons.hex_DecodeString := fun s => Ok (list_byte_of_string s);
       macaroons.ValidateMacaroon := fun _ _ => None |}
    (Some {[ "macaroon" := ["0201"; "0202"] ]}) tt
    {| rpcserver.FullMethod := "/boltzrpc.Boltz/GetInfo" |}
    (fun _ _ => logger_Info "handled") sample_world
  = (Error "expected 1 macaroon, got 2", sample_world, []).
Proof.
  pose proof (macaroon_interceptor_guards_handler
                {| macaroons.RPCServerPermissions := {[ "/boltzrpc.Boltz/GetInfo" := tt ]};
                   macaroons.hex_DecodeString := fun s => Ok (list_byte_of_string s);
                   macaroons.ValidateMacaroon := fun _ _ => None |}
                (Some {[ "macaroon" := ["0201"; "0202"] ]}) tt
                {| rpcserver.FullMethod := "/boltzrpc.Boltz/GetInfo" |}
                (fun _ _ => logger_Info "handled") sample_world) as Hguard.
  destruct Hguard as [Hrun _]. exact Hrun.
Defined.

(** X24. The stream interceptor applies the same check to the context of
    the stream: a stream whose context has no metadata, or whose method
    has no permissions, is refused before the handler sees it, and a
    stream that reaches the handler carried exactly one macaroon that
    [ValidateMacaroon] accepted for the method. *)
Theorem macaroon_stream_interceptor_guards_handler {Permissions Srv Stream : Type}
    (service : macaroons.Service Permissions) (srv : Srv) (ss : Stream)
    (ss_Context : Stream -> macaroons.Context) (info : rpcserver.ServerInfo)
    (handler : Srv -> Stream -> M unit) (w : World) :
  (macaroons.StreamServerInterceptor service srv ss ss_Context info handler w
   = handler srv ss w
   /\ exists requiredPermissions md mac macBytes,
        macaroons.RPCServerPermissions service !! rpcserver.FullMethod info
        = Some requiredPermissions
        /\ ss_Context ss = Some md
        /\ md !! "macaroon" = Some [mac]
        /\ macaroons.hex_DecodeString service mac = Ok macBytes
        /\ macaroons.ValidateMacaroon service macBytes requiredPermissions = None)
  \/ (exists err,
        macaroons.StreamServerInterceptor service srv ss ss_Context info handler w
        = (Error err, w, [])
        /\ (macaroons.RPCServerPermissions service !! rpcserver.FullMethod info = None ->
            err = "could not find permissions requires for method: "
                  +:+ rpcserver.FullMethod info)
        /\ (macaroons.RPCServerPermissions service !! rpcserver.FullMethod info <> None ->
            ss_Context ss = None -> err = "could not get metadata from context")).
Proof.
  pose proof (validateRequest_accepts service (ss_Context ss) (rpcserver.FullMethod info))
    as Hcheck.
  unfold macaroons.StreamServerInterceptor.
  destruct (macaroons.validateRequest service (ss_Context ss) (rpcserver.FullMethod info))
    as [err|] eqn:Hvalid.
  - right. exists err. split; [reflexivity|]. split; [exact Hcheck|].
    intros Hperm Hctx. unfold macaroons.validateRequest in Hvalid.
    destruct (macaroons.RPCServerPermissions service !! rpcserver.FullMethod info);
      [|contradiction].
    rewrite Hctx in Hvalid. injection Hvalid as <-. reflexivity.
  - left. split; [reflexivity | exact Hcheck].
Qed.
